(** * VOPR Hub tooling: the VOPR worker driver and the VOPR organizer

    A shallow embedding of
    - the VOPR worker driver (the Zig program stored after the setup notes in
      [src/vopr_hub/SETUP.md]): [main], [parse_flag], [run_simulator],
      [run_child_process], [send_report], [create_report], [fatal];
    - the VOPR organizer (Go), in its two revisions: the branch-assigning one
      ([src/vopr_hub/vopr_organizer/main.go]) and the commit-resolving one
      (the later revision of the same file).

    Both programs are drivers around child processes, the network and the
    environment.  Everything outside the program (the command line as the
    flag package reads it, environment variables, the tracker's HTTP answers,
    git, the simulator child process, the TCP connection to the hub) is a
    field of a [World] record; what the program does to the outside is
    recorded, in order, as a list of events. *)

From Stdlib Require Import ZArith List String Ascii Bool Lia Permutation.
From Stdlib Require Import DecimalString.
Import ListNotations.

Local Open Scope string_scope.
Local Open Scope Z_scope.

(** ** Outcomes of an effectful computation *)

Module Eff.

(** A computation returns a value, ends the process through [exit], or
    panics.  [Stuck] is the outcome of a loop of the model that was given
    too little fuel; it is no behaviour of the program. *)
Inductive result (P A : Type) : Type :=
| Ret (a : A)
| Exited (code : Z)
| Panicked (p : P)
| Stuck.

Arguments Ret {P A} a.
Arguments Exited {P A} code.
Arguments Panicked {P A} p.
Arguments Stuck {P A}.

(** State passing with early termination. *)
Definition M (S P A : Type) : Type := S -> result P A * S.

Definition ret {S P A} (a : A) : M S P A := fun s => (Ret a, s).

Definition bind {S P A B} (c : M S P A) (k : A -> M S P B) : M S P B :=
  fun s =>
    match c s with
    | (Ret a, s') => k a s'
    | (Exited code, s') => (Exited code, s')
    | (Panicked p, s') => (Panicked p, s')
    | (Stuck, s') => (Stuck, s')
    end.

Definition exit {S P A} (code : Z) : M S P A := fun s => (Exited code, s).
Definition panic {S P A} (p : P) : M S P A := fun s => (Panicked p, s).
Definition stuck {S P A} : M S P A := fun s => (Stuck, s).

Definition is_ret {P A} (r : result P A) : bool :=
  match r with Ret _ => true | _ => false end.

End Eff.

Import Eff.

Declare Scope eff_scope.
Delimit Scope eff_scope with eff.
Notation "x <- c ;; k" := (bind c (fun x => k))
  (at level 61, c at next level, right associativity) : eff_scope.
Notation "c ;;; k" := (bind c (fun _ => k))
  (at level 61, right associativity) : eff_scope.

(** ** Go library functions used by the organizer *)

Module GoLib.

(** Go's [int] is 64 bits wide on the hosts the organizer runs on. *)
Definition int_min : Z := - 2 ^ 63.
Definition int_max : Z := 2 ^ 63 - 1.
Definition int_wrap (z : Z) : Z := (z + 2 ^ 63) mod 2 ^ 64 - 2 ^ 63.
Definition is_int (z : Z) : Prop := int_min <= z <= int_max.

Definition int_sub (a b : Z) : Z := int_wrap (a - b).
Definition int_add (a b : Z) : Z := int_wrap (a + b).

(** [len] of a slice. *)
Definition len {A} (l : list A) : Z := Z.of_nat (List.length l).

(** [%d] of [fmt.Sprintf]. *)
Definition itoa (z : Z) : string := NilZero.string_of_int (Z.to_int z).

(** [strings.TrimRight s cutset]: [s] without its trailing characters that
    occur in [cutset]. *)
Fixpoint in_cutset (c : ascii) (cutset : string) : bool :=
  match cutset with
  | EmptyString => false
  | String d rest => Ascii.eqb c d || in_cutset c rest
  end.

Fixpoint TrimRight (s cutset : string) : string :=
  match s with
  | EmptyString => EmptyString
  | String c rest =>
      let rest' := TrimRight rest cutset in
      if String.eqb rest' "" && in_cutset c cutset then "" else String c rest'
  end.

(** [strings.Cut s sep]: the text before and after the first [sep]. *)
Definition Cut (s sep : string) : string * string * bool :=
  match index 0 sep s with
  | Some i =>
      (substring 0 i s,
       substring (i + String.length sep)%nat
                 (String.length s - i - String.length sep)%nat s,
       true)
  | None => (s, "", false)
  end.

(** [strconv.Atoi]: an optional sign and one or more decimal digits, read
    left to right; the first offending byte decides the error. *)
Inductive NumError : Type :=
| ErrSyntax (input : string)
| ErrRange (input : string).

Definition digit_of (c : ascii) : option Z :=
  let n := Z.of_N (N_of_ascii c) in
  if (48 <=? n) && (n <=? 57) then Some (n - 48) else None.

Fixpoint parse_uint (s0 s : string) (n : Z) : NumError + Z :=
  match s with
  | EmptyString => inr n
  | String c rest =>
      match digit_of c with
      | None => inl (ErrSyntax s0)
      | Some d =>
          let n1 := n * 10 + d in
          if n1 >? 2 ^ 64 - 1 then inl (ErrRange s0)
          else parse_uint s0 rest n1
      end
  end.

Definition Atoi (s0 : string) : NumError + Z :=
  let '(neg, s) :=
    match s0 with
    | String "-" rest => (true, rest)
    | String "+" rest => (false, rest)
    | _ => (false, s0)
    end in
  match s with
  | EmptyString => inl (ErrSyntax s0)
  | _ =>
      match parse_uint s0 s 0 with
      | inl e => inl e
      | inr un =>
          if negb neg && (un >=? 2 ^ 63) then inl (ErrRange s0)
          else if neg && (un >? 2 ^ 63) then inl (ErrRange s0)
          else inr (if neg then - un else un)
      end
  end.

End GoLib.

Import GoLib.

(** ** The VOPR organizer: what both revisions share *)

Module Organizer.

(** The JSON shapes decoded from the tracker.  In the Go source the field of
    [Head] is called [Label] and the field of [Issue] is called [Head]; both
    names are taken by the types here. *)
Record Label : Type := { Name : string }.
Record Head : Type := { HeadLabel : string }.
Record Issue : Type := { Labels : list Label; IssueHead : Head }.
Record Commit : Type := { Sha : string }.

(** What the organizer does to the outside, in order. *)
Inductive event : Type :=
| EvLog (level message : string)        (* log_message, timestamp left out *)
| EvPrint (text : string)               (* fmt.Printf, fmt.Println *)
| EvStderr (text : string)              (* what the flag package prints *)
| EvHttpGet (url : string)              (* http.Get *)
| EvGit (dir : string) (args : list string). (* exec.Command "git" args, Dir = dir *)

Inductive panic_value : Type :=
| PanicNumError (e : NumError)          (* panic(err.Error()), err of Atoi *)
| PanicError (message : string)         (* panic(err.Error()), other errors *)
| PanicNilDereference                   (* err.Error() on a nil err *)
| PanicIndexOutOfRange                  (* slice index out of range *)
| PanicDivideByZero.                    (* integer divide by zero *)

(** An answer of the tracker to one GET: the error of [http.Get], the status
    code, the error of [io.ReadAll], and what [json.Unmarshal] makes of the
    body for either target type. *)
Record Response : Type := {
  get_error : option string;
  StatusCode : Z;
  read_error : option string;
  body_issues : string + list Issue;
  body_commits : string + list Commit
}.

(** What [flag.Parse()] makes of the command line.  The flag set holds the
    one flag [-debug] and handles errors by ending the process: for [-h] or
    [-help] it prints the usage and exits with status 0; for a flag that is
    not defined or a value of [-debug] that is no boolean it prints the
    error and the usage and exits with status 2. *)
Inductive CommandLine : Type :=
| Flags (debug : bool)
| AsksHelp (usage : string)
| BadFlag (message usage : string).

(** The outside world.  The tracker answers a URL the same way during one
    run; git acts on a repository state of type [Repo];
    [git branch --show-current] only reads it. *)
Record World (Repo : Type) : Type := {
  LookupEnv : string -> option string;
  command_line : CommandLine;
  http_Get : string -> Response;
  git_fetch : string -> Repo -> option string * Repo;
  git_checkout : string -> string -> Repo -> option string * Repo;
  git_show_current : string -> Repo -> string * option string
}.
Arguments LookupEnv {Repo} _ _.
Arguments command_line {Repo} _.
Arguments http_Get {Repo} _ _.
Arguments git_fetch {Repo} _ _ _.
Arguments git_checkout {Repo} _ _ _ _.
Arguments git_show_current {Repo} _ _ _.

(** The package-level variables. *)
Record globals : Type := {
  debug_mode : bool;
  tigerbeetle_directory : string;
  repository_url : string;
  num_voprs : Z;
  current_vopr : Z
}.

Definition globals_zero : globals :=
  {| debug_mode := false; tigerbeetle_directory := ""; repository_url := "";
     num_voprs := 0; current_vopr := 0 |}.

Record state (Repo : Type) : Type := {
  vars : globals;
  trace : list event;
  repo : Repo
}.
Arguments vars {Repo} _.
Arguments trace {Repo} _.
Arguments repo {Repo} _.
Arguments Build_state {Repo} _ _ _.

Definition initial {Repo} (r : Repo) : state Repo :=
  {| vars := globals_zero; trace := []; repo := r |}.

Section WithWorld.

Context {Repo : Type} (w : World Repo).

Definition Go (A : Type) : Type := M (state Repo) panic_value A.

Definition emit (e : event) : Go unit :=
  fun s => (Ret tt, {| vars := vars s; trace := (trace s ++ [e])%list; repo := repo s |}).

Definition get_vars : Go globals := fun s => (Ret (vars s), s).

Definition set_vars (f : globals -> globals) : Go unit :=
  fun s => (Ret tt, {| vars := f (vars s); trace := trace s; repo := repo s |}).

Definition set_debug_mode (b : bool) (g : globals) : globals :=
  {| debug_mode := b; tigerbeetle_directory := tigerbeetle_directory g;
     repository_url := repository_url g; num_voprs := num_voprs g;
     current_vopr := current_vopr g |}.
Definition set_tigerbeetle_directory (d : string) (g : globals) : globals :=
  {| debug_mode := debug_mode g; tigerbeetle_directory := d;
     repository_url := repository_url g; num_voprs := num_voprs g;
     current_vopr := current_vopr g |}.
Definition set_repository_url (u : string) (g : globals) : globals :=
  {| debug_mode := debug_mode g; tigerbeetle_directory := tigerbeetle_directory g;
     repository_url := u; num_voprs := num_voprs g;
     current_vopr := current_vopr g |}.
Definition set_num_voprs (n : Z) (g : globals) : globals :=
  {| debug_mode := debug_mode g; tigerbeetle_directory := tigerbeetle_directory g;
     repository_url := repository_url g; num_voprs := n;
     current_vopr := current_vopr g |}.
Definition set_current_vopr (n : Z) (g : globals) : globals :=
  {| debug_mode := debug_mode g; tigerbeetle_directory := tigerbeetle_directory g;
     repository_url := repository_url g; num_voprs := num_voprs g;
     current_vopr := n |}.

(** Slice indexing and integer division, with Go's run-time checks. *)
Definition index {A} (l : list A) (i : Z) : Go A :=
  if (0 <=? i) && (i <? len l) then
    match nth_error l (Z.to_nat i) with
    | Some x => ret x
    | None => panic PanicIndexOutOfRange
    end
  else panic PanicIndexOutOfRange.

Definition int_quo (a b : Z) : Go Z :=
  if b =? 0 then panic PanicDivideByZero else ret (int_wrap (Z.quot a b)).

Definition int_rem (a b : Z) : Go Z :=
  if b =? 0 then panic PanicDivideByZero else ret (Z.rem a b).

(** Logging. *)
Definition log_message (log_level message : string) : Go unit :=
  emit (EvLog log_level message).

Definition log_error (message : string) : Go unit :=
  log_message "error: " message.

Definition log_info (message : string) : Go unit :=
  log_message "info:  " message.

Definition log_debug (message : string) : Go unit :=
  (g <- get_vars ;;
   if debug_mode g then log_message "debug: " message else ret tt)%eff.

(** [flag.BoolVar(&debug_mode, "debug", value, usage)] and [flag.Parse()],
    the first two statements of [main] in both revisions. *)
Definition flag_BoolVar (value : bool) : Go unit :=
  set_vars (set_debug_mode value).

Definition flag_Parse : Go unit :=
  match command_line w with
  | Flags debug => set_vars (set_debug_mode debug)
  | AsksHelp usage => (emit (EvStderr usage) ;;; exit 0)%eff
  | BadFlag message usage =>
      (emit (EvStderr message) ;;; emit (EvStderr usage) ;;; exit 2)%eff
  end.

(** [set_environment_variables], the same text in both revisions.  A
    variable is assigned where the source assigns it; the process ends
    before a value that failed to convert could be read. *)
Definition set_environment_variables : Go unit :=
  ((match LookupEnv w "TIGERBEETLE_DIRECTORY" with
    | None =>
        log_error "Could not find TIGERBEETLE_DIRECTORY environmental variable" ;;;
        exit 1
    | Some dir =>
        set_vars (set_tigerbeetle_directory dir) ;;;
        if negb (String.eqb dir "") then
          (* Ensure there is no trailing slash *)
          let dir := TrimRight dir "/\" in
          set_vars (set_tigerbeetle_directory dir) ;;;
          log_debug ("tigerbeetle_directory set as " ++ dir)
        else
          log_error "TIGERBEETLE_DIRECTORY was empty" ;;;
          exit 1
    end) ;;;
   (match LookupEnv w "REPOSITORY_URL" with
    | None =>
        log_error "Could not find REPOSITORY_URL environmental variable" ;;;
        exit 1
    | Some url =>
        set_vars (set_repository_url url) ;;;
        if negb (String.eqb url "") then
          log_debug ("repository_url set as " ++ url)
        else
          log_error "REPOSITORY_URL was empty" ;;;
          exit 1
    end) ;;;
   (match LookupEnv w "NUM_VOPRS" with
    | None =>
        log_error "Could not find NUM_VOPRS environmental variable" ;;;
        exit 1
    | Some num_voprs_str =>
        if negb (String.eqb num_voprs_str "") then
          (* string to int *)
          match Atoi num_voprs_str with
          | inl err =>
              log_error "unable to convert num_voprs to a an integer value" ;;;
              panic (PanicNumError err)
          | inr n =>
              set_vars (set_num_voprs n) ;;;
              (if n <=? 0 then
                 log_error "NUM_VOPRS must be an integer greater than 0" ;;;
                 exit 1
               else ret tt) ;;;
              log_debug ("num_voprs set as " ++ itoa n)
          end
        else
          log_error "NUM_VOPRS was empty" ;;;
          exit 1
    end) ;;;
   (match LookupEnv w "CURRENT_VOPR" with
    | None =>
        log_error "Could not find CURRENT_VOPR environmental variable" ;;;
        exit 1
    | Some current_vopr_str =>
        if negb (String.eqb current_vopr_str "") then
          (* string to int *)
          match Atoi current_vopr_str with
          | inl err =>
              log_error "unable to convert current_vopr to a an integer value" ;;;
              panic (PanicNumError err)
          | inr n =>
              set_vars (set_current_vopr n) ;;;
              (if n <=? 0 then
                 log_error "CURRENT_VOPR must be an integer greater than 0" ;;;
                 exit 1
               else ret tt) ;;;
              log_debug ("current_vopr set as " ++ itoa n)
          end
        else
          log_error "CURRENT_VOPR was empty" ;;;
          exit 1
    end))%eff.

(** [checkout_branch]: Go's [error] result is [None] for [nil]. *)
Definition run_git_fetch (dir : string) : Go (option string) :=
  fun s =>
    let '(err, r) := git_fetch w dir (repo s) in
    (Ret err,
     {| vars := vars s;
        trace := trace s ++ [EvGit dir ["fetch"; "--all"]];
        repo := r |}).

Definition run_git_checkout (branch dir : string) : Go (option string) :=
  fun s =>
    let '(err, r) := git_checkout w branch dir (repo s) in
    (Ret err,
     {| vars := vars s;
        trace := trace s ++ [EvGit dir ["checkout"; branch]];
        repo := r |}).

Definition run_git_show_current (dir : string) : Go (string * option string) :=
  fun s =>
    (Ret (git_show_current w dir (repo s)),
     {| vars := vars s;
        trace := trace s ++ [EvGit dir ["branch"; "--show-current"]];
        repo := repo s |}).

Definition checkout_branch (branch tigerbeetle_directory : string)
  : Go (option string) :=
  (error <- run_git_fetch tigerbeetle_directory ;;
   match error with
   | Some e =>
       log_error ("Failed to run git fetch: " ++ e) ;;;
       ret (Some e)
   | None =>
       (* Checkout the branch *)
       error <- run_git_checkout branch tigerbeetle_directory ;;
       match error with
       | Some e =>
           log_error ("Failed to run git checkout: " ++ e) ;;;
           ret (Some e)
       | None =>
           (* Inspect the git logs. *)
           out <- run_git_show_current tigerbeetle_directory ;;
           match snd out with
           | Some e =>
               log_error ("Failed to run git log: " ++ e) ;;;
               ret (Some e)
           | None =>
               let current_branch := fst out in
               if negb (String.eqb current_branch branch) then
                 ret (Some "Checkout failed")
               else ret None
           end
       end
   end)%eff.

(** Fetching from the tracker. *)
Definition http_get (url : string) : Go Response :=
  (emit (EvHttpGet url) ;;; ret (http_Get w url))%eff.

(** The checks both fetching functions make on an answer, in the order of
    the source: error of the GET, status code, error of reading the body
    (whose message the status check wants to print), decoding. *)
Definition check_response {A} (res : Response) (decoded : string + A) : Go A :=
  (match get_error res with
   | Some e => log_error "unable to create get request" ;;; panic (PanicError e)
   | None =>
       (if StatusCode res >? 299 then
          log_error ("Response failed with status code: "
                     ++ itoa (StatusCode res) ++ " and body") ;;;
          match read_error res with
          | Some e => panic (PanicError e)
          | None => panic PanicNilDereference
          end
        else ret tt) ;;;
       match read_error res with
       | Some e =>
           log_error "unable to receive a response from GitHub" ;;;
           panic (PanicError e)
       | None =>
           match decoded with
           | inl e => log_error "unable to unmarshall json" ;;; panic (PanicError e)
           | inr v => ret v
           end
       end
   end)%eff.

(** [for j := 0; j < repeats; j++]: [count] iterations are left. *)
Fixpoint repeats_loop (count : nat) (vopr_commits : list string)
    (commit_index : Z) (vopr_assignments : list string) (i : Z)
  : Go (list string * Z) :=
  match count with
  | O => ret (vopr_assignments, i)
  | S count' =>
      (c <- index vopr_commits commit_index ;;
       repeats_loop count' vopr_commits commit_index
                    (vopr_assignments ++ [c])%list (int_add i 1))%eff
  end.

(** [for i < num_voprs]: one round per index into the list of
    branches or commits, the same loop in both revisions. *)
Fixpoint assign_loop (fuel : nat) (vopr_commits : list string)
    (repeats remainders i commit_index : Z)
    (vopr_assignments : list string) : Go (list string) :=
  (g <- get_vars ;;
   if i <? num_voprs g then
     match fuel with
     | O => stuck
     | S fuel' =>
         r <- repeats_loop (Z.to_nat repeats) vopr_commits commit_index
                           vopr_assignments i ;;
         let '(vopr_assignments, i) := r in
         r <- (if remainders >? 0 then
                 c <- index vopr_commits commit_index ;;
                 ret ((vopr_assignments ++ [c])%list, int_sub remainders 1, int_add i 1)
               else ret (vopr_assignments, remainders, i)) ;;
         let '(vopr_assignments, remainders, i) := r in
         assign_loop fuel' vopr_commits repeats remainders i
                     (int_add commit_index 1) vopr_assignments
     end
   else ret vopr_assignments)%eff.

(** [for i < num_voprs] of the branch without pull requests. *)
Definition fill_loop (commit : string) (num_voprs : Z) : list string :=
  List.repeat commit (Z.to_nat num_voprs).

Definition show_list (l : list string) : string :=
  "[" ++ String.concat " " l ++ "]".

(** The last statement of [main], the same in both revisions: check out
    the assignment of this VOPR into its directory.  The error that
    [checkout_branch] returns is dropped. *)
Definition checkout_assigned (vopr_assignments : list string) : Go unit :=
  (g <- get_vars ;;
   if (current_vopr g <=? len vopr_assignments) && (current_vopr g >=? 1) then
     branch <- index vopr_assignments (int_sub (current_vopr g) 1) ;;
     _ <- checkout_branch branch
            (tigerbeetle_directory g ++ itoa (current_vopr g)) ;;
     ret tt
   else ret tt)%eff.

End WithWorld.

End Organizer.

Import Organizer.

(** ** The commit-resolving revision of the organizer *)

Module Commits.

Section WithWorld.

Context {Repo : Type} (w : World Repo).

Local Abbreviation Go := (@Organizer.Go Repo).

Definition pulls_url (repository_url : string) (num_posts page_number : Z) : string :=
  repository_url ++ "/pulls?per_page=" ++ itoa num_posts
                 ++ "&page=" ++ itoa page_number.

Definition commits_url (repository_url branch_name : string) : string :=
  repository_url ++ "/commits?per_page=1&sha=" ++ branch_name.

Definition get_pull_requests (num_posts page_number : Z) : Go (list Issue) :=
  (g <- get_vars ;;
   res <- http_get w (pulls_url (repository_url g) num_posts page_number) ;;
   pull_requests <- check_response res (body_issues res) ;;
   emit (EvPrint ("Num PRs: " ++ itoa (len pull_requests))) ;;;
   ret pull_requests)%eff.

Definition get_commits (branch_name : string) : Go string :=
  (g <- get_vars ;;
   res <- http_get w (commits_url (repository_url g) branch_name) ;;
   commits <- check_response res (body_commits res) ;;
   match commits with
   | c :: _ => ret (Sha c)
   | [] => ret ""
   end)%eff.

(** The loop over the labels of one pull request: the first label named
    [vopr] decides, then [break]. *)
Fixpoint labels_loop (labels : list Label) (element : Issue)
    (vopr_commits : list string) : Go (list string) :=
  match labels with
  | [] => ret vopr_commits
  | label :: rest =>
      if String.eqb (Name label) "vopr" then
        (* Branches are returned in the format owner:branch_name. *)
        let '(_, branch_name, found) := Cut (HeadLabel (IssueHead element)) ":" in
        if found && negb (String.eqb branch_name "") then
          (commit <- get_commits branch_name ;;
           if negb (String.eqb commit "") then ret (vopr_commits ++ [commit])%list
           else ret vopr_commits)%eff
        else ret vopr_commits
      else labels_loop rest element vopr_commits
  end.

(** The loop over the pull requests of one page, left as soon as
    [num_voprs - 1] commits are collected. *)
Fixpoint elements_loop (pull_requests : list Issue)
    (vopr_commits : list string) : Go (list string) :=
  match pull_requests with
  | [] => ret vopr_commits
  | element :: rest =>
      (vopr_commits <- labels_loop (Labels element) element vopr_commits ;;
       g <- get_vars ;;
       if len vopr_commits =? int_sub (num_voprs g) 1 then ret vopr_commits
       else elements_loop rest vopr_commits)%eff
  end.

(** The loop over the pages, [i] counting from 1.  The source puts no bound
    on it; [fuel] bounds the number of pages the model fetches. *)
Fixpoint pages_loop (fuel : nat) (num_posts i : Z)
    (vopr_commits : list string) : Go (list string) :=
  (g <- get_vars ;;
   if len vopr_commits <? int_sub (num_voprs g) 1 then
     match fuel with
     | O => stuck
     | S fuel' =>
         (* Pull requests will be ordered newest to oldest by default. *)
         pull_requests <- get_pull_requests num_posts i ;;
         vopr_commits <- elements_loop pull_requests vopr_commits ;;
         (* Exit the loop if there are no more pages to be fetched. *)
         if len pull_requests <? num_posts then ret vopr_commits
         else pages_loop fuel' num_posts (int_add i 1) vopr_commits
     end
   else ret vopr_commits)%eff.

Definition get_commit_hashes (fuel : nat) : Go (list string) :=
  (* This is the GitHub API default. *)
  let num_posts := 30 in
  pages_loop fuel num_posts 1 [].

Definition get_vopr_assignments (fuel : nat) (vopr_commits : list string)
  : Go (list string) :=
  (g <- get_vars ;;
   let num_pull_requests := len vopr_commits in
   let vopr_assignments := [] in
   if num_pull_requests >? 0 then
     (* The first VOPR always runs main *)
     commit <- get_commits "main" ;;
     let vopr_assignments :=
       if negb (String.eqb commit "") then (vopr_assignments ++ [commit])%list
       else vopr_assignments in
     (* How many times each PR branch will be assigned to a VOPR. *)
     repeats <- int_quo (int_sub (num_voprs g) 1) num_pull_requests ;;
     (* How many branches will have an additional assignment. *)
     remainders <- int_rem (int_sub (num_voprs g) 1) num_pull_requests ;;
     assign_loop fuel vopr_commits repeats remainders 1 0 vopr_assignments
   else
     commit <- get_commits "main" ;;
     if negb (String.eqb commit "") then
       ret (vopr_assignments ++ fill_loop commit (num_voprs g))%list
     else ret vopr_assignments)%eff.

Definition main (fuel : nat) : Go unit :=
  ((* Determine the mode in which to run the VOPR Hub *)
   flag_BoolVar false ;;;
   flag_Parse w ;;;
   set_environment_variables w ;;;
   (* Commit hashes for up to NUM_VOPRS - 1 PR branches labelled vopr *)
   vopr_commits <- get_commit_hashes fuel ;;
   (* Assigns one commit for each VOPR to run on *)
   vopr_assignments <- get_vopr_assignments fuel vopr_commits ;;
   emit (EvPrint (show_list vopr_assignments)) ;;;
   checkout_assigned w vopr_assignments)%eff.

End WithWorld.

End Commits.

(** ** The branch-assigning revision of the organizer *)

Module Branches.

Section WithWorld.

Context {Repo : Type} (w : World Repo).

Local Abbreviation Go := (@Organizer.Go Repo).

Definition get_pull_requests : Go (list Issue) :=
  (g <- get_vars ;;
   res <- http_get w (repository_url g) ;;
   check_response res (body_issues res))%eff.

(** The loop over the labels of one pull request. *)
Fixpoint labels_loop (labels : list Label) (element : Issue)
    (vopr_branches : list string) : list string :=
  match labels with
  | [] => vopr_branches
  | label :: rest =>
      if String.eqb (Name label) "vopr" then
        (* Branches are returned in the format owner:branch_name. *)
        let '(_, branch_name, found) := Cut (HeadLabel (IssueHead element)) ":" in
        if found && negb (String.eqb branch_name "") then
          (vopr_branches ++ [branch_name])%list
        else vopr_branches
      else labels_loop rest element vopr_branches
  end.

Fixpoint elements_loop (num_voprs : Z) (pull_requests : list Issue)
    (vopr_branches : list string) : list string :=
  match pull_requests with
  | [] => vopr_branches
  | element :: rest =>
      let vopr_branches := labels_loop (Labels element) element vopr_branches in
      if len vopr_branches =? num_voprs then vopr_branches
      else elements_loop num_voprs rest vopr_branches
  end.

Definition get_branch_names (pull_requests : list Issue) : Go (list string) :=
  (g <- get_vars ;;
   ret (elements_loop (num_voprs g) pull_requests []))%eff.

Definition get_vopr_assignments (fuel : nat) (vopr_branches : list string)
  : Go (list string) :=
  (g <- get_vars ;;
   let num_pull_requests := len vopr_branches in
   let vopr_assignments := [] in
   if num_pull_requests >? 0 then
     (* The first VOPR always runs main *)
     let vopr_assignments := (vopr_assignments ++ ["main"])%list in
     (* How many times each PR branch will be assigned to a VOPR. *)
     repeats <- int_quo (int_sub (num_voprs g) 1) num_pull_requests ;;
     (* How many branches will have an additional assignment. *)
     remainders <- int_rem (int_sub (num_voprs g) 1) num_pull_requests ;;
     assign_loop fuel vopr_branches repeats remainders 1 0 vopr_assignments
   else
     ret (vopr_assignments ++ fill_loop "main" (num_voprs g))%list)%eff.

Definition main (fuel : nat) : Go unit :=
  ((* Determine the mode in which to run the VOPR Hub *)
   flag_BoolVar false ;;;
   flag_Parse w ;;;
   set_environment_variables w ;;;
   (* Pull requests will be ordered newest to oldest by default. *)
   pull_requests <- get_pull_requests ;;
   (* Gets the names of branches that have the vopr label *)
   vopr_branches <- get_branch_names pull_requests ;;
   vopr_assignments <- get_vopr_assignments fuel vopr_branches ;;
   emit (EvPrint (show_list vopr_assignments)) ;;;
   checkout_assigned w vopr_assignments)%eff.

End WithWorld.

End Branches.

(** ** The VOPR worker driver (Zig) *)

(** [run_simulator] and what it calls; [main] and [parse_flag] follow in
    [VoprMain].  Failures of allocation are left out.  [std.debug.print] is
    recorded by its format string, without the trailing newline. *)

Module Vopr.

(** [std.builtin.Mode]. *)
Inductive Mode : Type := Debug | ReleaseSafe | ReleaseFast | ReleaseSmall.

Definition Mode_eqb (a b : Mode) : bool :=
  match a, b with
  | Debug, Debug | ReleaseSafe, ReleaseSafe
  | ReleaseFast, ReleaseFast | ReleaseSmall, ReleaseSmall => true
  | _, _ => false
  end.

(** [const Bug = enum(u8)]. *)
Inductive Bug : Type := crash | liveness | correctness.

Definition enumToInt (b : Bug) : Z :=
  match b with crash => 127 | liveness => 128 | correctness => 129 end.

Definition Bug_eqb (a b : Bug) : bool := enumToInt a =? enumToInt b.

(** The Report struct: [bug : u8], [seed : u64], [commit : [20]u8]. *)
Record Report : Type := { bug : Z; seed : Z; commit : list Z }.

Record Address : Type := { ip4 : list Z; port : Z }.

Definition default_send_address : Address :=
  {| ip4 := [65; 21; 207; 251]; port := 5555 |}.

(** [std.ChildProcess.Term]. *)
Inductive Term : Type :=
| TermExited (code : Z)
| TermSignal (n : Z)
| TermStopped (n : Z)
| TermUnknown (n : Z).

Inductive event : Type :=
| EvPrint (format : string)           (* std.debug.print, its format string *)
| EvStderr (message : string)         (* what fatal prints *)
| EvSpawn (argv : list string)        (* spawnAndWait of the simulator *)
| EvGitLog                            (* ChildProcess.exec of git log -1 *)
| EvConnect (address : Address)       (* net.tcpConnectToAddress *)
| EvWrite (bytes : list Z)            (* writer.writeAll *)
| EvRead.                             (* reader.readAll *)

(** Panics of a safety-checked build. *)
Inductive panic_value : Type :=
| PanicMessage (message : string)     (* @panic *)
| PanicUnreachable                    (* unreachable, a failed assert *)
| PanicNull                           (* .? on null *)
| PanicOutOfBounds.                   (* slice or copy out of bounds *)

(** The outside world of one worker: the child processes (by argv), the
    output of [git log -1], and the connection to the hub.  [None] stands
    for the error of the call. *)
Record World : Type := {
  child_init : list string -> bool;
  spawnAndWait : list string -> option Term;
  git_log_stdout : option string;
  tcpConnectToAddress : Address -> bool;
  writeAll : list Z -> bool;
  readAll : option nat
}.

(** The bytes of a [u64], held as a [Z]. *)
Definition byte_at (x : Z) (i : nat) : Z :=
  Z.land (Z.shiftr x (8 * Z.of_nat i)) 255.

(** The bytes of a [u64] in memory order on a little-endian host. *)
Definition bitCast (x : Z) : list Z := map (byte_at x) (seq 0 8).

Definition of_bytes_le (l : list Z) : Z :=
  fold_right (fun b acc => Z.lor b (Z.shiftl acc 8)) 0 l.

(** [@byteSwap(u64, x)]. *)
Definition byteSwap (x : Z) : Z := of_bytes_le (rev (bitCast x)).

(** [std.fmt.charToDigit c 16] and [std.fmt.hexToBytes]. *)
Definition charToDigit (c : ascii) : option Z :=
  let n := Z.of_N (N_of_ascii c) in
  let v :=
    if (48 <=? n) && (n <=? 57) then Some (n - 48)
    else if (65 <=? n) && (n <=? 90) then Some (n - 65 + 10)
    else if (97 <=? n) && (n <=? 122) then Some (n - 97 + 10)
    else None in
  match v with
  | Some d => if d <? 16 then Some d else None
  | None => None
  end.

Fixpoint hexToBytes (input : string) : option (list Z) :=
  match input with
  | EmptyString => Some []
  | String _ EmptyString => None
  | String hi (String lo rest) =>
      match charToDigit hi, charToDigit lo, hexToBytes rest with
      | Some h, Some l, Some bytes => Some (Z.lor (Z.shiftl h 4) l :: bytes)
      | _, _, _ => None
      end
  end.

Section WithWorld.

Variable w : World.

Definition Zig (A : Type) : Type := M (list event) panic_value A.

Definition emit (e : event) : Zig unit := fun s => (Ret tt, (s ++ [e])%list).

Definition print (format : string) : Zig unit := emit (EvPrint format).

(** [std.debug.assert] and [.?]. *)
Definition assert (ok : bool) : Zig unit :=
  if ok then ret tt else panic PanicUnreachable.

Definition unwrap {A} (o : option A) : Zig A :=
  match o with Some a => ret a | None => panic PanicNull end.

(** Print the message to stderr, then exit with an exit code of 1. *)
Definition fatal {A} (fmt_string : string) : Zig A :=
  (emit (EvStderr ("error: " ++ fmt_string)) ;;; exit 1)%eff.

(** [mem.copy] into [dest] from [offset] on. *)
Definition mem_copy (dest : list Z) (offset : nat) (source : list Z)
  : Zig (list Z) :=
  if (offset + List.length source <=? List.length dest)%nat then
    ret (firstn offset dest ++ source
           ++ skipn (offset + List.length source) dest)%list
  else panic PanicOutOfBounds.

(** [array[a..b]] of a string. *)
Definition slice (s : string) (a b : nat) : Zig string :=
  if (b <=? String.length s)%nat then ret (substring a (b - a) s)
  else panic PanicOutOfBounds.

Definition create_report (bug : Bug) (seed : Z) : Zig Report :=
  (print "Collecting VOPR bug and seed, and the current git commit hash." ;;;
   (* Setting the bug type.  The source then asserts that it is not
      undefined; every case of the switch sets it. *)
   let bug_type :=
     match bug with correctness => 1 | liveness => 2 | crash => 3 end in
   (* Running git log to extract the current git commit hash. *)
   emit EvGitLog ;;;
   match git_log_stdout w with
   | None => fatal "unable to extract TigerBeetle's git commit hash. Error: {}"
   | Some git_log =>
       _ <- slice git_log 7 47 ;;
       print "git commit that was retrieved: {s}" ;;;
       commit_string <- slice git_log 7 47 ;;
       match hexToBytes commit_string with
       | None => fatal "unable to cast the git commit hash to hex. Error: {}"
       | Some commit_byte_array =>
           ret {| bug := bug_type; seed := seed; commit := commit_byte_array |}
       end
   end)%eff.

Definition send_report (address : Address) (bug : Bug) (seed : Z) : Zig unit :=
  (message <- create_report bug seed ;;
   (* [29]u8, undefined: 0xaa in a safety-checked build *)
   let byte_array := List.repeat 170 29 in
   (* Bug type *)
   assert ((Vopr.bug message =? 1) || (Vopr.bug message =? 2)
           || (Vopr.bug message =? 3)) ;;;
   (* Seed: stored little endian, the hub expects big endian. *)
   let seed_integer_value := Vopr.seed message in
   let seed_integer_value := byteSwap seed_integer_value in
   let seed_byte_array := bitCast seed_integer_value in
   byte_array <- mem_copy byte_array 0 [Vopr.bug message] ;;
   let offset := 1%nat in
   byte_array <- mem_copy byte_array offset seed_byte_array ;;
   let offset := (offset + List.length seed_byte_array)%nat in
   byte_array <- mem_copy byte_array offset (commit message) ;;
   (* Send message *)
   emit (EvConnect address) ;;;
   (if tcpConnectToAddress w address then ret tt
    else fatal "unable to create a connection to the VOPR Hub. Error: {}") ;;;
   print "Connected to VOPR Hub." ;;;
   emit (EvWrite byte_array) ;;;
   (if writeAll w byte_array then ret tt
    else fatal "unable to send the report to the VOPR Hub. Error: {}") ;;;
   (* Receive reply *)
   emit EvRead ;;;
   match readAll w with
   | None => fatal "unable to read a reply from the VOPR Hub. Error: {}"
   | Some bytes_read =>
       if (0 <? bytes_read)%nat then
         print "Confirmation received from VOPR Hub: {s}."
       else print "No reply received from VOPR Hub."
   end)%eff.

(** Runs the simulator as a child process; terminates the VOPR if the
    simulator fails to run or exits without an exit code. *)
Definition run_child_process (argv : list string) : Zig Z :=
  ((if child_init w argv then ret tt
    else fatal "unable to initialize simulator as a child process. Error: {}") ;;;
   emit (EvSpawn argv) ;;;
   match spawnAndWait w argv with
   | None => fatal "unable to run the simulator as a child process. Error: {}"
   | Some (TermExited code) =>
       print "exit with code: {}" ;;;
       ret code
   | Some _ => fatal "the simulator exited without an exit code. Term: {}"
   end)%eff.

Definition formatInt (seed : Z) : string :=
  NilZero.string_of_int (Z.to_int seed).

Definition simulator_argv (mode_str : string) (seed : Z) : list string :=
  ["zig/zig"; "run"; mode_str; "./src/simulator.zig"; "--"; formatInt seed].

(** [run_simulator] calls itself once, in Debug mode; [fuel] bounds the
    depth of the calls. *)
Fixpoint run_simulator (fuel : nat) (seed : Z) (mode : Mode)
    (send_address : option Address) : Zig (option Bug) :=
  match fuel with
  | O => stuck
  | S fuel' =>
      (mode_str <- match mode with
                   | Debug => ret "-ODebug"
                   | ReleaseSafe => ret "-OReleaseSafe"
                   | _ => panic PanicUnreachable
                   end ;;
       exit_code <- run_child_process (simulator_argv mode_str seed) ;;
       result <- (if exit_code =? 0 then ret None
                  else if exit_code =? 127 then ret (Some crash)
                  else if exit_code =? 128 then ret (Some liveness)
                  else if exit_code =? 129 then ret (Some correctness)
                  else
                    print "unexpected simulator exit code: {}" ;;;
                    panic (PanicMessage "unexpected simulator exit code.")) ;;
       match result with
       | Some bug =>
           if Mode_eqb mode ReleaseSafe then
             print "simulator exited with exit code {}." ;;;
             print "rerunning seed {} in Debug mode." ;;;
             rerun <- run_simulator fuel' seed Debug send_address ;;
             bug' <- unwrap rerun ;;
             assert (Bug_eqb bug bug')
           else
             match send_address with
             | Some hub_address => send_report hub_address bug seed
             | None => ret tt
             end
       | None => ret tt
       end ;;;
       ret result)%eff
  end.

End WithWorld.

End Vopr.

(** ** The worker driver: the command line and [main] *)

(** [parse_flag] and [main].  [parse_args] is a parameter of [main]: it
    reads the command line through [simulator.parse_seed] and
    [vsr.parse_address], which are other files of the repository, and it
    compares [build_mode] with [undefined]; [main] is embedded for whatever
    [parse_args] does and returns. *)

Module VoprMain.
Import Vopr.

Record Flags : Type := {
  seed : option Z;
  send_address : option Address;  (* null: the send flag is not set *)
  build_mode : Mode;
  simulations : Z
}.

(** [s[from..]] of a string. *)
Definition slice_from (s : string) (from : nat) : Zig string :=
  if (from <=? String.length s)%nat
  then ret (substring from (String.length s - from) s)
  else panic PanicOutOfBounds.

(** [s[i]] of a string. *)
Definition at_index (s : string) (i : nat) : Zig ascii :=
  match String.get i s with
  | Some c => ret c
  | None => panic PanicOutOfBounds
  end.

(** Parse e.g. [--seed=123] into [123] with error handling. *)
Definition parse_flag (flag arg : string) : Zig string :=
  (value <- slice_from arg (String.length flag) ;;
   (if (String.length value <? 2)%nat
    then fatal "{s} argument requires a value"
    else ret tt) ;;;
   c <- at_index value 0 ;;
   (if negb (Ascii.eqb c "=")
    then fatal "expected '=' after {s} but found '{c}'"
    else ret tt) ;;;
   slice_from value 1)%eff.

Section WithWorld.

Variable w : World.

(** What [parse_args] does and returns: the flags, or the name of an
    error. *)
Variable parse_args : Zig (string + Flags).

(** The values that [std.crypto.random.int(u64)] returns, in the order of
    the calls. *)
Variable random_int : nat -> Z.

(** [while (i < args.simulations) : (i += 1)]: one seed is drawn in each
    round, so the round [i] draws the [i]-th value; [i] stays below
    [simulations], a [u32].  [depth] bounds the calls of [run_simulator]
    and [fuel] the rounds. *)
Fixpoint simulations_loop (depth fuel : nat) (args : Flags) (i : Z) : Zig unit :=
  if i <? simulations args then
    match fuel with
    | O => stuck
    | S fuel' =>
        (let seed_random := random_int (Z.to_nat i) in
         exit_code <- run_simulator w depth seed_random ReleaseSafe
                        (send_address args) ;;
         match exit_code with
         | Some _ => ret tt (* If a seed fails exit the loop. *)
         | None => simulations_loop depth fuel' args (i + 1)
         end)%eff
    end
  else ret tt.

Definition main (depth fuel : nat) : Zig unit :=
  (parsed <- parse_args ;;
   match parsed with
   | inl err => fatal "unable to parse the VOPR's arguments: {}"
   | inr args =>
       (* If a seed is provided then replay the seed, otherwise test seeds *)
       match seed args with
       | Some seed =>
           if negb (Mode_eqb (build_mode args) Debug) then
             print "Replaying seed {} in ReleaseSafe mode..." ;;;
             _ <- run_simulator w depth seed ReleaseSafe (send_address args) ;;
             ret tt
           else
             print "Replaying seed {} in Debug mode with full debug logging enabled..." ;;;
             _ <- run_simulator w depth seed Debug (send_address args) ;;
             ret tt
       | None =>
           if Mode_eqb (build_mode args) Debug then
             fatal "no seed provided: the VOPR must be run with --mode=ReleaseSafe"
           else
             (* Run the simulator with randomly generated seeds. *)
             simulations_loop depth fuel args 0
       end
   end)%eff.

End WithWorld.

End VoprMain.

(** * Specification-side definitions *)

Local Open Scope list_scope.

(** ** The worker driver *)

Module VoprSpec.
Import Vopr.

(** The exit dispositions, in the words of the specification. *)
Inductive disposition : Type :=
| UnexpectedPass
| Found (b : Bug)
| FatalExecutorError.

Definition exit_disposition (code : Z) : disposition :=
  if code =? 0 then UnexpectedPass
  else if code =? 127 then Found crash
  else if code =? 128 then Found liveness
  else if code =? 129 then Found correctness
  else FatalExecutorError.

(** The command line of the simulator for a fast or a diagnostic run. *)
Definition argv_of (mode : Mode) (seed : Z) : list string :=
  simulator_argv
    (match mode with Debug => "-ODebug" | _ => "-OReleaseSafe" end) seed.

(** The child process of [mode] and [seed] starts and exits with [code]. *)
Definition child_exits (w : World) (mode : Mode) (seed code : Z) : Prop :=
  child_init w (argv_of mode seed) = true /\
  spawnAndWait w (argv_of mode seed) = Some (TermExited code).

(** Events of building and sending a report. *)
Definition is_report_event (e : event) : bool :=
  match e with
  | EvGitLog | EvConnect _ | EvWrite _ | EvRead => true
  | _ => false
  end.

(** The messages handed to the connection, in order. *)
Definition writes (t : list event) : list (list Z) :=
  flat_map (fun e => match e with EvWrite m => [m] | _ => [] end) t.

(** The process ends by a panic or through [fatal]. *)
Definition terminates_fatally {P A} (out : result P A) : Prop :=
  (exists p, out = Panicked p) \/ out = Exited 1.

(** The events of a fast run that found a bug, up to the diagnostic rerun. *)
Definition rerun_prefix (seed : Z) : list event :=
  [EvSpawn (argv_of ReleaseSafe seed); EvPrint "exit with code: {}";
   EvPrint "simulator exited with exit code {}.";
   EvPrint "rerunning seed {} in Debug mode."].

(** The events of building a report and of opening the connection to the
    hub. *)
Definition report_built (hub : Address) : list event :=
  [EvPrint "Collecting VOPR bug and seed, and the current git commit hash.";
   EvGitLog; EvPrint "git commit that was retrieved: {s}"; EvConnect hub].

(** The wire code of a bug and the big-endian bytes of a 64-bit seed, in the
    words of the specification. *)
Definition bug_code (b : Bug) : Z :=
  match b with correctness => 1 | liveness => 2 | crash => 3 end.

Definition be_bytes (x : Z) : list Z :=
  map (fun i => (x / 256 ^ (7 - Z.of_nat i)) mod 256) (seq 0 8).

Definition is_byte (c : Z) : Prop := 0 <= c < 256.

(** The bytes [send_report] hands to [writeAll] for a report. *)
Definition payload (m : Report) : list Z :=
  bug m :: bitCast (byteSwap (seed m)) ++ commit m.

(** [message] is the payload of a report of bug [b] and [seed] at the commit
    that [git log -1] shows in the worker's checkout. *)
Definition report_payload (w : World) (b : Bug) (seed : Z) (message : list Z)
  : Prop :=
  exists git_log commit,
    git_log_stdout w = Some git_log /\
    hexToBytes (substring 7 40 git_log) = Some commit /\
    List.length commit = 20%nat /\
    message = bug_code b :: be_bytes seed ++ commit.

(** The send fails: at the connection, at the write, or at reading the
    reply. *)
Definition send_fails (w : World) (hub : Address) (m : Report) : Prop :=
  tcpConnectToAddress w hub = false \/
  writeAll w (payload m) = false \/
  readAll w = None.

(** A worker whose checkout is at commit 0a0b...1d, whose simulator exits
    with [code_safe] in fast mode and [code_debug] in diagnostic mode, and
    whose hub accepts connections or not. *)
Definition sample_world (code_safe code_debug : Z) (connect : bool) : World :=
  {| child_init := fun _ => true;
     spawnAndWait := fun argv =>
       if String.eqb (nth 2 argv "") "-ODebug"
       then Some (TermExited code_debug) else Some (TermExited code_safe);
     git_log_stdout := Some "commit 0a0b0c0d0e0f101112131415161718191a1b1c1d";
     tcpConnectToAddress := fun _ => connect;
     writeAll := fun _ => true;
     readAll := Some 1%nat |}.

Definition sample_seed : Z := 81985529216486895. (* 0x0123456789ABCDEF *)

Definition sample_report : Report :=
  {| bug := 1; seed := sample_seed;
     commit := [10; 11; 12; 13; 14; 15; 16; 17; 18; 19; 20; 21; 22; 23; 24;
                25; 26; 27; 28; 29] |}.

End VoprSpec.

(** ** The worker driver: the command line and [main] *)

Module VoprMainSpec.
Import Vopr VoprSpec VoprMain.

(** The command lines of the simulators that were started, in order. *)
Definition spawns (t : list event) : list (list string) :=
  flat_map (fun e => match e with EvSpawn argv => [argv] | _ => [] end) t.

(** The child process of [mode] and [seed] does not end with an exit code:
    it cannot be set up, it cannot be started, or it is ended from
    outside. *)
Definition child_fails (w : World) (mode : Mode) (seed : Z) : Prop :=
  child_init w (argv_of mode seed) = false \/
  spawnAndWait w (argv_of mode seed) = None \/
  exists term, spawnAndWait w (argv_of mode seed) = Some term /\
               forall code, term <> TermExited code.

(** The events of fast runs that pass, one after the other. *)
Definition quiet_runs (seeds : list Z) : list event :=
  flat_map (fun seed => [EvSpawn (argv_of ReleaseSafe seed);
                         EvPrint "exit with code: {}"]) seeds.

(** What [main] makes of the outcome of the run that ends its loop. *)
Definition dropped {P A} (out : result P A) : result P unit :=
  match out with
  | Ret _ => Ret tt
  | Exited code => Exited code
  | Panicked p => Panicked p
  | Stuck => Stuck
  end.

(** A commit id as git prints it: two lower-case hex digits for a byte. *)
Definition hex_digit (d : Z) : ascii :=
  nth (Z.to_nat d) (list_ascii_of_string "0123456789abcdef") "0"%char.

Fixpoint hex_of_bytes (l : list Z) : string :=
  match l with
  | [] => ""
  | b :: rest =>
      String (hex_digit (b / 16)) (String (hex_digit (b mod 16)) (hex_of_bytes rest))
  end.

(** Nothing of [post] reads the git log or talks to the hub. *)
Definition quiet (post : list event) : Prop :=
  forallb (fun e => negb (is_report_event e)) post = true.

(** The connections that were opened, in order. *)
Definition connects (t : list event) : list Address :=
  flat_map (fun e => match e with EvConnect a => [a] | _ => [] end) t.

(** [git log -1] gives no commit id to report: it fails, its output is
    shorter than the 47 bytes of [commit ] and 40 digits, or bytes 7 to 46
    are not 40 hex digits. *)
Definition no_commit_id (w : World) : Prop :=
  match git_log_stdout w with
  | None => True
  | Some git_log =>
      (String.length git_log < 47)%nat \/
      hexToBytes (substring 7 40 git_log) = None
  end.

(** A worker outside a git checkout whose simulator is ended by signal 6. *)
Definition killed_world : World :=
  {| child_init := fun _ => true;
     spawnAndWait := fun _ => Some (TermSignal 6);
     git_log_stdout := None;
     tcpConnectToAddress := fun _ => true;
     writeAll := fun _ => true;
     readAll := Some 1%nat |}.

(** A worker whose simulator passes seed 7 and exits with 129 on every
    other seed, in either mode. *)
Definition flaky_world : World :=
  {| child_init := fun _ => true;
     spawnAndWait := fun argv =>
       if String.eqb (nth 5 argv "") "7"
       then Some (TermExited 0) else Some (TermExited 129);
     git_log_stdout := Some "commit 0a0b0c0d0e0f101112131415161718191a1b1c1d";
     tcpConnectToAddress := fun _ => true;
     writeAll := fun _ => true;
     readAll := Some 1%nat |}.

(** A command line without options, and the seeds 7 and then
    0x0123456789ABCDEF. *)
Definition sample_flags : Flags :=
  {| seed := None; send_address := None; build_mode := ReleaseSafe;
     simulations := 1000 |}.

Definition sample_parse_args : Zig (string + Flags) := ret (inr sample_flags).

Definition sample_random (n : nat) : Z :=
  match n with
  | O => 7
  | S _ => sample_seed
  end.

End VoprMainSpec.

(** ** The organizer *)

Module OrganizerSpec.

(** What can be wrong with a variable of the environment. *)
Inductive problem : Type :=
| Missing
| Empty
| NotInteger (e : NumError)
| NotPositive.

Section WithWorld.

Context {Repo : Type} (w : World Repo).

Definition text_problem (name : string) : option problem :=
  match LookupEnv w name with
  | None => Some Missing
  | Some v => if String.eqb v "" then Some Empty else None
  end.

Definition count_problem (name : string) : option problem :=
  match LookupEnv w name with
  | None => Some Missing
  | Some v =>
      if String.eqb v "" then Some Empty
      else match Atoi v with
           | inl e => Some (NotInteger e)
           | inr n => if n <=? 0 then Some NotPositive else None
           end
  end.

(** The first variable, in the order of the source, that is not usable. *)
Definition first_problem : option (string * problem) :=
  match text_problem "TIGERBEETLE_DIRECTORY" with
  | Some p => Some ("TIGERBEETLE_DIRECTORY", p)
  | None =>
  match text_problem "REPOSITORY_URL" with
  | Some p => Some ("REPOSITORY_URL", p)
  | None =>
  match count_problem "NUM_VOPRS" with
  | Some p => Some ("NUM_VOPRS", p)
  | None =>
  match count_problem "CURRENT_VOPR" with
  | Some p => Some ("CURRENT_VOPR", p)
  | None => None
  end end end end.

End WithWorld.

Definition lower_name (name : string) : string :=
  if String.eqb name "NUM_VOPRS" then "num_voprs" else "current_vopr".

(** The error line logged for a problem. *)
Definition error_line (name : string) (p : problem) : event :=
  EvLog "error: "
    (match p with
     | Missing => "Could not find " ++ name ++ " environmental variable"
     | Empty => name ++ " was empty"
     | NotInteger _ =>
         "unable to convert " ++ lower_name name ++ " to a an integer value"
     | NotPositive => name ++ " must be an integer greater than 0"
     end)%string.

(** How the process ends on a problem. *)
Definition problem_outcome (p : problem) : result panic_value unit :=
  match p with
  | NotInteger e => Panicked (PanicNumError e)
  | _ => Exited 1
  end.

(** The git commands among the events. *)
Definition is_git (e : event) : bool :=
  match e with EvGit _ _ => true | _ => false end.

Definition git_events (t : list event) : list event := filter is_git t.

(** Only events were added, none of them a git command. *)
Definition same_outside {Repo} (s s' : state Repo) : Prop :=
  vars s' = vars s /\ repo s' = repo s /\
  git_events (trace s') = git_events (trace s).

(** No git command was run and the repositories are as they were. *)
Definition untouched {Repo} (s s' : state Repo) : Prop :=
  repo s' = repo s /\ git_events (trace s') = git_events (trace s).

(** How a request to the tracker can end: with an answer, or with the
    panic of an error or of a nil error. *)
Definition tracker_outcome {A} (out : result panic_value A) : Prop :=
  match out with
  | Ret _ | Panicked (PanicError _) | Panicked PanicNilDereference => True
  | _ => False
  end.

(** How the loops of [get_vopr_assignments] can end: with a value, with an
    index out of range, or out of fuel. *)
Definition loop_outcome {A} (out : result panic_value A) : Prop :=
  match out with
  | Ret _ | Panicked PanicIndexOutOfRange | Stuck => True
  | _ => False
  end.

(** The three commands of a checkout, in order. *)
Definition checkout_commands (branch dir : string) : list event :=
  [EvGit dir ["fetch"; "--all"]; EvGit dir ["checkout"; branch];
   EvGit dir ["branch"; "--show-current"]].

(** [repeats] slots for every commit, in list order, and one more for each
    of the first [remainders] commits. *)
Fixpoint distribute (commits : list string) (repeats remainders : nat)
  : list string :=
  match commits with
  | [] => []
  | c :: rest =>
      repeat c repeats
        ++ match remainders with O => [] | S _ => [c] end
        ++ distribute rest repeats (pred remainders)
  end.

(** Round-robin in the words of the specification: slot [i] gets commit
    [i mod k]. *)
Definition round_robin (commits : list string) (slots : nat) : list string :=
  map (fun i => nth (i mod List.length commits) commits ""%string) (seq 0 slots).

(** *** Enumerating revisions, in the words of the specification *)

Section Tracker.

Context {Repo : Type} (w : World Repo) (base : string).

Definition healthy (res : Response) : Prop :=
  get_error res = None /\ StatusCode res <= 299 /\ read_error res = None.

(** The tracker answers every request for a page of pull requests and
    for the commits of a branch. *)
Definition tracker_answers : Prop :=
  (forall i, healthy (http_Get w (Commits.pulls_url base 30 i)) /\
             exists prs,
               body_issues (http_Get w (Commits.pulls_url base 30 i)) = inr prs) /\
  (forall b, healthy (http_Get w (Commits.commits_url base b)) /\
             exists cs,
               body_commits (http_Get w (Commits.commits_url base b)) = inr cs).

(** Page [i] of the open change requests. *)
Definition page (i : Z) : list Issue :=
  match body_issues (http_Get w (Commits.pulls_url base 30 i)) with
  | inr prs => prs
  | inl _ => []
  end.

(** The commit id at the head of a branch, empty when there is none. *)
Definition head_commit (branch : string) : string :=
  match body_commits (http_Get w (Commits.commits_url base branch)) with
  | inr (c :: _) => Sha c
  | _ => ""%string
  end.

Definition has_vopr_label (labels : list Label) : bool :=
  existsb (fun l => String.eqb (Name l) "vopr") labels.

(** The branch of a head label [owner:branch_name]. *)
Definition head_branch (e : Issue) : option string :=
  let '(_, branch_name, found) := Cut (HeadLabel (IssueHead e)) ":" in
  if found && negb (String.eqb branch_name "") then Some branch_name else None.

(** What a change request with these labels contributes: the commit at
    the head of its branch, when it carries the label. *)
Definition resolved_with (labels : list Label) (e : Issue) : list string :=
  if has_vopr_label labels then
    match head_branch e with
    | Some b =>
        if String.eqb (head_commit b) "" then [] else [head_commit b]
    | None => []
    end
  else [].

Definition resolved (e : Issue) : list string := resolved_with (Labels e) e.

(** Pages 1 to [p], and what they contribute. *)
Definition pages_upto (p : nat) : list Issue :=
  flat_map (fun i => page (Z.of_nat i)) (seq 1 p).

Definition collected (p : nat) : list string :=
  flat_map resolved (pages_upto p).

(** After page [p] the requested count is reached, or the page was not
    full. *)
Definition stops_at (want : Z) (p : nat) : Prop :=
  want <= len (collected p) \/ len (page (Z.of_nat p)) < 30.

(** The requests for pages among the events. *)
Definition page_requests (t : list event) : list string :=
  flat_map (fun e => match e with
                     | EvHttpGet url =>
                         if prefix (base ++ "/pulls") url then [url] else []
                     | _ => []
                     end) t.

End Tracker.

(** *** A sample deployment *)

(** An environment, a command line without flags and a small git.  The
    state of a working directory is the name that is checked out: one of
    the branches, or one of the commits when HEAD is detached. *)
Definition sample_url : string :=
  "https://api.github.com/repos/coilhq/tigerbeetle".

Definition sample_env (num_voprs current_vopr : string) (name : string)
  : option string :=
  if String.eqb name "TIGERBEETLE_DIRECTORY"
  then Some "/home/voprrunner/tigerbeetle/"%string
  else if String.eqb name "REPOSITORY_URL" then Some sample_url
  else if String.eqb name "NUM_VOPRS" then Some num_voprs
  else if String.eqb name "CURRENT_VOPR" then Some current_vopr
  else None.

Definition answer (prs : list Issue) (cs : list Commit) : Response :=
  {| get_error := None; StatusCode := 200; read_error := None;
     body_issues := inr prs; body_commits := inr cs |}.

Definition pull_request (label head : string) : Issue :=
  {| Labels := [ {| Name := "bug" |}; {| Name := label |} ];
     IssueHead := {| HeadLabel := head |} |}.

Definition sha_a : string := "aaaaaaaaaaaaaaaaaaaaaaaaaaaaaaaaaaaaaaaa".
Definition sha_b : string := "bbbbbbbbbbbbbbbbbbbbbbbbbbbbbbbbbbbbbbbb".
Definition sha_main : string := "0a0b0c0d0e0f101112131415161718191a1b1c1d".

(** A tracker with one page of three open pull requests, two of them
    labelled [vopr]; [main_sha] is what it knows as the head of main. *)
Definition sample_tracker (main_sha : list Commit) (url : string) : Response :=
  if String.eqb url (Commits.pulls_url sample_url 30 1)
  then answer [pull_request "vopr" "coilhq:fix-a";
               pull_request "docs" "coilhq:notes";
               pull_request "vopr" "coilhq:fix-b"] []
  else if String.eqb url (Commits.commits_url sample_url "main")
  then answer [] main_sha
  else if String.eqb url (Commits.commits_url sample_url "fix-a")
  then answer [] [ {| Sha := sha_a |} ]
  else if String.eqb url (Commits.commits_url sample_url "fix-b")
  then answer [] [ {| Sha := sha_b |} ]
  else answer [] [].

Definition main_sha : list Commit := [ {| Sha := sha_main |} ].

Definition sample_branches : list string := ["main"; "fix-a"; "fix-b"].
Definition sample_commits : list string := [sha_main; sha_a; sha_b].

Definition known (name : string) (names : list string) : bool :=
  existsb (String.eqb name) names.

(** The end of a line of output. *)
Definition newline : string := String "010"%char EmptyString.

(** [git checkout] succeeds for the branches and commits of the repository.
    [git branch --show-current] prints the name of the current branch as a
    line, and nothing when HEAD is detached at a commit. *)
Definition sample_world (num_voprs current_vopr : string)
    (tracker : string -> Response) : World string :=
  {| LookupEnv := sample_env num_voprs current_vopr;
     command_line := Flags false;
     http_Get := tracker;
     git_fetch := fun _ r => (None, r);
     git_checkout := fun name _ r =>
       if known name (sample_branches ++ sample_commits) then (None, name)
       else (Some "exit status 1", r);
     git_show_current := fun _ r =>
       (if known r sample_branches then (r ++ newline)%string else ""%string, None) |}.

(** The state after a start with [n] VOPRs, this one being VOPR [c]. *)
Definition started (n c : Z) : state string :=
  {| vars := {| debug_mode := false;
                tigerbeetle_directory := "/home/voprrunner/tigerbeetle";
                repository_url := sample_url;
                num_voprs := n; current_vopr := c |};
     trace := []; repo := "main"%string |}.

End OrganizerSpec.

(** ** The organizer: runs and what they collect *)

Module OrganizerRunSpec.
Import Organizer OrganizerSpec.

(** The URLs requested from the tracker, in order. *)
Definition http_requests (t : list event) : list string :=
  flat_map (fun e => match e with EvHttpGet url => [url] | _ => [] end) t.

(** What a pull request contributes to the branches: the branch of its head
    label, when it carries the label. *)
Definition labelled_branch (e : Issue) : list string :=
  if has_vopr_label (Labels e) then
    match head_branch e with
    | Some b => [b]
    | None => []
    end
  else [].

(** The assignments of [n] VOPRs: [main] for every VOPR when nothing was
    collected, and otherwise [main] and then the collected names, each on
    [(n - 1) / k] consecutive slots and the first [(n - 1) mod k] of them on
    one more. *)
Definition assignments_of (main : string) (n : Z) (vc : list string)
  : list string :=
  match vc with
  | [] => repeat main (Z.to_nat n)
  | _ => main :: distribute vc (Z.to_nat ((n - 1) / len vc))
                               (Z.to_nat ((n - 1) mod len vc))
  end.

(** Every character of [s] is one of [cutset]; the last character of [s] is
    one of [cutset]. *)
Fixpoint only_from (cutset s : string) : bool :=
  match s with
  | EmptyString => true
  | String c rest => in_cutset c cutset && only_from cutset rest
  end.

Fixpoint ends_in (cutset s : string) : bool :=
  match s with
  | EmptyString => false
  | String c EmptyString => in_cutset c cutset
  | String _ rest => ends_in cutset rest
  end.

(** The lines that a start in debug mode logs. *)
Definition debug_lines (g : globals) : list event :=
  [EvLog "debug: " ("tigerbeetle_directory set as " ++ tigerbeetle_directory g)%string;
   EvLog "debug: " ("repository_url set as " ++ repository_url g)%string;
   EvLog "debug: " ("num_voprs set as " ++ itoa (num_voprs g))%string;
   EvLog "debug: " ("current_vopr set as " ++ itoa (current_vopr g))%string].

(** The state in which [main] reads the environment: the command line is
    parsed, [-debug] has the value [debug]. *)
Definition flag_parsed {Repo} (debug : bool) (s : state Repo) : state Repo :=
  {| vars := set_debug_mode debug (vars s);
     trace := trace s; repo := repo s |}.

(** One request for [url], answered by [res]: the call returns what a
    healthy answer decodes to, after the events [printed]; on any other
    answer it logs one error line and panics. *)
Definition one_request {Repo A B} (w : World Repo) (url : string)
    (decoded : Response -> string + A) (value : A -> B)
    (printed : A -> list event)
    (s : state Repo) (out : result panic_value B) (s' : state Repo) : Prop :=
  let res := http_Get w url in
  http_requests (trace s') = http_requests (trace s) ++ [url] /\
  vars s' = vars s /\ repo s' = repo s /\
  match out with
  | Ret v =>
      healthy res /\
      exists a, decoded res = inr a /\ v = value a /\
                trace s' = trace s ++ EvHttpGet url :: printed a
  | Panicked p =>
      ~ (healthy res /\ exists a, decoded res = inr a) /\
      (p = PanicNilDereference <->
       get_error res = None /\ StatusCode res > 299 /\ read_error res = None) /\
      exists message,
        trace s' = trace s ++ [EvHttpGet url; EvLog "error: " message]
  | _ => False
  end.

(** No name of the list is empty. *)
Definition named (l : list string) : Prop := Forall (fun c => c <> ""%string) l.

(** The open pull requests that the sample tracker of the branch-assigning
    revision lists, whatever the URL. *)
Definition sample_pulls : list Issue :=
  [pull_request "vopr" "coilhq:fix-a"; pull_request "docs" "coilhq:notes";
   pull_request "vopr" "coilhq:fix-b"].

Definition branch_tracker (url : string) : Response := answer sample_pulls [].

End OrganizerRunSpec.

(** * Properties *)

(** Case analysis on the innermost scrutinee of the goal. *)
Ltac break_match :=
  match goal with
  | |- context [match ?x with _ => _ end] =>
      lazymatch x with
      | context [match _ with _ => _ end] => fail
      | _ => destruct x eqn:?
      end
  end.

(** Write a list of known length [H : length l = n] element by element. *)
Ltac list_of_length l H :=
  repeat (destruct l as [| ? l]; [discriminate H |]);
  destruct l; [| discriminate H].

(** ** The worker driver *)

Section VoprProperties.

Import Vopr VoprSpec.

(** Unfold the monad and the primitives of the worker. *)
Ltac zig_unfold :=
  cbv [bind ret exit panic stuck Vopr.emit Vopr.print Vopr.fatal
       Vopr.assert Vopr.unwrap].

Lemma run_child_process_exits (w : World) (mode : Mode) (seed code : Z)
    (s : list event) :
  child_exits w mode seed code ->
  run_child_process w (argv_of mode seed) s
  = (Ret code, s ++ [EvSpawn (argv_of mode seed); EvPrint "exit with code: {}"]).
Proof.
  intros [Hinit Hspawn]. unfold run_child_process.
  zig_unfold. rewrite Hinit, Hspawn. simpl.
  now rewrite <- app_assoc.
Qed.

Lemma exit_disposition_cases (code : Z) :
  (code = 0 /\ exit_disposition code = UnexpectedPass) \/
  (code = 127 /\ exit_disposition code = Found crash) \/
  (code = 128 /\ exit_disposition code = Found liveness) \/
  (code = 129 /\ exit_disposition code = Found correctness) \/
  (code <> 0 /\ code <> 127 /\ code <> 128 /\ code <> 129 /\
   exit_disposition code = FatalExecutorError).
Proof.
  unfold exit_disposition.
  destruct (Z.eqb_spec code 0); [now left|].
  destruct (Z.eqb_spec code 127); [now right; left|].
  destruct (Z.eqb_spec code 128); [now right; right; left|].
  destruct (Z.eqb_spec code 129); [now right; right; right; left|].
  now right; right; right; right.
Qed.

(** The part of [run_simulator] up to the classification of the exit code. *)
Lemma run_simulator_unfold (w : World) (fuel : nat) (seed : Z) (mode : Mode)
    (send_address : option Address) (s : list event) (code : Z) :
  mode = Debug \/ mode = ReleaseSafe ->
  child_exits w mode seed code ->
  let s1 := s ++ [EvSpawn (argv_of mode seed); EvPrint "exit with code: {}"] in
  run_simulator w (S fuel) seed mode send_address s =
  match exit_disposition code with
  | UnexpectedPass => (Ret None, s1)
  | FatalExecutorError =>
      (Panicked (PanicMessage "unexpected simulator exit code."),
       s1 ++ [EvPrint "unexpected simulator exit code: {}"])
  | Found bug =>
      bind (if Mode_eqb mode ReleaseSafe then
              (print "simulator exited with exit code {}." ;;;
               print "rerunning seed {} in Debug mode." ;;;
               rerun <- run_simulator w fuel seed Debug send_address ;;
               bug' <- unwrap rerun ;;
               assert (Bug_eqb bug bug'))%eff
            else
              match send_address with
              | Some hub_address => send_report w hub_address bug seed
              | None => ret tt
              end)
           (fun _ => ret (Some bug)) s1
  end.
Proof.
  intros Hmode Hchild s1.
  assert (Hrun := run_child_process_exits w mode seed code s Hchild).
  cbn [run_simulator].
  destruct Hmode as [-> | ->]; unfold argv_of in Hrun;
    unfold bind at 1; unfold ret at 1; unfold bind at 1;
    rewrite Hrun; fold s1;
    destruct (exit_disposition_cases code)
      as [[-> ->] | [[-> ->] | [[-> ->] | [[-> ->] | (H0 & H1 & H2 & H3 & ->)]]]];
    try reflexivity.
  all: apply Z.eqb_neq in H0, H1, H2, H3; unfold bind at 1;
    rewrite H0, H1, H2, H3; reflexivity.
Qed.

Lemma run_child_process_outcome (w : World) (argv : list string)
    (s : list event) :
  forall out s', run_child_process w argv s = (out, s') ->
  (exists code, out = Ret code) \/ out = Exited 1.
Proof.
  intros out s'. unfold run_child_process. zig_unfold.
  repeat (break_match; simpl); intros [= <- <-]; eauto.
Qed.

Lemma create_report_outcome (w : World) (b : Bug) (seed : Z) (s : list event) :
  forall out s', create_report w b seed s = (out, s') ->
  (exists m, out = Ret m) \/ terminates_fatally out.
Proof.
  unfold create_report, slice, terminates_fatally. zig_unfold.
  intros out s'.
  repeat (break_match; simpl); intros [= <- <-]; eauto; try discriminate.
Qed.

Lemma send_report_outcome (w : World) (hub : Address) (b : Bug) (seed : Z)
    (s : list event) :
  forall out s', send_report w hub b seed s = (out, s') ->
  out = Ret tt \/ terminates_fatally out.
Proof.
  intros out s'. unfold send_report. unfold bind at 1.
  destruct (create_report w b seed s) as [r s1] eqn:Hc.
  destruct (create_report_outcome w b seed s r s1 Hc) as [[m ->] | [[p ->] | ->]].
  - unfold mem_copy, terminates_fatally. zig_unfold.
    repeat (break_match; simpl); intros [= <- <-]; eauto; try discriminate.
  - intros [= <- <-]. right. left. eauto.
  - intros [= <- <-]. right. now right.
Qed.

(** Two levels of calls are enough: a fast run calls a diagnostic run, which
    calls nothing. *)
Lemma run_simulator_debug_total (w : World) (fuel : nat) (seed : Z)
    (send_address : option Address) (s : list event) :
  fst (run_simulator w (S fuel) seed Debug send_address s) <> Stuck.
Proof.
  cbn [run_simulator]. unfold bind at 1. unfold ret at 1. unfold bind at 1.
  destruct (run_child_process w (simulator_argv "-ODebug" seed) s)
    as [r s1] eqn:Hchild.
  destruct (run_child_process_outcome _ _ _ _ _ Hchild) as [[code ->] | ->];
    [| discriminate].
  unfold bind at 1.
  destruct (code =? 0); [discriminate |].
  assert (Hsend : forall b,
    fst (bind (match send_address with
               | Some hub_address => send_report w hub_address b seed
               | None => ret tt
               end) (fun _ => ret (Some b)) s1) <> Stuck).
  { intros b. unfold bind. destruct send_address as [hub |]; [| discriminate].
    destruct (send_report w hub b seed s1) as [r s2] eqn:Hs.
    destruct (send_report_outcome _ _ _ _ _ _ _ Hs) as [-> | [[p ->] | ->]];
      discriminate. }
  destruct (code =? 127); [apply Hsend |].
  destruct (code =? 128); [apply Hsend |].
  destruct (code =? 129); [apply Hsend | discriminate].
Qed.

Lemma run_simulator_total (w : World) (fuel : nat) (seed : Z) (mode : Mode)
    (send_address : option Address) (s : list event) :
  fst (run_simulator w (S (S fuel)) seed mode send_address s) <> Stuck.
Proof.
  destruct mode; try (apply run_simulator_debug_total); try discriminate.
  cbn [run_simulator]. unfold bind at 1. unfold ret at 1. unfold bind at 1.
  destruct (run_child_process w (simulator_argv "-OReleaseSafe" seed) s)
    as [r s1] eqn:Hchild.
  destruct (run_child_process_outcome _ _ _ _ _ Hchild) as [[code ->] | ->];
    [| discriminate].
  assert (Hrerun : forall b s2,
    fst (bind (rerun <- run_simulator w (S fuel) seed Debug send_address ;;
               bug' <- unwrap rerun ;; assert (Bug_eqb b bug'))%eff
              (fun _ => ret (Some b)) s2) <> Stuck).
  { intros b s2. unfold bind at 1. unfold bind at 1.
    pose proof (run_simulator_debug_total w fuel seed send_address s2) as Hd.
    fold run_simulator in *.
    destruct (run_simulator w (S fuel) seed Debug send_address s2)
      as [[[b' |] | | |] s3]; cbn [fst] in *; try discriminate; try congruence.
    unfold bind, unwrap, Vopr.assert, ret. destruct (Bug_eqb b b'); discriminate. }
  unfold bind at 1.
  destruct (code =? 0); [discriminate |].
  destruct (code =? 127); [apply Hrerun |].
  destruct (code =? 128); [apply Hrerun |].
  destruct (code =? 129); [apply Hrerun | discriminate].
Qed.

Lemma bind_const_ret {S P A B} (c : M S P A) (v : B) (s : S) :
  forall r s', bind c (fun _ => ret v) s = (r, s') ->
  (r = Ret v /\ exists a, c s = (Ret a, s')) \/
  (r <> Ret v /\ is_ret r = false /\
   match r with
   | Ret _ => False
   | Exited code => c s = (Exited code, s')
   | Panicked p => c s = (Panicked p, s')
   | Stuck => c s = (Stuck, s')
   end).
Proof.
  intros r s'. unfold bind, ret. destruct (c s) as [[a | code | p |] s1];
    intros [= <- <-]; [left; eauto | right .. ]; repeat split; discriminate.
Qed.

(** C2. The exit code of the simulator child process is mapped as: 0, no bug
    (the run returns null); 127, crash; 128, liveness; 129, correctness; any
    other code panics with "unexpected simulator exit code.".  A run that
    returns, returns the bug of its exit code; a diagnostic run without a hub
    address returns it whatever else happens. *)
Theorem exit_code_mapping (w : World) (fuel : nat) (seed : Z) (mode : Mode)
    (send_address : option Address) (s : list event) (code : Z) :
  mode = Debug \/ mode = ReleaseSafe ->
  child_exits w mode seed code ->
  let out := fst (run_simulator w (S fuel) seed mode send_address s) in
  match exit_disposition code with
  | UnexpectedPass => code = 0 /\ out = Ret None
  | Found b =>
      code = enumToInt b /\
      (forall r, out = Ret r -> r = Some b) /\
      (mode = Debug -> send_address = None -> out = Ret (Some b))
  | FatalExecutorError =>
      code <> 0 /\ code <> 127 /\ code <> 128 /\ code <> 129 /\
      out = Panicked (PanicMessage "unexpected simulator exit code.")
  end.
Proof.
  intros Hmode Hchild out. subst out.
  pose proof (run_simulator_unfold w fuel seed mode send_address s code
                Hmode Hchild) as Hrun.
  cbv zeta in Hrun. rewrite Hrun. clear Hrun.
  assert (Hfound : forall (b : Bug) (c : Zig unit) (s1 : list event) r,
            fst (bind c (fun _ => ret (Some b)) s1) = Ret r -> r = Some b).
  { intros b c s1 r Hr.
    destruct (bind c (fun _ => ret (Some b)) s1) as [r' s'] eqn:Hb.
    simpl in Hr. subst r'.
    destruct (bind_const_ret _ _ _ _ _ Hb) as [[Heq _] | (_ & Hret & _)];
      [congruence | discriminate Hret]. }
  destruct (exit_disposition_cases code)
    as [[-> ->] | [[-> ->] | [[-> ->] | [[-> ->] | (H0 & H1 & H2 & H3 & ->)]]]].
  - now split.
  - split; [reflexivity | split; [apply Hfound | now intros -> ->]].
  - split; [reflexivity | split; [apply Hfound | now intros -> ->]].
  - split; [reflexivity | split; [apply Hfound | now intros -> ->]].
  - now repeat split.
Qed.

(** *** What [send_report] puts on the wire *)

Lemma substring_length (s : string) (a n : nat) :
  (a + n <= String.length s)%nat -> String.length (substring a n s) = n.
Proof.
  revert a n. induction s as [| c s IH]; intros a n H; simpl in H.
  - assert (a = 0%nat) by lia. assert (n = 0%nat) by lia. now subst.
  - destruct a as [| a]; simpl.
    + destruct n as [| n]; simpl; [reflexivity |].
      f_equal. apply IH. simpl. lia.
    + apply IH. lia.
Qed.

Lemma hexToBytes_length (input : string) :
  forall bytes, hexToBytes input = Some bytes ->
  String.length input = (2 * List.length bytes)%nat.
Proof.
  assert (H : forall n input, (String.length input <= n)%nat ->
            forall bytes, hexToBytes input = Some bytes ->
            String.length input = (2 * List.length bytes)%nat).
  { induction n as [| n IH]; intros [| hi [| lo rest]] Hn bytes; simpl in *;
      try (now intros [= <-]); try discriminate; try lia.
    destruct (charToDigit hi); [| discriminate].
    destruct (charToDigit lo); [| discriminate].
    destruct (hexToBytes rest) as [tl |] eqn:Hrest; [| discriminate].
    intros [= <-]. simpl. rewrite (IH rest) with (bytes := tl); auto; lia. }
  eauto.
Qed.

Lemma create_report_ret (w : World) (b : Bug) (seed : Z) (s s1 : list event)
    (m : Report) :
  create_report w b seed s = (Ret m, s1) ->
  bug m = bug_code b /\ Vopr.seed m = seed /\ List.length (commit m) = 20%nat /\
  s1 = s ++ [EvPrint "Collecting VOPR bug and seed, and the current git commit hash.";
             EvGitLog; EvPrint "git commit that was retrieved: {s}"] /\
  exists git_log,
    git_log_stdout w = Some git_log /\
    (47 <= String.length git_log)%nat /\
    hexToBytes (substring 7 40 git_log) = Some (commit m).
Proof.
  unfold create_report, slice. zig_unfold.
  destruct (git_log_stdout w) as [git_log |]; [| discriminate].
  destruct (Nat.leb_spec 47 (String.length git_log)) as [Hlen | Hlen];
    [| discriminate].
  cbn [Nat.sub].
  destruct (hexToBytes (substring 7 40 git_log)) as [bytes |] eqn:Hhex;
    [| discriminate].
  intros [= <- <-]. cbn [bug Vopr.seed commit].
  split; [now destruct b | split; [reflexivity | split; [| split]]].
  - apply hexToBytes_length in Hhex.
    rewrite substring_length in Hhex by lia. lia.
  - now rewrite <- !app_assoc.
  - exists git_log. auto.
Qed.

(** [send_report] once the report is built. *)
Lemma send_report_unfold (w : World) (hub : Address) (b : Bug) (seed : Z)
    (s s1 : list event) (m : Report) :
  create_report w b seed s = (Ret m, s1) ->
  send_report w hub b seed s =
  if tcpConnectToAddress w hub then
    if writeAll w (payload m) then
      match readAll w with
      | None =>
          (Exited 1,
           s1 ++ [EvConnect hub; EvPrint "Connected to VOPR Hub.";
                  EvWrite (payload m); EvRead;
                  EvStderr "error: unable to read a reply from the VOPR Hub. Error: {}"])
      | Some bytes_read =>
          (Ret tt,
           s1 ++ [EvConnect hub; EvPrint "Connected to VOPR Hub.";
                  EvWrite (payload m); EvRead;
                  EvPrint (if (0 <? bytes_read)%nat
                           then "Confirmation received from VOPR Hub: {s}."
                           else "No reply received from VOPR Hub.")])
      end
    else
      (Exited 1,
       s1 ++ [EvConnect hub; EvPrint "Connected to VOPR Hub.";
              EvWrite (payload m);
              EvStderr "error: unable to send the report to the VOPR Hub. Error: {}"])
  else
    (Exited 1,
     s1 ++ [EvConnect hub;
            EvStderr "error: unable to create a connection to the VOPR Hub. Error: {}"]).
Proof.
  intros Hc. destruct (create_report_ret _ _ _ _ _ _ Hc) as (Hbug & _ & Hlen & _).
  unfold send_report. unfold bind at 1. rewrite Hc.
  assert (Hok : (bug m =? 1) || (bug m =? 2) || (bug m =? 3) = true)
    by (rewrite Hbug; now destruct b).
  rewrite Hok.
  assert (Hcopy : forall k : list Z -> Zig unit,
    (byte_array <- mem_copy (repeat 170 29) 0 [bug m] ;;
     byte_array <- mem_copy byte_array 1 (bitCast (byteSwap (Vopr.seed m))) ;;
     byte_array <- mem_copy byte_array
                     (1 + List.length (bitCast (byteSwap (Vopr.seed m))))
                     (commit m) ;;
     k byte_array)%eff s1 = k (payload m) s1).
  { intros k. unfold payload. destruct m as [mb ms mc]. cbn [bug Vopr.seed commit] in *.
    list_of_length mc Hlen. reflexivity. }
  unfold Vopr.assert. unfold bind at 1. unfold ret at 1.
  rewrite Hcopy. zig_unfold.
  destruct (tcpConnectToAddress w hub); [| now rewrite <- !app_assoc].
  destruct (writeAll w (payload m)); [| now rewrite <- !app_assoc].
  destruct (readAll w) as [n |]; [| now rewrite <- !app_assoc].
  destruct (0 <? n)%nat; now rewrite <- !app_assoc.
Qed.

Lemma byte_at_spec (x : Z) (i : nat) :
  byte_at x i = (x / 256 ^ Z.of_nat i) mod 256.
Proof.
  unfold byte_at. change 255 with (Z.ones 8).
  rewrite Z.land_ones by lia. rewrite Z.shiftr_div_pow2 by lia.
  rewrite Z.pow_mul_r by lia. reflexivity.
Qed.

Lemma byte_at_is_byte (x : Z) (i : nat) : is_byte (byte_at x i).
Proof. rewrite byte_at_spec. unfold is_byte. apply Z.mod_pos_bound. lia. Qed.

Lemma byte_at_lor_0 (c acc : Z) :
  is_byte c -> byte_at (Z.lor c (Z.shiftl acc 8)) 0 = c.
Proof.
  intros Hc. unfold byte_at. cbn [Z.of_nat Z.mul]. rewrite Z.shiftr_0_r.
  rewrite Z.land_lor_distr_l. change 255 with (Z.ones 8).
  rewrite !Z.land_ones by lia. rewrite Z.shiftl_mul_pow2 by lia.
  rewrite Z.mod_mul by lia. rewrite Z.lor_0_r.
  apply Z.mod_small. exact Hc.
Qed.

Lemma byte_at_lor_S (c acc : Z) (i : nat) :
  is_byte c -> byte_at (Z.lor c (Z.shiftl acc 8)) (S i) = byte_at acc i.
Proof.
  intros Hc. unfold byte_at.
  replace (8 * Z.of_nat (S i)) with (8 + 8 * Z.of_nat i) by lia.
  rewrite <- Z.shiftr_shiftr by lia. rewrite Z.shiftr_lor.
  rewrite Z.shiftr_shiftl_l by lia. rewrite Z.sub_diag, Z.shiftl_0_r.
  rewrite (Z.shiftr_div_pow2 c) by lia. rewrite Z.div_small by exact Hc.
  reflexivity.
Qed.

Lemma bytes_of_bytes_le (l : list Z) :
  Forall is_byte l ->
  map (byte_at (of_bytes_le l)) (seq 0 (List.length l)) = l.
Proof.
  induction 1 as [| c l Hc Hl IH]; [reflexivity |].
  cbn [List.length seq map of_bytes_le fold_right].
  rewrite byte_at_lor_0 by exact Hc. f_equal.
  rewrite <- seq_shift, map_map.
  rewrite <- IH at 2. apply map_ext. intros i.
  now apply byte_at_lor_S.
Qed.

(** Swapping the bytes and reading them in memory order gives the seed's
    bytes most significant first. *)
Lemma bitCast_byteSwap (x : Z) : bitCast (byteSwap x) = be_bytes x.
Proof.
  unfold byteSwap.
  transitivity (rev (bitCast x)).
  - unfold bitCast at 1.
    change 8%nat with (List.length (rev (bitCast x))) at 1.
    apply bytes_of_bytes_le. apply Forall_rev. unfold bitCast.
    apply Forall_forall. intros c Hc. apply in_map_iff in Hc.
    destruct Hc as (i & <- & _). apply byte_at_is_byte.
  - unfold bitCast, be_bytes. cbn [seq map rev app].
    rewrite !byte_at_spec. reflexivity.
Qed.

(** Every message [send_report] hands to the connection is the payload of
    the report: the bug byte, the seed in 8 big-endian bytes and the 20
    bytes of the commit that is checked out. *)
Lemma send_report_wire_messages (w : World) (hub : Address) (b : Bug)
    (seed : Z) (s : list event) :
  exists new,
    writes (snd (send_report w hub b seed s)) = writes s ++ new /\
    Forall (fun message =>
              List.length message = 29%nat /\
              List.length message <> 45%nat /\
              report_payload w b seed message) new.
Proof.
  assert (Hw : forall a b, writes (a ++ b) = writes a ++ writes b).
  { intros a0 b0. unfold writes. now rewrite flat_map_app. }
  destruct (create_report w b seed s) as [r s1] eqn:Hc.
  assert (Hs1 : writes s1 = writes s).
  { revert Hc. unfold create_report, slice. zig_unfold.
    repeat (break_match; simpl); intros [= <- <-];
      rewrite ?Hw; simpl; now rewrite ?app_nil_r. }
  destruct r as [m | code | p |].
  - rewrite (send_report_unfold _ _ _ _ _ _ _ Hc).
    destruct (create_report_ret _ _ _ _ _ _ Hc)
      as (Hbug & Hseed & Hlen & _ & git_log & Hlog & _ & Hhex).
    assert (Hm : List.length (payload m) = 29%nat /\
                 List.length (payload m) <> 45%nat /\
                 report_payload w b seed (payload m)).
    { unfold payload, report_payload. rewrite bitCast_byteSwap, Hbug, Hseed.
      cbn [List.length]. rewrite length_app, Hlen.
      repeat split; try (cbn; lia). exists git_log, (commit m). auto. }
    destruct (tcpConnectToAddress w hub);
      [destruct (writeAll w (payload m)); [destruct (readAll w) |] |];
      cbn [snd]; rewrite Hw, Hs1; cbn [writes flat_map app];
      eexists; split; try reflexivity; auto.
  - exists []. unfold send_report, bind. rewrite Hc. cbn [snd].
    now rewrite Hs1, app_nil_r.
  - exists []. unfold send_report, bind. rewrite Hc. cbn [snd].
    now rewrite Hs1, app_nil_r.
  - exists []. unfold send_report, bind. rewrite Hc. cbn [snd].
    now rewrite Hs1, app_nil_r.
Qed.

(** *** The diagnostic rerun *)

Lemma exit_disposition_found (code : Z) (b : Bug) :
  exit_disposition code = Found b <-> code = enumToInt b.
Proof.
  split.
  - intros H.
    destruct (exit_disposition_cases code)
      as [[-> E] | [[-> E] | [[-> E] | [[-> E] | (_ & _ & _ & _ & E)]]]];
      rewrite E in H; try discriminate; now inversion H.
  - intros ->. now destruct b.
Qed.

Lemma create_report_extends (w : World) (b : Bug) (seed : Z) (s : list event) :
  forall out s', create_report w b seed s = (out, s') -> exists post, s' = s ++ post.
Proof.
  unfold create_report, slice. zig_unfold. intros out s'.
  repeat (break_match; simpl); intros [= <- <-];
    eexists; rewrite <- ?app_assoc; reflexivity.
Qed.

Lemma send_report_extends (w : World) (hub : Address) (b : Bug) (seed : Z)
    (s : list event) :
  forall out s', send_report w hub b seed s = (out, s') -> exists post, s' = s ++ post.
Proof.
  intros out s'. unfold send_report. unfold bind at 1.
  destruct (create_report w b seed s) as [r s1] eqn:Hc.
  destruct (create_report_extends w b seed s r s1 Hc) as [post1 ->].
  destruct r; try (intros [= <- <-]; eauto; fail).
  unfold mem_copy. zig_unfold.
  repeat (break_match; simpl); intros [= <- <-];
    eexists; rewrite <- ?app_assoc; reflexivity.
Qed.

Lemma writes_app (a b : list event) : writes (a ++ b) = writes a ++ writes b.
Proof. unfold writes. apply flat_map_app. Qed.

(** What a diagnostic run that found [b] writes after its child process. *)
Lemma send_report_writes_after (w : World) (hub : Address) (b : Bug) (seed : Z)
    (s post : list event) (out : result panic_value unit) :
  send_report w hub b seed s = (out, s ++ post) ->
  Forall (report_payload w b seed) (writes post).
Proof.
  intros Hsend.
  destruct (send_report_wire_messages w hub b seed s) as (new & Hnew & Hall).
  rewrite Hsend in Hnew. cbn [snd] in Hnew. rewrite writes_app in Hnew.
  apply app_inv_head in Hnew. subst new.
  eapply Forall_impl; [| exact Hall]. now intros m (_ & _ & H).
Qed.

(** [create_report] in a checkout whose git log shows a commit id. *)
Lemma create_report_built (w : World) (b : Bug) (seed : Z) (s : list event)
    (git_log : string) (commit : list Z) :
  git_log_stdout w = Some git_log ->
  (47 <= String.length git_log)%nat ->
  hexToBytes (substring 7 40 git_log) = Some commit ->
  create_report w b seed s
  = (Ret {| bug := bug_code b; Vopr.seed := seed; Vopr.commit := commit |},
     s ++ [EvPrint "Collecting VOPR bug and seed, and the current git commit hash.";
           EvGitLog; EvPrint "git commit that was retrieved: {s}"]).
Proof.
  intros Hlog Hlen Hhex. unfold create_report, slice. zig_unfold. rewrite Hlog.
  replace (47 <=? String.length git_log)%nat with true
    by (symmetry; now apply Nat.leb_le).
  change (47 - 7)%nat with 40%nat. rewrite Hhex.
  rewrite <- !app_assoc. now destruct b.
Qed.

(** What the diagnostic rerun reports: the report of its own bug, built
    from the git log and written to the hub once the connection is open. *)
Lemma rerun_report_written (w : World) (fuel : nat) (seed : Z) (hub : Address)
    (s : list event) (code code' : Z) (bug bug' : Bug) (git_log : string)
    (commit : list Z) :
  exit_disposition code = Found bug ->
  child_exits w ReleaseSafe seed code ->
  child_exits w Debug seed code' ->
  exit_disposition code' = Found bug' ->
  git_log_stdout w = Some git_log ->
  (47 <= String.length git_log)%nat ->
  hexToBytes (substring 7 40 git_log) = Some commit ->
  let message := bug_code bug' :: be_bytes seed ++ commit in
  let rerun := [EvSpawn (argv_of Debug seed); EvPrint "exit with code: {}"] in
  let run := run_simulator w (S (S fuel)) seed ReleaseSafe (Some hub) s in
  exists tail,
    snd run = s ++ rerun_prefix seed ++ rerun ++ report_built hub ++ tail /\
    (tcpConnectToAddress w hub = true ->
     exists tail',
       tail = EvPrint "Connected to VOPR Hub." :: EvWrite message :: tail' /\
       writes tail' = []) /\
    (tcpConnectToAddress w hub = false ->
     writes tail = [] /\ fst run = Exited 1) /\
    (tcpConnectToAddress w hub = true -> writeAll w message = true ->
     readAll w <> None ->
     fst run = if Bug_eqb bug bug' then Ret (Some bug)
               else Panicked PanicUnreachable).
Proof.
  intros Hfound Hsafe Hdebug Hfound' Hlog Hlen Hhex message rerun run.
  subst run.
  destruct (run_simulator w (S (S fuel)) seed ReleaseSafe (Some hub) s)
    as [out s'] eqn:Hrun.
  cbn [fst snd].
  pose proof (run_simulator_unfold w (S fuel) seed ReleaseSafe (Some hub) s
                code (or_intror eq_refl) Hsafe) as Houter.
  cbv zeta in Houter. rewrite Houter in Hrun. clear Houter.
  rewrite Hfound in Hrun. cbn [Mode_eqb] in Hrun.
  set (s1 := s ++ [EvSpawn (argv_of ReleaseSafe seed); EvPrint "exit with code: {}"])
    in Hrun.
  set (s2 := s ++ rerun_prefix seed).
  assert (Hs2 : (s1 ++ [EvPrint "simulator exited with exit code {}."])
                  ++ [EvPrint "rerunning seed {} in Debug mode."] = s2).
  { subst s1 s2. unfold rerun_prefix. now rewrite <- !app_assoc. }
  pose proof (run_simulator_unfold w fuel seed Debug (Some hub) s2
                code' (or_introl eq_refl) Hdebug) as Hinner.
  cbv zeta in Hinner. cbn [Mode_eqb] in Hinner. rewrite Hfound' in Hinner.
  set (s3 := s2 ++ [EvSpawn (argv_of Debug seed); EvPrint "exit with code: {}"])
    in Hinner.
  assert (Hs3 : forall l, s3 ++ l = s ++ rerun_prefix seed ++ rerun ++ l).
  { intros l. subst s3 s2 rerun. now rewrite <- !app_assoc. }
  pose proof (create_report_built w bug' seed s3 git_log commit Hlog Hlen Hhex)
    as Hc.
  pose proof (send_report_unfold w hub bug' seed s3 _ _ Hc) as Hsend.
  unfold payload in Hsend. cbn [Vopr.bug Vopr.seed Vopr.commit] in Hsend.
  rewrite bitCast_byteSwap in Hsend. fold message in Hsend.
  unfold bind at 1 2 3 in Hrun. unfold print at 1 2 in Hrun.
  unfold Vopr.emit in Hrun. rewrite Hs2 in Hrun.
  unfold bind at 1 in Hrun. rewrite Hinner in Hrun.
  unfold bind at 1 in Hrun. rewrite Hsend in Hrun. clear Hinner Hsend Hc.
  destruct (tcpConnectToAddress w hub);
    [destruct (writeAll w message); [destruct (readAll w) as [n |] |] |];
    revert Hrun; zig_unfold; rewrite <- app_assoc, Hs3; unfold report_built;
    cbn [app].
  - destruct (Bug_eqb bug bug'); intros [= <- <-];
      (eexists; split; [reflexivity | split; [| split]]);
      try discriminate; try (intros _; eexists; split; reflexivity);
      reflexivity.
  - intros [= <- <-].
    eexists; split; [reflexivity | split; [| split]]; try discriminate;
      try (intros _; eexists; split; reflexivity).
    intros _ _ H. now elim H.
  - intros [= <- <-].
    eexists; split; [reflexivity | split; [| split]]; try discriminate;
      try (intros _; eexists; split; reflexivity).
  - intros [= <- <-].
    eexists; split; [reflexivity | split; [| split]]; try discriminate.
    intros _. split; reflexivity.
Qed.
(** How a fast run that found a bug goes on: the diagnostic rerun, and how
    the run ends when the two exit codes agree or differ. *)
Lemma rerun_outcome (w : World) (fuel : nat) (seed : Z)
    (send_address : option Address) (s : list event) (code code' : Z)
    (bug : Bug) :
  exit_disposition code = Found bug ->
  child_exits w ReleaseSafe seed code ->
  child_exits w Debug seed code' ->
  forall out s',
    run_simulator w (S (S fuel)) seed ReleaseSafe send_address s = (out, s') ->
    let rerun := [EvSpawn (argv_of Debug seed); EvPrint "exit with code: {}"] in
    exists post,
      s' = s ++ rerun_prefix seed ++ rerun ++ post /\
      forallb (fun e => negb (is_report_event e)) (rerun_prefix seed) = true /\
      (code' <> code -> terminates_fatally out) /\
      (forall r, out = Ret r -> code' = code /\ r = Some bug) /\
      (code' = code ->
       match send_address with
       | Some hub =>
           exists sent,
             send_report w hub bug seed (s ++ rerun_prefix seed ++ rerun)
             = (sent, s') /\
             (sent = Ret tt -> out = Ret (Some bug)) /\
             (sent <> Ret tt -> terminates_fatally out)
       | None => out = Ret (Some bug) /\ post = []
       end) /\
      (forall bug', exit_disposition code' = Found bug' ->
                    Forall (report_payload w bug' seed) (writes post)) /\
      ((forall bug', exit_disposition code' <> Found bug') -> writes post = []).
Proof.
  intros Hfound Hsafe Hdebug out s' Hrun rerun.
  pose proof (run_simulator_unfold w (S fuel) seed ReleaseSafe send_address s
                code (or_intror eq_refl) Hsafe) as Houter.
  cbv zeta in Houter. rewrite Houter in Hrun. clear Houter.
  rewrite Hfound in Hrun. cbn [Mode_eqb] in Hrun.
  set (s1 := s ++ [EvSpawn (argv_of ReleaseSafe seed); EvPrint "exit with code: {}"])
    in Hrun.
  set (s2 := s ++ rerun_prefix seed).
  assert (Hs2 : (s1 ++ [EvPrint "simulator exited with exit code {}."])
                  ++ [EvPrint "rerunning seed {} in Debug mode."] = s2).
  { subst s1 s2. unfold rerun_prefix. now rewrite <- !app_assoc. }
  pose proof (run_simulator_unfold w fuel seed Debug send_address s2
                code' (or_introl eq_refl) Hdebug) as Hinner.
  cbv zeta in Hinner. cbn [Mode_eqb] in Hinner.
  assert (Hs3 : s2 ++ [EvSpawn (argv_of Debug seed); EvPrint "exit with code: {}"]
                = s ++ rerun_prefix seed ++ rerun).
  { subst s2 rerun. now rewrite <- app_assoc. }
  rewrite Hs3 in Hinner.
  unfold bind at 1 2 3 in Hrun. unfold print at 1 2 in Hrun.
  unfold Vopr.emit in Hrun. rewrite Hs2 in Hrun.
  apply exit_disposition_found in Hfound. subst code.
  unfold bind at 1 in Hrun.
  assert (Hpre : forallb (fun e => negb (is_report_event e)) (rerun_prefix seed) = true)
    by reflexivity.
  assert (Hcode : forall b', exit_disposition code' = Found b' ->
                        (code' = enumToInt bug <-> b' = bug)).
  { intros b' E. apply exit_disposition_found in E. subst code'.
    split; [now destruct b', bug | now intros ->]. }
  destruct (exit_disposition code') as [| b' |] eqn:E.
  - (* the rerun passes *)
    rewrite Hinner in Hrun. cbn in Hrun. injection Hrun as <- <-.
    exists []. rewrite app_nil_r.
    split; [reflexivity | split; [exact Hpre | split; [| split; [| split; [| split]]]]].
    + intros _. left. eauto.
    + discriminate.
    + intros Heq. apply exit_disposition_found in Heq. congruence.
    + discriminate.
    + reflexivity.
  - (* the rerun finds a bug *)
    specialize (Hcode b' eq_refl).
    pose proof (proj1 (exit_disposition_found _ _) E) as Hc'.
    unfold bind at 1 in Hinner.
    destruct send_address as [hub |].
    + destruct (send_report w hub b' seed (s ++ rerun_prefix seed ++ rerun))
        as [sent s4] eqn:Hsend.
      destruct (send_report_extends _ _ _ _ _ _ _ Hsend) as [post Hpost].
      exists post. rewrite Hinner in Hrun.
      assert (Hwritten : forall bug'', Found b' = Found bug'' ->
                Forall (report_payload w bug'' seed) (writes post)).
      { intros bug'' [= <-]. rewrite Hpost in Hsend.
        exact (send_report_writes_after _ _ _ _ _ _ _ Hsend). }
      assert (Hother : (forall bug'', Found b' <> Found bug'') -> writes post = []).
      { intros Hne. now elim (Hne b'). }
      split; [| split; [exact Hpre |]].
      { destruct sent; cbn in Hrun; try (injection Hrun as <- <-);
          try (now rewrite Hpost, <- !app_assoc).
        unfold Vopr.assert in Hrun. destruct (Bug_eqb bug b');
          cbn in Hrun; injection Hrun as <- <-; now rewrite Hpost, <- !app_assoc. }
      destruct (send_report_outcome _ _ _ _ _ _ _ Hsend) as [-> | Hfat].
      * cbn in Hrun. unfold Vopr.assert, Bug_eqb in Hrun.
        destruct (Z.eqb_spec (enumToInt bug) (enumToInt b')) as [Heq | Hne];
          cbn in Hrun; injection Hrun as <- <-.
        -- assert (b' = bug) by (apply Hcode; congruence). subst b'.
           split; [intros Hne; elim Hne; now apply Hcode |].
           split; [intros r [= <-]; split; [now apply Hcode | reflexivity] |].
           split; [| split; [exact Hwritten | exact Hother]].
           intros _. exists (Ret tt). repeat split; auto. congruence.
        -- split; [intros _; left; eauto |].
           split; [discriminate |].
           split; [| split; [exact Hwritten | exact Hother]].
           intros Heq. apply Hcode in Heq. congruence.
      * assert (Hout : out = match sent with
                             | Ret _ => out | Exited c => Exited c
                             | Panicked p => Panicked p | Stuck => Stuck end
                       /\ s' = s4).
        { destruct Hfat as [[p ->] | ->]; cbn in Hrun; injection Hrun as <- <-; auto. }
        destruct Hout as [Hout ->].
        assert (Hfat' : terminates_fatally out).
        { destruct Hfat as [[p ->] | ->]; rewrite Hout; [left; eauto | now right]. }
        split; [auto |].
        split; [intros r ->; destruct Hfat' as [[p Hp] | Hp]; discriminate |].
        split; [| split; [exact Hwritten | exact Hother]].
        intros Heq. apply Hcode in Heq. subst b'.
        exists sent. repeat split; auto.
        intros ->. destruct Hfat as [[p Hp] | Hp]; discriminate.
    + exists []. rewrite app_nil_r. rewrite Hinner in Hrun.
      cbn in Hrun. unfold Vopr.assert, Bug_eqb in Hrun.
      destruct (Z.eqb_spec (enumToInt bug) (enumToInt b')) as [Heq | Hne];
        cbn in Hrun; injection Hrun as <- <-.
      * assert (b' = bug) by (apply Hcode; congruence). subst b'.
        split; [reflexivity | split; [exact Hpre |]].
        split; [intros Hne; elim Hne; now apply Hcode |].
        split; [intros r [= <-]; split; [now apply Hcode | reflexivity] |].
        split; [auto | split; [intros; constructor | reflexivity]].
      * split; [reflexivity | split; [exact Hpre |]].
        split; [intros _; left; eauto |].
        split; [discriminate |].
        split; [| split; [intros; constructor | reflexivity]].
        intros Heq. apply Hcode in Heq. congruence.
  - (* the rerun exits with an unexpected code *)
    rewrite Hinner in Hrun. cbn in Hrun. injection Hrun as <- <-.
    exists [EvPrint "unexpected simulator exit code: {}"].
    split; [now rewrite <- !app_assoc | split; [exact Hpre | split; [| split; [| split; [| split]]]]].
    + intros _. left. eauto.
    + discriminate.
    + intros Heq. apply exit_disposition_found in Heq. congruence.
    + discriminate.
    + reflexivity.
Qed.


(** C3 (as amended). Once the report is built, a failure of the connection,
    of the write or of reading the reply makes the worker print an error
    line to stderr and end with exit code 1: it does not go on.  Without such
    a failure [send_report] returns, also when the hub sent no reply byte. *)
Theorem failed_send_is_fatal (w : World) (hub : Address) (b : Bug) (seed : Z)
    (s s1 : list event) (m : Report) :
  create_report w b seed s = (Ret m, s1) ->
  (send_fails w hub m ->
   exists message pre,
     send_report w hub b seed s = (Exited 1, pre ++ [EvStderr message]) /\
     forall fuel code s0,
       s = s0 ++ [EvSpawn (argv_of Debug seed); EvPrint "exit with code: {}"] ->
       child_exits w Debug seed code ->
       exit_disposition code = Found b ->
       fst (run_simulator w (S fuel) seed Debug (Some hub) s0) = Exited 1) /\
  (~ send_fails w hub m -> fst (send_report w hub b seed s) = Ret tt).
Proof.
  intros Hc. pose proof (send_report_unfold w hub b seed s s1 m Hc) as Hsend.
  unfold send_fails. split.
  - intros Hfail.
    assert (Hexit : exists message pre,
               send_report w hub b seed s = (Exited 1, pre ++ [EvStderr message])).
    { rewrite Hsend.
      destruct (tcpConnectToAddress w hub);
        [destruct (writeAll w (payload m)); [destruct (readAll w) |] |].
      - destruct Hfail as [H | [H | H]]; discriminate.
      - eexists. exists (s1 ++ [EvConnect hub; EvPrint "Connected to VOPR Hub.";
                                EvWrite (payload m); EvRead]).
        now rewrite <- app_assoc.
      - eexists. exists (s1 ++ [EvConnect hub; EvPrint "Connected to VOPR Hub.";
                                EvWrite (payload m)]).
        now rewrite <- app_assoc.
      - eexists. exists (s1 ++ [EvConnect hub]). now rewrite <- app_assoc. }
    destruct Hexit as (message & pre & Hexit). exists message, pre.
    split; [exact Hexit |].
    intros fuel code s0 -> Hchild Hfound.
    pose proof (run_simulator_unfold w fuel seed Debug (Some hub) s0 code
                  (or_introl eq_refl) Hchild) as Hrun.
    cbv zeta in Hrun. rewrite Hrun, Hfound. cbn [Mode_eqb].
    unfold bind. now rewrite Hexit.
  - intros Hok. rewrite Hsend.
    destruct (tcpConnectToAddress w hub); [| elim Hok; auto].
    destruct (writeAll w (payload m)); [| elim Hok; auto].
    destruct (readAll w); [reflexivity | elim Hok; auto].
Qed.

(** *** Concrete runs *)

(** A diagnostic run without a hub address whose simulator exits with 129. *)
Lemma exit_code_mapping_witness :
  child_exits (sample_world 129 129 true) Debug sample_seed 129 /\
  fst (run_simulator (sample_world 129 129 true) 1 sample_seed Debug None [])
  = Ret (Some correctness).
Proof.
  assert (H : child_exits (sample_world 129 129 true) Debug sample_seed 129)
    by (split; reflexivity).
  split; [exact H |].
  exact (proj2 (proj2 (exit_code_mapping (sample_world 129 129 true) 0
                         sample_seed Debug None [] 129 (or_introl eq_refl) H))
               eq_refl eq_refl).
Defined.


(** C3 (counterexample). The hub refuses the connection: the worker does not
    go on, [send_report] ends the process with exit code 1. *)
Lemma failed_send_counterexample :
  tcpConnectToAddress (sample_world 129 129 false) default_send_address = false /\
  send_report (sample_world 129 129 false) default_send_address correctness
    sample_seed []
  = (Exited 1,
     [EvPrint "Collecting VOPR bug and seed, and the current git commit hash.";
      EvGitLog; EvPrint "git commit that was retrieved: {s}";
      EvConnect default_send_address;
      EvStderr "error: unable to create a connection to the VOPR Hub. Error: {}"]) /\
  fst (run_simulator (sample_world 129 129 false) 2 sample_seed ReleaseSafe
         (Some default_send_address) []) = Exited 1.
Proof. repeat split; vm_compute; reflexivity. Qed.

(** The report is built, the hub refuses the connection. *)
Lemma failed_send_is_fatal_witness :
  create_report (sample_world 129 129 false) correctness sample_seed []
  = (Ret sample_report,
     [EvPrint "Collecting VOPR bug and seed, and the current git commit hash.";
      EvGitLog; EvPrint "git commit that was retrieved: {s}"]) /\
  send_fails (sample_world 129 129 false) default_send_address sample_report /\
  exists message pre,
    send_report (sample_world 129 129 false) default_send_address correctness
      sample_seed [] = (Exited 1, pre ++ [EvStderr message]).
Proof.
  assert (H1 : create_report (sample_world 129 129 false) correctness sample_seed []
               = (Ret sample_report,
                  [EvPrint "Collecting VOPR bug and seed, and the current git commit hash.";
                   EvGitLog; EvPrint "git commit that was retrieved: {s}"]))
    by reflexivity.
  assert (H2 : send_fails (sample_world 129 129 false) default_send_address
                 sample_report) by (left; reflexivity).
  split; [exact H1 | split; [exact H2 |]].
  destruct (proj1 (failed_send_is_fatal (sample_world 129 129 false)
                     default_send_address correctness sample_seed [] _ _ H1) H2)
    as (message & pre & Hsend & _).
  exists message, pre. exact Hsend.
Defined.

(** C1. What the worker puts on the wire is not the 45-byte report.  Every
    message [send_report] writes has 29 bytes: the bug byte, the seed in 8
    big-endian bytes and the 20 commit bytes, with no 16 checksum bytes in
    front.  For a correctness bug of seed 0x0123456789ABCDEF found at commit
    0a0b...1d the one message written is the 29 bytes below. *)
Theorem send_report_writes_29_bytes :
  (forall (w : World) (hub : Address) (b : Bug) (seed : Z) (s : list event),
     exists new,
       writes (snd (send_report w hub b seed s)) = writes s ++ new /\
       Forall (fun message =>
                 List.length message = 29%nat /\
                 List.length message <> 45%nat /\
                 report_payload w b seed message) new) /\
  writes (snd (send_report (sample_world 129 129 true) default_send_address
                 correctness sample_seed []))
  = [[1; 1; 35; 69; 103; 137; 171; 205; 239;
      10; 11; 12; 13; 14; 15; 16; 17; 18; 19; 20; 21; 22; 23; 24; 25; 26; 27;
      28; 29]].
Proof.
  split; [exact send_report_wire_messages | reflexivity].
Qed.

End VoprProperties.

(** ** The organizer *)

Section OrganizerProperties.

Import Organizer OrganizerSpec OrganizerRunSpec.

Context {Repo : Type} (w : World Repo).

(** Unfold the monad and the primitives of the organizer. *)
Ltac go_unfold :=
  cbv [bind ret exit panic stuck emit get_vars set_vars log_error log_debug
       log_info log_message].

(** C7 (as amended). The four variables are read in the order of the source.
    The first one that is missing or empty, or that is an integer not greater
    than 0 (NUM_VOPRS, CURRENT_VOPR), ends the process with exit code 1 right
    after its error line is logged.  A NUM_VOPRS or CURRENT_VOPR that is no
    integer ends it with a panic right after its error line: not by exit
    code 1.  Without a problem the function returns. *)
Theorem set_environment_variables_outcome (s : state Repo) :
  let out := fst (set_environment_variables w s) in
  let s' := snd (set_environment_variables w s) in
  match first_problem w with
  | None => out = Ret tt
  | Some (name, p) =>
      out = problem_outcome p /\
      (exists pre, trace s' = pre ++ [error_line name p]) /\
      repo s' = repo s
  end.
Proof.
  unfold first_problem, text_problem, count_problem, set_environment_variables,
    problem_outcome, error_line, lower_name.
  go_unfold.
  repeat (break_match; cbn [fst snd trace repo vars negb debug_mode
                           set_tigerbeetle_directory set_repository_url
                           set_num_voprs set_current_vopr String.eqb Ascii.eqb Bool.eqb]);
    try discriminate; try reflexivity.
  all: split; [reflexivity | split; [eexists; reflexivity | reflexivity]].
Qed.

Lemma parse_uint_nonneg (s0 str : string) :
  forall n m, 0 <= n -> parse_uint s0 str n = inr m -> 0 <= m.
Proof.
  induction str as [| c rest IH]; intros n m Hn; cbn [parse_uint].
  - now intros [= <-].
  - unfold digit_of. destruct (_ && _) eqn:Hd; [| discriminate].
    destruct (_ >? _); [discriminate |].
    apply IH. apply andb_prop in Hd. destruct Hd as [H1 H2].
    apply Z.leb_le in H1, H2. lia.
Qed.

Lemma Atoi_is_int (str : string) (n : Z) : Atoi str = inr n -> is_int n.
Proof.
  unfold Atoi, is_int, int_min, int_max.
  set (p := match str with
            | String "-" rest => (true, rest)
            | String "+" rest => (false, rest)
            | _ => (false, str)
            end).
  destruct p as [neg digits]. destruct digits as [| c rest]; [discriminate |].
  destruct (parse_uint str (String c rest) 0) as [e | un] eqn:Hp; [discriminate |].
  apply parse_uint_nonneg in Hp; [| lia].
  destruct neg; cbn [negb andb].
  - destruct (un >? 2 ^ 63) eqn:H; [discriminate |]. intros [= <-]. lia.
  - destruct (un >=? 2 ^ 63) eqn:H; [discriminate |]. intros [= <-]. lia.
Qed.

(** The configuration after a successful start. *)
Lemma set_environment_variables_ret (s s' : state Repo) :
  set_environment_variables w s = (Ret tt, s') ->
  1 <= num_voprs (vars s') /\ is_int (num_voprs (vars s')) /\
  1 <= current_vopr (vars s') /\ is_int (current_vopr (vars s')) /\
  repo s' = repo s /\ git_events (trace s') = git_events (trace s).
Proof.
  unfold set_environment_variables.
  destruct (LookupEnv w "TIGERBEETLE_DIRECTORY") as [dir |]; [| discriminate].
  destruct (LookupEnv w "REPOSITORY_URL") as [url |];
    [| go_unfold; repeat (break_match; cbn); discriminate].
  destruct (LookupEnv w "NUM_VOPRS") as [num |];
    [| go_unfold; repeat (break_match; cbn); discriminate].
  destruct (LookupEnv w "CURRENT_VOPR") as [cur |];
    [| go_unfold; repeat (break_match; cbn); discriminate].
  destruct (Atoi num) as [e | n] eqn:Hn;
    [go_unfold; repeat (break_match; cbn); discriminate |].
  destruct (Atoi cur) as [e | c] eqn:Hc;
    [go_unfold; repeat (break_match; cbn); discriminate |].
  apply Atoi_is_int in Hn, Hc. unfold is_int, int_min, int_max in *.
  destruct (Z.leb_spec n 0);
    [go_unfold; repeat (break_match; cbn); discriminate |].
  destruct (Z.leb_spec c 0);
    [go_unfold; repeat (break_match; cbn); discriminate |].
  unfold git_events. go_unfold.
  repeat (break_match; cbn); try discriminate; intros [= <-]; cbn;
    rewrite ?filter_app; cbn; rewrite ?app_nil_r; repeat split; auto; lia.
Qed.

(** *** Checking out *)

Lemma git_events_app (a b : list event) :
  git_events (a ++ b) = git_events a ++ git_events b.
Proof. apply filter_app. Qed.

(** A name followed by something is not that name. *)
Lemma append_neq (a b : string) : b <> ""%string -> (a ++ b)%string <> a.
Proof.
  intros Hb. induction a as [| c a IH]; cbn [append]; [exact Hb |].
  intros [= H]. now apply IH.
Qed.

(** [checkout_branch] after a fetch and a checkout that succeed: the three
    commands were run in order, and what [git branch --show-current] printed
    is compared with the requested name. *)
Lemma checkout_branch_checked_out (branch dir printed : string)
    (s : state Repo) :
  let fetched := git_fetch w dir (repo s) in
  let checked := git_checkout w branch dir (snd fetched) in
  fst fetched = None -> fst checked = None ->
  git_show_current w dir (snd checked) = (printed, None) ->
  checkout_branch w branch dir s
  = (Ret (if String.eqb printed branch then None
          else Some "Checkout failed"%string),
     {| vars := vars s; trace := trace s ++ checkout_commands branch dir;
        repo := snd checked |}).
Proof.
  intros fetched checked. subst checked fetched.
  destruct (git_fetch w dir (repo s)) as [e1 r1] eqn:Hf. cbn [fst snd].
  intros ->.
  destruct (git_checkout w branch dir r1) as [e2 r2] eqn:Hc. cbn [fst snd].
  intros -> Hshown.
  unfold checkout_branch, run_git_fetch, run_git_checkout, run_git_show_current,
    checkout_commands.
  go_unfold. cbn [repo trace vars]. rewrite Hf. cbn [repo trace vars].
  rewrite Hc. cbn [repo trace vars]. rewrite Hshown. cbn [fst snd].
  destruct (String.eqb printed branch); cbn [negb];
    now rewrite <- !app_assoc.
Qed.

(** *** Assigning commits to VOPRs *)

Lemma int_wrap_id (z : Z) : is_int z -> int_wrap z = z.
Proof.
  unfold is_int, int_min, int_max, int_wrap. intros H.
  rewrite Z.mod_small; lia.
Qed.

Lemma index_nth_error {A} (l : list A) (j : nat) (c : A) (s : state Repo) :
  nth_error l j = Some c -> index l (Z.of_nat j) s = (Ret c, s).
Proof.
  intros H. unfold index, len.
  assert (j < List.length l)%nat by (apply nth_error_Some; congruence).
  destruct (Z.leb_spec 0 (Z.of_nat j)); [| lia].
  destruct (Z.ltb_spec (Z.of_nat j) (Z.of_nat (List.length l))); [| lia].
  cbn [andb]. rewrite Nat2Z.id, H. reflexivity.
Qed.

Lemma repeats_loop_spec (vc : list string) (j : nat) (c : string)
    (s : state Repo) :
  nth_error vc j = Some c ->
  forall count acc i,
    int_min <= i -> i + Z.of_nat count <= int_max ->
    repeats_loop count vc (Z.of_nat j) acc i s
    = (Ret (acc ++ repeat c count, i + Z.of_nat count), s).
Proof.
  intros Hc. induction count as [| count IH]; intros acc i Hlo Hhi.
  - cbn. now rewrite app_nil_r, Z.add_0_r.
  - cbn [repeats_loop]. unfold bind at 1.
    rewrite (index_nth_error _ _ _ _ Hc).
    unfold int_add. rewrite int_wrap_id by (unfold is_int; lia).
    rewrite IH by lia. cbn [repeat].
    rewrite <- app_assoc. cbn [app]. do 3 f_equal. lia.
Qed.

Lemma distribute_0_0 (l : list string) : distribute l 0 0 = [].
Proof. induction l as [| c l IH]; [reflexivity | exact IH]. Qed.

Lemma skipn_nth_error {A} (l : list A) (j : nat) :
  (j < List.length l)%nat ->
  exists c, nth_error l j = Some c /\ skipn j l = c :: skipn (S j) l.
Proof.
  revert j. induction l as [| a l IH]; intros j H; cbn in H; [lia |].
  destruct j as [| j]; [now exists a |].
  destruct (IH j) as (c & Hc & Hs); [lia |]. exists c. now split.
Qed.

(** The loop of [get_vopr_assignments]: [m] commits are left from index [j]
    on, and [n - i] slots, which are [qn] for each of them and [rn] more. *)
Lemma assign_loop_spec (vc : list string) (qn : nat) (s : state Repo) :
  num_voprs (vars s) <= int_max ->
  len vc <= int_max ->
  forall m fuel rn i j acc,
    (j + m = List.length vc)%nat ->
    (rn <= m)%nat ->
    num_voprs (vars s) - i = Z.of_nat qn * Z.of_nat m + Z.of_nat rn ->
    1 <= i ->
    let run := assign_loop fuel vc (Z.of_nat qn) (Z.of_nat rn) i (Z.of_nat j) acc s in
    let done := (Ret (acc ++ distribute (skipn j vc) qn rn), s) in
    ((m <= fuel)%nat -> run = done) /\ (fst run = Stuck \/ run = done).
Proof.
  intros Hn Hk. unfold len in Hk.
  induction m as [| m IH]; intros fuel rn i j acc Hj Hr Hinv Hi run done;
    subst run done.
  - assert (rn = 0%nat) by lia. subst rn.
    assert (Hdone : forall f, assign_loop f vc (Z.of_nat qn) (Z.of_nat 0) i
                                (Z.of_nat j) acc s
                              = (Ret (acc ++ distribute (skipn j vc) qn 0), s)).
    { intros f. rewrite skipn_all2 by lia. cbn [distribute]. rewrite app_nil_r.
      destruct f; cbn [assign_loop]; go_unfold;
        destruct (Z.ltb_spec i (num_voprs (vars s))); try lia; reflexivity. }
    rewrite Hdone. auto.
  - destruct (skipn_nth_error vc j) as (c & Hc & Hskip); [lia |].
    rewrite Hskip. cbn [distribute].
    destruct (Z.ltb_spec i (num_voprs (vars s))) as [Hlt | Hge].
    + destruct fuel as [| fuel].
      * cbn [assign_loop]. go_unfold.
        destruct (Z.ltb_spec i (num_voprs (vars s))); [| lia].
        split; [lia | now left].
      * assert (Hstep :
          assign_loop (S fuel) vc (Z.of_nat qn) (Z.of_nat rn) i (Z.of_nat j) acc s
          = assign_loop fuel vc (Z.of_nat qn) (Z.of_nat (pred rn))
              (i + Z.of_nat qn + match rn with O => 0 | S _ => 1 end)
              (Z.of_nat (S j))
              (acc ++ repeat c qn ++ match rn with O => [] | S _ => [c] end) s).
        { cbn [assign_loop]. unfold bind at 1. unfold get_vars at 1.
          destruct (Z.ltb_spec i (num_voprs (vars s))); [| lia].
          unfold bind at 1. rewrite Nat2Z.id.
          rewrite (repeats_loop_spec vc j c s Hc) by (unfold int_min; nia).
          unfold int_add, int_sub.
          rewrite (int_wrap_id (Z.of_nat j + 1)) by (unfold is_int, int_min; lia).
          replace (Z.of_nat j + 1) with (Z.of_nat (S j)) by lia.
          destruct rn as [| rn].
          - cbn [Z.of_nat Z.gtb Z.compare pred]. unfold bind at 1. unfold ret at 1.
            now rewrite Z.add_0_r, app_nil_r.
          - destruct (Z.gtb_spec (Z.of_nat (S rn)) 0); [| lia].
            unfold bind at 1. unfold bind at 1.
            rewrite (index_nth_error _ _ _ _ Hc).
            unfold ret at 1.
            rewrite (int_wrap_id (Z.of_nat (S rn) - 1))
              by (unfold is_int, int_min, int_max in *; lia).
            rewrite (int_wrap_id (i + Z.of_nat qn + 1))
              by (unfold is_int, int_min; nia).
            replace (Z.of_nat (S rn) - 1) with (Z.of_nat rn) by lia.
            cbn [pred]. now rewrite <- app_assoc. }
        rewrite Hstep.
        specialize (IH fuel (pred rn)
                       (i + Z.of_nat qn + match rn with O => 0 | S _ => 1 end)
                       (S j)
                       (acc ++ repeat c qn ++ match rn with O => [] | S _ => [c] end)).
        cbv zeta in IH. rewrite <- !app_assoc in IH.
        destruct IH as [IH1 IH2]; try (destruct rn; nia).
        split; [intros Hf; apply IH1; lia | exact IH2].
    + assert (qn = 0%nat) by nia. assert (rn = 0%nat) by nia. subst qn rn.
      cbn [repeat app pred]. rewrite distribute_0_0, app_nil_r.
      assert (Hdone : forall f, assign_loop f vc (Z.of_nat 0) (Z.of_nat 0) i
                                  (Z.of_nat j) acc s = (Ret acc, s)).
      { intros f. destruct f; cbn [assign_loop]; go_unfold;
          destruct (Z.ltb_spec i (num_voprs (vars s))); try lia; reflexivity. }
      rewrite Hdone. auto.
Qed.

(** *** [distribute] against round-robin *)

Lemma distribute_length (l : list string) (q : nat) :
  forall r, List.length (distribute l q r)
            = (q * List.length l + Nat.min r (List.length l))%nat.
Proof.
  induction l as [| c l IH]; intros r; cbn [distribute List.length].
  - lia.
  - rewrite !length_app, repeat_length, IH. destruct r; cbn [List.length pred]; lia.
Qed.

Lemma distribute_firstn (l : list string) (q : nat) :
  forall r, Permutation (distribute l q r)
                        (flat_map (fun c => repeat c q) l ++ firstn r l).
Proof.
  induction l as [| c l IH]; intros r; cbn [distribute flat_map].
  - now rewrite firstn_nil.
  - rewrite <- app_assoc. apply Permutation_app_head.
    destruct r as [| r]; cbn [firstn pred app].
    + rewrite (IH 0%nat). reflexivity.
    + rewrite (IH r). apply Permutation_middle.
Qed.

Lemma flat_map_repeat_S (l : list string) (q : nat) :
  Permutation (flat_map (fun c => repeat c (S q)) l)
              (l ++ flat_map (fun c => repeat c q) l).
Proof.
  induction l as [| c l IH]; cbn [flat_map repeat app]; [reflexivity |].
  apply perm_skip. rewrite IH. apply Permutation_app_swap_app.
Qed.

Lemma flat_map_repeat_concat (l : list string) (q : nat) :
  Permutation (flat_map (fun c => repeat c q) l) (List.concat (repeat l q)).
Proof.
  induction q as [| q IH].
  - induction l as [| c l IHl]; [reflexivity | exact IHl].
  - rewrite flat_map_repeat_S. cbn [repeat List.concat].
    now apply Permutation_app_head.
Qed.

Lemma map_nth_seq (l : list string) (d : string) :
  forall r, (r <= List.length l)%nat ->
  map (fun i => nth i l d) (seq 0 r) = firstn r l.
Proof.
  induction l as [| c l IH]; intros r Hr; cbn [List.length] in Hr.
  - assert (r = 0%nat) by lia. now subst.
  - destruct r as [| r]; [reflexivity |].
    cbn [seq map firstn nth]. f_equal.
    rewrite <- seq_shift, map_map. apply IH. lia.
Qed.

Lemma round_robin_small (l : list string) (r : nat) :
  (r <= List.length l)%nat -> round_robin l r = firstn r l.
Proof.
  intros Hr. unfold round_robin. rewrite <- (map_nth_seq l "" r Hr).
  apply map_ext_in. intros i Hi. apply in_seq in Hi.
  rewrite Nat.mod_small by lia. reflexivity.
Qed.

Lemma round_robin_shift (l : list string) (m : nat) :
  forall a,
    map (fun i => nth (i mod List.length l) l "") (seq (a + List.length l) m)
    = map (fun i => nth (i mod List.length l) l "") (seq a m).
Proof.
  induction m as [| m IH]; intros a; [reflexivity |].
  cbn [seq map]. f_equal.
  - replace (a + List.length l)%nat with (a + 1 * List.length l)%nat by lia.
    now rewrite Nat.Div0.mod_add.
  - apply (IH (S a)).
Qed.

Lemma round_robin_rounds (l : list string) (q r : nat) :
  (r <= List.length l)%nat ->
  round_robin l (q * List.length l + r) = List.concat (repeat l q) ++ firstn r l.
Proof.
  intros Hr. induction q as [| q IH]; cbn [repeat List.concat app].
  - now apply round_robin_small.
  - unfold round_robin in *.
    replace (S q * List.length l + r)%nat
      with (List.length l + (q * List.length l + r))%nat by lia.
    rewrite seq_app, map_app, <- app_assoc. f_equal.
    + fold (round_robin l (List.length l)).
      rewrite round_robin_small by lia. apply firstn_all.
    + rewrite (round_robin_shift l _ 0). exact IH.
Qed.

Lemma distribute_round_robin (l : list string) (q r : nat) :
  (r <= List.length l)%nat ->
  Permutation (distribute l q r) (round_robin l (q * List.length l + r)).
Proof.
  intros Hr. rewrite round_robin_rounds by exact Hr.
  rewrite distribute_firstn. apply Permutation_app_tail.
  apply flat_map_repeat_concat.
Qed.

(** *** Requests to the tracker *)

Lemma same_outside_refl (s : state Repo) : same_outside s s.
Proof. now repeat split. Qed.

Lemma same_outside_trans (s1 s2 s3 : state Repo) :
  same_outside s1 s2 -> same_outside s2 s3 -> same_outside s1 s3.
Proof. unfold same_outside. intros (? & ? & ?) (? & ? & ?). repeat split; congruence. Qed.

Lemma emit_same_outside (e : event) (s : state Repo) :
  is_git e = false -> same_outside s (snd (emit e s)).
Proof.
  intros He. unfold same_outside, emit, git_events. cbn.
  rewrite filter_app. cbn. rewrite He. now rewrite app_nil_r.
Qed.

Lemma check_response_outcome {A} (res : Response) (decoded : string + A)
    (s : state Repo) :
  forall out s', check_response res decoded s = (out, s') ->
  same_outside s s' /\ tracker_outcome out /\
  (forall v, out = Ret v ->
     decoded = inr v /\ s' = s /\ get_error res = None /\
     StatusCode res <= 299 /\ read_error res = None).
Proof.
  intros out s'. unfold check_response. go_unfold.
  destruct (get_error res);
    [intros [= <- <-]; split; [apply (emit_same_outside (EvLog _ _)); reflexivity |
                               split; [exact I | discriminate]] |].
  destruct (Z.gtb_spec (StatusCode res) 299).
  - destruct (read_error res); intros [= <- <-];
      (split; [apply (emit_same_outside (EvLog _ _)); reflexivity |
               split; [exact I | discriminate]]).
  - destruct (read_error res);
      [intros [= <- <-]; split; [apply (emit_same_outside (EvLog _ _)); reflexivity |
                                 split; [exact I | discriminate]] |].
    destruct decoded; intros [= <- <-].
    + split; [apply (emit_same_outside (EvLog _ _)); reflexivity |
              split; [exact I | discriminate]].
    + split; [apply same_outside_refl | split; [exact I |]].
      intros v [= <-]. repeat split; auto.
Qed.

Lemma get_commits_outcome (branch_name : string) (s : state Repo) :
  forall out s', Commits.get_commits w branch_name s = (out, s') ->
  same_outside s s' /\ tracker_outcome out.
Proof.
  intros out s'. unfold Commits.get_commits, http_get.
  unfold bind at 1. unfold get_vars at 1.
  unfold bind at 1. unfold bind at 1. unfold emit at 1. unfold ret at 1.
  set (s1 := {| vars := vars s; trace := _; repo := repo s |}).
  assert (H1 : same_outside s s1)
    by (apply (emit_same_outside (EvHttpGet _)); reflexivity).
  unfold bind at 1.
  destruct (check_response _ _ s1) as [r s2] eqn:Hc.
  destruct (check_response_outcome _ _ _ _ _ Hc) as (H2 & Ho & _).
  destruct r as [commits | | |]; try (intros [= <- <-]; split;
    [eapply same_outside_trans; eauto | exact Ho]).
  destruct commits; intros [= <- <-]; split;
    try (eapply same_outside_trans; eauto); exact I.
Qed.

(** *** [get_vopr_assignments] *)

Lemma assignment_counts (n k : Z) :
  1 <= n <= int_max -> 0 < k ->
  int_sub n 1 = n - 1 /\
  int_wrap (Z.quot (n - 1) k) = Z.of_nat (Z.to_nat ((n - 1) / k)) /\
  Z.rem (n - 1) k = Z.of_nat (Z.to_nat ((n - 1) mod k)) /\
  n - 1 = Z.of_nat (Z.to_nat ((n - 1) / k)) * k + Z.of_nat (Z.to_nat ((n - 1) mod k)) /\
  (n - 1) mod k < k.
Proof.
  intros Hn Hk. unfold int_sub.
  assert (Hq : 0 <= (n - 1) / k <= n - 1).
  { split; [apply Z.div_pos; lia |]. apply Z.div_le_upper_bound; nia. }
  assert (Hr : 0 <= (n - 1) mod k < k) by (apply Z.mod_pos_bound; lia).
  rewrite Z.quot_div_nonneg, Z.rem_mod_nonneg by lia.
  rewrite !int_wrap_id by (unfold is_int, int_min, int_max in *; lia).
  rewrite !Z2Nat.id by lia.
  repeat split; try lia.
  rewrite (Z.div_mod (n - 1) k) at 1 by lia. lia.
Qed.

(** Both revisions, once the first entry is decided. *)
Lemma assign_from_start (fuel : nat) (vc : list string) (acc : list string)
    (s : state Repo) :
  let n := num_voprs (vars s) in
  let q := Z.to_nat ((n - 1) / len vc) in
  let r := Z.to_nat ((n - 1) mod len vc) in
  1 <= n <= int_max -> vc <> [] -> len vc <= int_max ->
  let run :=
    (repeats <- int_quo (int_sub n 1) (len vc) ;;
     remainders <- int_rem (int_sub n 1) (len vc) ;;
     assign_loop fuel vc repeats remainders 1 0 acc)%eff s in
  let done := (Ret (acc ++ distribute vc q r), s) in
  ((List.length vc <= fuel)%nat -> run = done) /\
  (fst run = Stuck \/ run = done).
Proof.
  intros n q r Hn Hvc Hk run done. subst run done.
  assert (Hpos : 0 < len vc).
  { unfold len. destruct vc; [congruence | cbn [List.length]; lia]. }
  destruct (assignment_counts n (len vc) Hn Hpos) as (E1 & E2 & E3 & E4 & E5).
  unfold int_quo, int_rem.
  destruct (Z.eqb_spec (len vc) 0); [lia |].
  unfold bind at 1. unfold ret at 1. unfold bind at 1. unfold ret at 1.
  rewrite E1, E2, E3. fold q r. fold q r in E4.
  pose proof (assign_loop_spec vc q s (proj2 Hn) Hk (List.length vc) fuel r 1
                0%nat acc) as H.
  cbv zeta in H. cbn [skipn Z.of_nat] in H.
  apply H; try lia.
  - subst r. unfold len in *. lia.
  - unfold len in E4. fold n. lia.
Qed.

Lemma index_outcome {A} (l : list A) (i : Z) (s : state Repo) :
  forall out s', index l i s = (out, s') -> s' = s /\ loop_outcome out.
Proof.
  intros out s'. unfold index. destruct (_ && _); [| now intros [= <- <-]].
  destruct (nth_error l (Z.to_nat i)); now intros [= <- <-].
Qed.

Lemma repeats_loop_outcome (vc : list string) (idx : Z) (s : state Repo) :
  forall count acc i out s',
    repeats_loop count vc idx acc i s = (out, s') -> s' = s /\ loop_outcome out.
Proof.
  induction count as [| count IH]; intros acc i out s'; cbn [repeats_loop].
  - now intros [= <- <-].
  - unfold bind at 1.
    destruct (index vc idx s) as [r s1] eqn:Hi.
    destruct (index_outcome _ _ _ _ _ Hi) as [-> Ho].
    destruct r; try (now intros [= <- <-]). apply IH.
Qed.

(** The loop ends with a list, with an index out of range, or out of fuel;
    it divides nothing and leaves the state alone. *)
Lemma assign_loop_outcome (vc : list string) (repeats : Z) (s : state Repo) :
  forall fuel remainders i idx acc out s',
    assign_loop fuel vc repeats remainders i idx acc s = (out, s') ->
    s' = s /\ loop_outcome out.
Proof.
  induction fuel as [| fuel IH]; intros remainders i idx acc out s';
    cbn [assign_loop]; unfold bind at 1; unfold get_vars at 1;
    destruct (i <? num_voprs (vars s)); try (now intros [= <- <-]).
  unfold bind at 1.
  destruct (repeats_loop (Z.to_nat repeats) vc idx acc i s) as [r s1] eqn:Hr.
  destruct (repeats_loop_outcome _ _ _ _ _ _ _ _ Hr) as [-> Ho].
  destruct r as [[acc' i'] | | |]; try (now intros [= <- <-]).
  destruct (remainders >? 0).
  - unfold bind at 1. unfold bind at 1.
    destruct (index vc idx s) as [r s1] eqn:Hi.
    destruct (index_outcome _ _ _ _ _ Hi) as [-> Ho'].
    destruct r; try (now intros [= <- <-]). unfold ret at 1. apply IH.
  - unfold bind at 1. unfold ret at 1. apply IH.
Qed.

(** C5 (as amended). With [num_voprs] at least 1, a non-empty list of
    resolved commits and a mainline commit that the tracker resolves to a
    non-empty id, the assignment has the mainline commit first ("main" in the
    branch-assigning revision) and then the commits in list order, each on
    [(n - 1) / k] consecutive slots and each of the first [(n - 1) mod k]
    commits on one more.  It has exactly [num_voprs] entries, and its tail
    holds every commit as often as dealing the [n - 1] slots round-robin
    over the list does. *)
Theorem get_vopr_assignments_distributes (fuel : nat) (vc : list string)
    (s s1 : state Repo) (main : string) :
  let n := num_voprs (vars s) in
  let q := Z.to_nat ((n - 1) / len vc) in
  let r := Z.to_nat ((n - 1) mod len vc) in
  1 <= n <= int_max ->
  vc <> [] ->
  len vc <= int_max ->
  (List.length vc <= fuel)%nat ->
  Commits.get_commits w "main" s = (Ret main, s1) ->
  main <> ""%string ->
  Commits.get_vopr_assignments w fuel vc s
  = (Ret (main :: distribute vc q r), s1) /\
  Branches.get_vopr_assignments fuel vc s
  = (Ret ("main"%string :: distribute vc q r), s) /\
  List.length (main :: distribute vc q r) = Z.to_nat n /\
  Permutation (distribute vc q r) (round_robin vc (Z.to_nat (n - 1))).
Proof.
  intros n q r Hn Hvc Hk Hfuel Hmain Hne.
  assert (Hpos : 0 < len vc).
  { unfold len. destruct vc; [congruence | cbn [List.length]; lia]. }
  destruct (get_commits_outcome _ _ _ _ Hmain) as ((Hvars & _) & _).
  destruct (assignment_counts n (len vc) Hn Hpos) as (_ & _ & _ & E4 & E5).
  fold q r in E4.
  assert (Hr : (r <= List.length vc)%nat) by (subst r; unfold len in *; lia).
  split; [| split; [| split]].
  - unfold Commits.get_vopr_assignments.
    unfold bind at 1. unfold get_vars at 1.
    destruct (Z.gtb_spec (len vc) 0); [| lia].
    unfold bind at 1. rewrite Hmain.
    destruct (String.eqb_spec main ""); [congruence |]. cbn [negb app].
    pose proof (assign_from_start fuel vc [main] s1) as Hrun.
    cbv zeta in Hrun. rewrite Hvars in Hrun. fold n q r in Hrun.
    apply Hrun; auto.
  - unfold Branches.get_vopr_assignments.
    unfold bind at 1. unfold get_vars at 1.
    destruct (Z.gtb_spec (len vc) 0); [| lia]. cbn [app].
    pose proof (assign_from_start fuel vc ["main"%string] s) as Hrun.
    cbv zeta in Hrun. fold n q r in Hrun. apply Hrun; auto.
  - cbn [List.length]. rewrite distribute_length.
    rewrite Nat.min_l by exact Hr. unfold len in E4. lia.
  - replace (Z.to_nat (n - 1)) with (q * List.length vc + r)%nat
      by (unfold len in E4; lia).
    now apply distribute_round_robin.
Qed.

(** C9 (as amended). [get_vopr_assignments] divides by the number of
    resolved pull requests only when that number is positive: whatever the
    list and the state, it does not end with a division by zero.  With an
    empty list every VOPR is assigned "main" (branch-assigning revision) or
    the mainline commit, when the tracker resolves it to a non-empty id
    (commit-resolving revision); when that id is empty, nothing is
    assigned. *)
Theorem get_vopr_assignments_division_guarded (fuel : nat) (vc : list string)
    (s : state Repo) :
  let n := num_voprs (vars s) in
  fst (Commits.get_vopr_assignments w fuel vc s) <> Panicked PanicDivideByZero /\
  fst (Branches.get_vopr_assignments fuel vc s) <> Panicked PanicDivideByZero /\
  (vc = [] ->
   Branches.get_vopr_assignments fuel vc s
   = (Ret (repeat "main"%string (Z.to_nat n)), s) /\
   forall main s1,
     Commits.get_commits w "main" s = (Ret main, s1) ->
     Commits.get_vopr_assignments w fuel vc s
     = (Ret (if String.eqb main "" then [] else repeat main (Z.to_nat n)), s1)).
Proof.
  intros n.
  assert (Hloop : forall (s0 : state Repo) acc,
    fst ((repeats <- int_quo (int_sub (num_voprs (vars s)) 1) (len vc) ;;
          remainders <- int_rem (int_sub (num_voprs (vars s)) 1) (len vc) ;;
          assign_loop fuel vc repeats remainders 1 0 acc)%eff s0)
    <> Panicked PanicDivideByZero \/ len vc = 0).
  { intros s0 acc. unfold int_quo, int_rem.
    destruct (Z.eqb_spec (len vc) 0); [now right | left].
    unfold bind at 1. unfold ret at 1. unfold bind at 1. unfold ret at 1.
    destruct (assign_loop _ _ _ _ _ _ _ s0) as [out s'] eqn:Hl.
    destruct (assign_loop_outcome _ _ _ _ _ _ _ _ _ _ Hl) as [_ Ho].
    cbn [fst]. intros ->. exact Ho. }
  split; [| split].
  - unfold Commits.get_vopr_assignments.
    unfold bind at 1. unfold get_vars at 1.
    destruct (Z.gtb_spec (len vc) 0) as [Hpos | Hzero].
    + unfold bind at 1.
      destruct (Commits.get_commits w "main" s) as [out s1] eqn:Hmain.
      destruct (get_commits_outcome _ _ _ _ Hmain) as (_ & Ho).
      destruct out as [main | | p |]; try discriminate.
      * destruct (Hloop s1 (if negb (String.eqb main "") then [] ++ [main] else []))
          as [H | H]; [exact H | lia].
      * destruct p; cbn in Ho; try contradiction; discriminate.
    + unfold bind at 1.
      destruct (Commits.get_commits w "main" s) as [out s1] eqn:Hmain.
      destruct (get_commits_outcome _ _ _ _ Hmain) as (_ & Ho).
      destruct out as [main | | p |]; try discriminate.
      * destruct (negb (String.eqb main "")); discriminate.
      * destruct p; cbn in Ho; try contradiction; discriminate.
  - unfold Branches.get_vopr_assignments.
    unfold bind at 1. unfold get_vars at 1.
    destruct (Z.gtb_spec (len vc) 0) as [Hpos | Hzero]; [| discriminate].
    destruct (Hloop s ([] ++ ["main"%string])) as [H | H]; [exact H | lia].
  - intros ->. split.
    + reflexivity.
    + intros main s1 Hmain. unfold Commits.get_vopr_assignments.
      unfold bind at 1. unfold get_vars at 1. cbn [len List.length Z.of_nat Z.gtb Z.compare].
      unfold bind at 1. rewrite Hmain.
      destruct (String.eqb main ""); reflexivity.
Qed.

(** *** Collecting the commits: what holds for every tracker *)

Lemma get_pull_requests_outcome (num_posts page_number : Z) (s : state Repo) :
  forall out s', Commits.get_pull_requests w num_posts page_number s = (out, s') ->
  same_outside s s' /\ tracker_outcome out.
Proof.
  intros out s'. unfold Commits.get_pull_requests, http_get.
  unfold bind at 1. unfold get_vars at 1.
  unfold bind at 1. unfold bind at 1. unfold emit at 1. unfold ret at 1.
  set (s1 := {| vars := vars s; trace := _; repo := repo s |}).
  assert (H1 : same_outside s s1)
    by (apply (emit_same_outside (EvHttpGet _)); reflexivity).
  unfold bind at 1.
  destruct (check_response _ _ s1) as [r s2] eqn:Hc.
  destruct (check_response_outcome _ _ _ _ _ Hc) as (H2 & Ho & _).
  destruct r as [prs | | |];
    [| intros [= <- <-]; split; [eapply same_outside_trans; eauto | exact Ho] ..].
  unfold bind at 1. unfold emit at 1. unfold ret at 1. intros [= <- <-].
  split; [| exact I].
  eapply same_outside_trans; [exact H1 |].
  eapply same_outside_trans; [exact H2 |].
  apply (emit_same_outside (EvPrint _)). reflexivity.
Qed.

Lemma labels_loop_outcome (element : Issue) (vc : list string) (s : state Repo) :
  forall labels out s',
    Commits.labels_loop w labels element vc s = (out, s') ->
    same_outside s s' /\ tracker_outcome out /\
    (forall vc', out = Ret vc' -> len vc <= len vc' <= len vc + 1).
Proof.
  induction labels as [| label rest IH]; intros out s'; cbn [Commits.labels_loop].
  - intros [= <- <-]. split; [apply same_outside_refl | split; [exact I |]].
    intros vc' [= <-]. lia.
  - destruct (String.eqb (Name label) "vopr"); [| apply IH].
    destruct (Cut (HeadLabel (IssueHead element)) ":") as [[before branch_name] found].
    destruct (found && negb (String.eqb branch_name "")).
    + unfold bind at 1.
      destruct (Commits.get_commits w branch_name s) as [r s1] eqn:Hc.
      destruct (get_commits_outcome _ _ _ _ Hc) as (H1 & Ho).
      destruct r as [commit | | |]; try (intros [= <- <-];
        split; [exact H1 | split; [exact Ho | discriminate]]).
      destruct (negb (String.eqb commit "")); intros [= <- <-];
        (split; [exact H1 | split; [exact I |]]); intros vc' [= <-];
        unfold len; rewrite ?length_app; cbn [List.length]; lia.
    + intros [= <- <-]. split; [apply same_outside_refl | split; [exact I |]].
      intros vc' [= <-]. lia.
Qed.

Lemma elements_loop_outcome (prs : list Issue) :
  forall vc (s : state Repo) out s',
    Commits.elements_loop w prs vc s = (out, s') ->
    same_outside s s' /\ tracker_outcome out /\
    (forall vc', out = Ret vc' ->
       len vc < int_sub (num_voprs (vars s)) 1 ->
       len vc' <= int_sub (num_voprs (vars s)) 1).
Proof.
  induction prs as [| element rest IH]; intros vc s out s';
    cbn [Commits.elements_loop].
  - intros [= <- <-]. split; [apply same_outside_refl | split; [exact I |]].
    intros vc' [= <-]. lia.
  - unfold bind at 1.
    destruct (Commits.labels_loop w (Labels element) element vc s) as [r s1] eqn:Hl.
    destruct (labels_loop_outcome _ _ _ _ _ _ Hl) as (H1 & Ho & Hlen).
    destruct r as [vc1 | | |]; try (intros [= <- <-];
      split; [exact H1 | split; [exact Ho | discriminate]]).
    unfold bind at 1. unfold get_vars at 1.
    assert (Hv : vars s1 = vars s) by apply H1. rewrite Hv.
    destruct (Z.eqb_spec (len vc1) (int_sub (num_voprs (vars s)) 1)) as [Heq | Hne].
    + intros [= <- <-]. split; [exact H1 | split; [exact I |]].
      intros vc' [= <-] _. lia.
    + intros Hrest. destruct (IH _ _ _ _ Hrest) as (H2 & Ho2 & Hlen2).
      split; [eapply same_outside_trans; eauto | split; [exact Ho2 |]].
      intros vc' Hvc' Hle. rewrite Hv in Hlen2. apply Hlen2; [exact Hvc' |].
      specialize (Hlen vc1 eq_refl). lia.
Qed.

Lemma pages_loop_outcome (num_posts : Z) :
  forall fuel i vc (s : state Repo) out s',
    Commits.pages_loop w fuel num_posts i vc s = (out, s') ->
    same_outside s s' /\ (tracker_outcome out \/ out = Stuck) /\
    (forall vc', out = Ret vc' ->
       len vc' <= Z.max (len vc) (int_sub (num_voprs (vars s)) 1)).
Proof.
  induction fuel as [| fuel IH]; intros i vc s out s';
    cbn [Commits.pages_loop]; unfold bind at 1; unfold get_vars at 1;
    destruct (Z.ltb_spec (len vc) (int_sub (num_voprs (vars s)) 1)) as [Hlt | Hge];
    try (intros [= <- <-]; split; [apply same_outside_refl |
           split; [now left | intros vc' [= <-]; lia]]).
  - intros [= <- <-]. split; [apply same_outside_refl | split; [now right | discriminate]].
  - unfold bind at 1.
    destruct (Commits.get_pull_requests w num_posts i s) as [r s1] eqn:Hp.
    destruct (get_pull_requests_outcome _ _ _ _ _ Hp) as (H1 & Ho).
    destruct r as [prs | | |]; try (intros [= <- <-];
      split; [exact H1 | split; [now left | discriminate]]).
    unfold bind at 1.
    destruct (Commits.elements_loop w prs vc s1) as [r s2] eqn:He.
    destruct (elements_loop_outcome _ _ _ _ _ He) as (H2 & Ho2 & Hlen).
    assert (Hv1 : vars s1 = vars s) by apply H1.
    assert (Hv2 : vars s2 = vars s1) by apply H2.
    destruct r as [vc1 | | |]; try (intros [= <- <-];
      split; [eapply same_outside_trans; eauto | split; [now left | discriminate]]).
    rewrite Hv1 in Hlen. specialize (Hlen vc1 eq_refl ltac:(lia)).
    destruct (len prs <? num_posts).
    + intros [= <- <-].
      split; [eapply same_outside_trans; eauto | split; [now left |]].
      intros vc' [= <-]. lia.
    + intros Hrest. destruct (IH _ _ _ _ _ Hrest) as (H3 & Ho3 & Hlen3).
      split; [eapply same_outside_trans; [| exact H3];
              eapply same_outside_trans; eauto | split; [exact Ho3 |]].
      intros vc' Hvc'. specialize (Hlen3 vc' Hvc').
      rewrite Hv2, Hv1 in Hlen3. lia.
Qed.

(** *** The guarded checkout at the end of [main] *)

Lemma untouched_refl (s : state Repo) : untouched s s.
Proof. now split. Qed.

Lemma untouched_trans (s1 s2 s3 : state Repo) :
  untouched s1 s2 -> untouched s2 s3 -> untouched s1 s3.
Proof. unfold untouched. intros [? ?] [? ?]. split; congruence. Qed.

Lemma same_outside_untouched (s s' : state Repo) :
  same_outside s s' -> untouched s s'.
Proof. intros (_ & ? & ?). now split. Qed.

Lemma set_environment_variables_untouched (s : state Repo) :
  forall out s', set_environment_variables w s = (out, s') ->
  untouched s s' /\ out <> Panicked PanicIndexOutOfRange.
Proof.
  intros out s'.
  unfold set_environment_variables, untouched, git_events.
  go_unfold.
  repeat (break_match; cbn [fst snd trace repo vars negb debug_mode
                           set_tigerbeetle_directory set_repository_url
                           set_num_voprs set_current_vopr]);
    try discriminate; intros [= <- <-]; cbn [trace repo];
    rewrite ?filter_app; cbn [filter is_git]; rewrite ?app_nil_r;
    repeat split; discriminate.
Qed.

Lemma assign_run_outcome (fuel : nat) (vc acc : list string) (n : Z)
    (s : state Repo) :
  forall out s',
    (repeats <- int_quo (int_sub n 1) (len vc) ;;
     remainders <- int_rem (int_sub n 1) (len vc) ;;
     assign_loop fuel vc repeats remainders 1 0 acc)%eff s = (out, s') ->
    s' = s.
Proof.
  intros out s'. unfold int_quo, int_rem.
  destruct (len vc =? 0); [now intros [= <- <-] |].
  unfold bind at 1. unfold ret at 1. unfold bind at 1. unfold ret at 1.
  intros H. now destruct (assign_loop_outcome _ _ _ _ _ _ _ _ _ _ H).
Qed.

Lemma assign_run_in_bounds (fuel : nat) (vc acc : list string) (s : state Repo) :
  1 <= num_voprs (vars s) <= int_max -> vc <> [] -> len vc <= int_max ->
  forall out s',
    (repeats <- int_quo (int_sub (num_voprs (vars s)) 1) (len vc) ;;
     remainders <- int_rem (int_sub (num_voprs (vars s)) 1) (len vc) ;;
     assign_loop fuel vc repeats remainders 1 0 acc)%eff s = (out, s') ->
    s' = s /\ out <> Panicked PanicIndexOutOfRange.
Proof.
  intros Hn Hvc Hk out s' Hrun.
  split; [exact (assign_run_outcome _ _ _ _ _ _ _ Hrun) |].
  pose proof (assign_from_start fuel vc acc s) as H. cbv zeta in H.
  destruct (H Hn Hvc Hk) as [_ [Hs | Hd]].
  - rewrite Hrun in Hs. cbn in Hs. subst out. discriminate.
  - rewrite Hrun in Hd. injection Hd as -> _. discriminate.
Qed.

Lemma tracker_outcome_in_bounds {A} (out : result panic_value A) :
  tracker_outcome out -> out <> Panicked PanicIndexOutOfRange.
Proof. intros H ->. exact H. Qed.

Lemma Commits_get_vopr_assignments_in_bounds (fuel : nat) (vc : list string)
    (s : state Repo) :
  1 <= num_voprs (vars s) <= int_max -> len vc <= int_max ->
  forall out s',
    Commits.get_vopr_assignments w fuel vc s = (out, s') ->
    same_outside s s' /\ out <> Panicked PanicIndexOutOfRange.
Proof.
  intros Hn Hk out s'. unfold Commits.get_vopr_assignments.
  unfold bind at 1. unfold get_vars at 1.
  destruct (Z.gtb_spec (len vc) 0) as [Hpos | Hzero]; unfold bind at 1;
    destruct (Commits.get_commits w "main" s) as [r s1] eqn:Hmain;
    destruct (get_commits_outcome _ _ _ _ Hmain) as (H1 & Ho);
    (destruct r as [main | | |];
     [| intros [= <- <-]; split;
        [exact H1 | now apply tracker_outcome_in_bounds] ..]).
  - assert (Hv : vars s1 = vars s) by apply H1. rewrite <- Hv in Hn |- *.
    intros Hrun. apply assign_run_in_bounds in Hrun; auto.
    + destruct Hrun as [-> Hout]. now split.
    + intros ->. cbn in Hpos. lia.
  - destruct (negb (String.eqb main "")); intros [= <- <-]; split; auto;
      discriminate.
Qed.

Lemma Branches_get_vopr_assignments_in_bounds (fuel : nat) (vc : list string)
    (s : state Repo) :
  1 <= num_voprs (vars s) <= int_max -> len vc <= int_max ->
  forall out s',
    Branches.get_vopr_assignments fuel vc s = (out, s') ->
    s' = s /\ out <> Panicked PanicIndexOutOfRange.
Proof.
  intros Hn Hk out s'. unfold Branches.get_vopr_assignments.
  unfold bind at 1. unfold get_vars at 1.
  destruct (Z.gtb_spec (len vc) 0) as [Hpos | Hzero].
  - intros Hrun. apply assign_run_in_bounds in Hrun; auto.
    intros ->. cbn in Hpos. lia.
  - intros [= <- <-]. split; [reflexivity | discriminate].
Qed.

Lemma checkout_branch_returns (branch dir : string) (s : state Repo) :
  exists err, fst (checkout_branch w branch dir s) = Ret err.
Proof.
  unfold checkout_branch, run_git_fetch, run_git_checkout, run_git_show_current.
  go_unfold.
  repeat (break_match; cbn [fst snd]); eauto.
Qed.

(** The guard of [checkout_assigned]. *)
Lemma checkout_assigned_cases (assignments : list string) (s : state Repo) :
  let cv := current_vopr (vars s) in
  is_int cv ->
  (1 <= cv <= len assignments ->
   exists branch,
     nth_error assignments (Z.to_nat (cv - 1)) = Some branch /\
     checkout_assigned w assignments s
     = (Ret tt,
        snd (checkout_branch w branch
               (tigerbeetle_directory (vars s) ++ itoa cv)%string s))) /\
  (~ (1 <= cv <= len assignments) ->
   checkout_assigned w assignments s = (Ret tt, s)).
Proof.
  intros cv Hint.
  assert (Heq : checkout_assigned w assignments s
                = if (cv <=? len assignments) && (cv >=? 1) then
                    (branch <- index assignments (int_sub cv 1) ;;
                     _ <- checkout_branch w branch
                            (tigerbeetle_directory (vars s) ++ itoa cv)%string ;;
                     ret tt)%eff s
                  else (Ret tt, s)).
  { unfold checkout_assigned. unfold bind at 1. unfold get_vars at 1. fold cv.
    now destruct (_ && _). }
  rewrite Heq. clear Heq.
  destruct (Z.leb_spec cv (len assignments)) as [Hle | Hgt];
    [destruct (Z.geb_spec cv 1) as [Hge | Hlt] |]; cbn [andb].
  - split; [intros _ | intros H; elim H; lia].
    unfold int_sub. rewrite int_wrap_id by (unfold is_int, int_min in *; lia).
    destruct (nth_error assignments (Z.to_nat (cv - 1))) as [branch |] eqn:Hnth.
    + exists branch. split; [reflexivity |].
      replace (cv - 1) with (Z.of_nat (Z.to_nat (cv - 1))) at 1 by lia.
      unfold bind at 1. rewrite (index_nth_error _ _ _ _ Hnth).
      unfold bind at 1.
      destruct (checkout_branch_returns branch
                  (tigerbeetle_directory (vars s) ++ itoa cv)%string s) as [err He].
      destruct (checkout_branch w branch _ s) as [r s']. cbn in He. subst r.
      reflexivity.
    + apply nth_error_None in Hnth. unfold len in Hle. lia.
  - split; [lia | reflexivity].
  - split; [lia | reflexivity].
Qed.

Lemma Branches_get_pull_requests_outcome (s : state Repo) :
  forall out s', Branches.get_pull_requests w s = (out, s') ->
  same_outside s s' /\ tracker_outcome out.
Proof.
  intros out s'. unfold Branches.get_pull_requests, http_get.
  unfold bind at 1. unfold get_vars at 1.
  unfold bind at 1. unfold bind at 1. unfold emit at 1. unfold ret at 1.
  set (s1 := {| vars := vars s; trace := _; repo := repo s |}).
  assert (H1 : same_outside s s1)
    by (apply (emit_same_outside (EvHttpGet _)); reflexivity).
  intros Hc. destruct (check_response_outcome _ _ _ _ _ Hc) as (H2 & Ho & _).
  split; [eapply same_outside_trans; eauto | exact Ho].
Qed.

Lemma Branches_labels_loop_length (element : Issue) (vb : list string) :
  forall labels,
    len vb <= len (Branches.labels_loop labels element vb) <= len vb + 1.
Proof.
  induction labels as [| label rest IH]; cbn [Branches.labels_loop]; [lia |].
  destruct (String.eqb (Name label) "vopr"); [| exact IH].
  destruct (Cut (HeadLabel (IssueHead element)) ":") as [[before branch_name] found].
  destruct (found && negb (String.eqb branch_name "")); [| lia].
  unfold len. rewrite length_app. cbn [List.length]. lia.
Qed.

Lemma Branches_elements_loop_length (n : Z) (prs : list Issue) :
  forall vb, len vb < n -> len (Branches.elements_loop n prs vb) <= n.
Proof.
  induction prs as [| element rest IH]; intros vb Hlt;
    cbn [Branches.elements_loop]; [lia |].
  pose proof (Branches_labels_loop_length element vb (Labels element)) as Hl.
  destruct (Z.eqb_spec (len (Branches.labels_loop (Labels element) element vb)) n);
    [lia | apply IH; lia].
Qed.

(** The first two statements of [main]: the command line is parsed, or the
    flag package ends the process after what it prints. *)
Lemma main_start {A} (rest : Go A) (s : state Repo) :
  (flag_BoolVar false ;;; flag_Parse w ;;; rest)%eff s
  = match command_line w with
    | Flags debug => rest (flag_parsed debug s)
    | AsksHelp usage =>
        (Exited 0,
         {| vars := set_debug_mode false (vars s);
            trace := trace s ++ [EvStderr usage]; repo := repo s |})
    | BadFlag message usage =>
        (Exited 2,
         {| vars := set_debug_mode false (vars s);
            trace := trace s ++ [EvStderr message; EvStderr usage];
            repo := repo s |})
    end.
Proof.
  unfold flag_BoolVar, flag_Parse, flag_parsed.
  destruct (command_line w); go_unfold; cbn [vars trace repo];
    rewrite <- ?app_assoc; reflexivity.
Qed.

Lemma main_start_untouched {A} (rest : Go A) (s : state Repo) :
  forall out s',
    (flag_BoolVar false ;;; flag_Parse w ;;; rest)%eff s = (out, s') ->
    (exists debug, command_line w = Flags debug /\
                   rest (flag_parsed debug s) = (out, s')) \/
    (untouched s s' /\ (out = Exited 0 \/ out = Exited 2) /\
     forall e, In e (trace s') -> In e (trace s) \/ exists text, e = EvStderr text).
Proof.
  intros out s'. rewrite main_start.
  destruct (command_line w) as [debug | usage | message usage].
  - left. eauto.
  - intros [= <- <-]. right. unfold untouched. cbn [repo trace].
    rewrite git_events_app. cbn. rewrite app_nil_r.
    repeat split; auto.
    intros e He. apply in_app_or in He. destruct He as [He | [<- | []]]; eauto.
  - intros [= <- <-]. right. unfold untouched. cbn [repo trace].
    rewrite git_events_app. cbn. rewrite app_nil_r.
    repeat split; auto.
    intros e He. apply in_app_or in He.
    destruct He as [He | [<- | [<- | []]]]; eauto.
Qed.

(** [main] touches git only through a checkout whose index is in bounds. *)
Lemma Commits_main_cases (fuel : nat) (s : state Repo) :
  forall out s', Commits.main w fuel s = (out, s') ->
  (untouched s s' /\ out <> Panicked PanicIndexOutOfRange) \/
  (exists assignments s1 branch,
     untouched s s1 /\
     1 <= current_vopr (vars s1) <= len assignments /\
     nth_error assignments (Z.to_nat (current_vopr (vars s1) - 1)) = Some branch /\
     out = Ret tt /\
     s' = snd (checkout_branch w branch
                 (tigerbeetle_directory (vars s1)
                    ++ itoa (current_vopr (vars s1)))%string s1)).
Proof.
  intros out s' Hmain. unfold Commits.main in Hmain.
  destruct (main_start_untouched _ _ _ _ Hmain)
    as [(debug & _ & Hrest) | (Hu & [-> | ->] & _)];
    [| left; split; [exact Hu | discriminate] ..].
  clear Hmain. revert Hrest.
  set (s0 := flag_parsed debug s).
  assert (H0 : untouched s s0) by (now split).
  unfold bind at 1.
  destruct (set_environment_variables w s0) as [r s1] eqn:Henv.
  destruct (set_environment_variables_untouched _ _ _ Henv) as (H1 & Ho1).
  destruct r as [[] | | |];
    [| intros [= <- <-]; left; split;
       [eapply untouched_trans; [exact H0 | exact H1] | exact Ho1] ..].
  destruct (set_environment_variables_ret _ _ Henv) as (Hn & Hni & Hc & Hci & _).
  unfold bind at 1. unfold Commits.get_commit_hashes.
  destruct (Commits.pages_loop w fuel 30 1 [] s1) as [r s2] eqn:Hpages.
  destruct (pages_loop_outcome _ _ _ _ _ _ _ Hpages) as (H2 & Ho2 & Hlen).
  assert (Hu2 : untouched s s2).
  { eapply untouched_trans; [exact H0 |].
    eapply untouched_trans; [exact H1 |]. now apply same_outside_untouched. }
  destruct r as [vc | | |];
    [| intros [= <- <-]; left; split; [exact Hu2 |];
       destruct Ho2 as [Ho2 | Ho2];
       [now apply tracker_outcome_in_bounds | discriminate] ..].
  assert (Hv2 : vars s2 = vars s1) by apply H2.
  specialize (Hlen vc eq_refl). cbn [len List.length Z.of_nat] in Hlen.
  unfold int_sub in Hlen.
  rewrite int_wrap_id in Hlen by (unfold is_int, int_min, int_max in *; lia).
  unfold bind at 1.
  destruct (Commits.get_vopr_assignments w fuel vc s2) as [r s3] eqn:Hassign.
  rewrite <- Hv2 in Hn, Hni, Hc, Hci.
  assert (Hn2 : 1 <= num_voprs (vars s2) <= int_max)
    by (unfold is_int in Hni; lia).
  assert (Hk2 : len vc <= int_max).
  { rewrite Hv2 in Hn2. unfold is_int, int_min, int_max in *. lia. }
  destruct (Commits_get_vopr_assignments_in_bounds fuel vc s2 Hn2 Hk2 _ _ Hassign)
    as (H3 & Ho3).
  assert (Hu3 : untouched s s3).
  { eapply untouched_trans; [exact Hu2 |]. now apply same_outside_untouched. }
  destruct r as [assignments | | |];
    [| intros [= <- <-]; left; split; [exact Hu3 |];
       first [discriminate | intros [= ->]; now apply Ho3] ..].
  unfold bind at 1. unfold emit at 1.
  set (s4 := {| vars := vars s3; trace := _; repo := repo s3 |}).
  assert (Hu4 : untouched s s4).
  { eapply untouched_trans; [exact Hu3 |]. apply same_outside_untouched.
    apply (emit_same_outside (EvPrint _)). reflexivity. }
  assert (Hv3 : vars s3 = vars s2) by apply H3.
  assert (Hci4 : is_int (current_vopr (vars s4))) by (cbn [vars s4]; now rewrite Hv3).
  destruct (checkout_assigned_cases assignments s4 Hci4) as [Hin Hout].
  destruct (Z_le_dec 1 (current_vopr (vars s4))) as [Hge | Hlt];
    [destruct (Z_le_dec (current_vopr (vars s4)) (len assignments)) as [Hle | Hgt] |].
  - destruct (Hin (conj Hge Hle)) as (branch & Hnth & Hrun). rewrite Hrun.
    intros [= <- <-]. right. exists assignments, s4, branch. auto.
  - rewrite Hout by lia. intros [= <- <-]. left. split; [exact Hu4 | discriminate].
  - rewrite Hout by lia. intros [= <- <-]. left. split; [exact Hu4 | discriminate].
Qed.

Lemma Branches_main_cases (fuel : nat) (s : state Repo) :
  forall out s', Branches.main w fuel s = (out, s') ->
  (untouched s s' /\ out <> Panicked PanicIndexOutOfRange) \/
  (exists assignments s1 branch,
     untouched s s1 /\
     1 <= current_vopr (vars s1) <= len assignments /\
     nth_error assignments (Z.to_nat (current_vopr (vars s1) - 1)) = Some branch /\
     out = Ret tt /\
     s' = snd (checkout_branch w branch
                 (tigerbeetle_directory (vars s1)
                    ++ itoa (current_vopr (vars s1)))%string s1)).
Proof.
  intros out s' Hmain. unfold Branches.main in Hmain.
  destruct (main_start_untouched _ _ _ _ Hmain)
    as [(debug & _ & Hrest) | (Hu & [-> | ->] & _)];
    [| left; split; [exact Hu | discriminate] ..].
  clear Hmain. revert Hrest.
  set (s0 := flag_parsed debug s).
  assert (H0 : untouched s s0) by (now split).
  unfold bind at 1.
  destruct (set_environment_variables w s0) as [r s1] eqn:Henv.
  destruct (set_environment_variables_untouched _ _ _ Henv) as (H1 & Ho1).
  destruct r as [[] | | |];
    [| intros [= <- <-]; left; split;
       [eapply untouched_trans; [exact H0 | exact H1] | exact Ho1] ..].
  destruct (set_environment_variables_ret _ _ Henv) as (Hn & Hni & Hc & Hci & _).
  unfold bind at 1.
  destruct (Branches.get_pull_requests w s1) as [r s2] eqn:Hprs.
  destruct (Branches_get_pull_requests_outcome _ _ _ Hprs) as (H2 & Ho2).
  assert (Hu2 : untouched s s2).
  { eapply untouched_trans; [exact H0 |].
    eapply untouched_trans; [exact H1 |]. now apply same_outside_untouched. }
  destruct r as [prs | | |];
    [| intros [= <- <-]; left; split; [exact Hu2 |];
       now apply tracker_outcome_in_bounds ..].
  assert (Hv2 : vars s2 = vars s1) by apply H2.
  rewrite <- Hv2 in Hn, Hni, Hc, Hci.
  unfold bind at 1. unfold Branches.get_branch_names.
  unfold bind at 1. unfold get_vars at 1. unfold ret at 1.
  set (vb := Branches.elements_loop (num_voprs (vars s2)) prs []).
  assert (Hvb : len vb <= num_voprs (vars s2)).
  { apply Branches_elements_loop_length. cbn. lia. }
  unfold bind at 1.
  destruct (Branches.get_vopr_assignments fuel vb s2) as [r s3] eqn:Hassign.
  assert (Hn2 : 1 <= num_voprs (vars s2) <= int_max)
    by (unfold is_int in Hni; lia).
  assert (Hk2 : len vb <= int_max) by lia.
  destruct (Branches_get_vopr_assignments_in_bounds fuel vb s2 Hn2 Hk2 _ _ Hassign)
    as (-> & Ho3).
  destruct r as [assignments | | |];
    [| intros [= <- <-]; left; split; [exact Hu2 |];
       first [discriminate | intros [= ->]; now apply Ho3] ..].
  unfold bind at 1. unfold emit at 1.
  set (s4 := {| vars := vars s2; trace := _; repo := repo s2 |}).
  assert (Hu4 : untouched s s4).
  { eapply untouched_trans; [exact Hu2 |]. apply same_outside_untouched.
    apply (emit_same_outside (EvPrint _)). reflexivity. }
  assert (Hci4 : is_int (current_vopr (vars s4))) by exact Hci.
  destruct (checkout_assigned_cases assignments s4 Hci4) as [Hin Hout].
  destruct (Z_le_dec 1 (current_vopr (vars s4))) as [Hge | Hlt];
    [destruct (Z_le_dec (current_vopr (vars s4)) (len assignments)) as [Hle | Hgt] |].
  - destruct (Hin (conj Hge Hle)) as (branch & Hnth & Hrun). rewrite Hrun.
    intros [= <- <-]. right. exists assignments, s4, branch. auto.
  - rewrite Hout by lia. intros [= <- <-]. left. split; [exact Hu4 | discriminate].
  - rewrite Hout by lia. intros [= <- <-]. left. split; [exact Hu4 | discriminate].
Qed.

(** C10. [main] indexes the assignments at [current_vopr - 1] only when
    [1 <= current_vopr <= len vopr_assignments]: the index is then in
    bounds, and no run of [main], in either revision, ends with an index out
    of range.  When [current_vopr] is outside that range, the last statement
    does nothing at all; a run of [main] either runs no git command and
    leaves every repository as it was, or runs git through one
    [checkout_branch] of an assignment whose index is in bounds. *)
Theorem main_index_guarded (fuel : nat) (s : state Repo) :
  (forall assignments s1,
     let cv := current_vopr (vars s1) in
     is_int cv ->
     (1 <= cv <= len assignments ->
      exists branch,
        nth_error assignments (Z.to_nat (cv - 1)) = Some branch /\
        checkout_assigned w assignments s1
        = (Ret tt,
           snd (checkout_branch w branch
                  (tigerbeetle_directory (vars s1) ++ itoa cv)%string s1))) /\
     (~ (1 <= cv <= len assignments) ->
      checkout_assigned w assignments s1 = (Ret tt, s1))) /\
  (forall main, main = Commits.main w \/ main = Branches.main w ->
     fst (main fuel s) <> Panicked PanicIndexOutOfRange /\
     (untouched s (snd (main fuel s)) \/
      exists assignments s1 branch,
        untouched s s1 /\
        1 <= current_vopr (vars s1) <= len assignments /\
        nth_error assignments (Z.to_nat (current_vopr (vars s1) - 1))
        = Some branch /\
        snd (main fuel s)
        = snd (checkout_branch w branch
                 (tigerbeetle_directory (vars s1)
                    ++ itoa (current_vopr (vars s1)))%string s1))).
Proof.
  split; [intros assignments s1 cv Hcv; now apply checkout_assigned_cases |].
  assert (H : forall main,
            (forall out s', main fuel s = (out, s') ->
               (untouched s s' /\ out <> Panicked PanicIndexOutOfRange) \/
               (exists assignments s1 branch,
                  untouched s s1 /\
                  1 <= current_vopr (vars s1) <= len assignments /\
                  nth_error assignments (Z.to_nat (current_vopr (vars s1) - 1))
                  = Some branch /\
                  out = Ret tt /\
                  s' = snd (checkout_branch w branch
                              (tigerbeetle_directory (vars s1)
                                 ++ itoa (current_vopr (vars s1)))%string s1))) ->
            fst (main fuel s) <> Panicked PanicIndexOutOfRange /\
            (untouched s (snd (main fuel s)) \/
             exists assignments s1 branch,
               untouched s s1 /\
               1 <= current_vopr (vars s1) <= len assignments /\
               nth_error assignments (Z.to_nat (current_vopr (vars s1) - 1))
               = Some branch /\
               snd (main fuel s)
               = snd (checkout_branch w branch
                        (tigerbeetle_directory (vars s1)
                           ++ itoa (current_vopr (vars s1)))%string s1))).
  { intros main Hcases. destruct (main fuel s) as [out s'].
    destruct (Hcases out s' eq_refl)
      as [[Hu Ho] | (assignments & s1 & branch & Hu & Hr & Hnth & -> & ->)];
      cbn [fst snd].
    - split; [exact Ho | now left].
    - split; [discriminate | right; exists assignments, s1, branch; auto]. }
  intros main [-> | ->]; apply H.
  - apply Commits_main_cases.
  - apply Branches_main_cases.
Qed.

(** *** Enumerating the revisions *)

Section Enumeration.

Variable base : string.
Hypothesis Hanswers : tracker_answers w base.

Lemma prefix_app (a b c : string) :
  prefix (a ++ b) (a ++ c)%string = prefix b c.
Proof.
  induction a as [| x a IH]; [reflexivity |].
  cbn [String.append prefix]. destruct (ascii_dec x x); [exact IH | congruence].
Qed.

Lemma page_requests_app (t1 t2 : list event) :
  page_requests base (t1 ++ t2) = page_requests base t1 ++ page_requests base t2.
Proof. unfold page_requests. apply flat_map_app. Qed.

Lemma page_requests_pulls (n i : Z) :
  page_requests base [EvHttpGet (Commits.pulls_url base n i)]
  = [Commits.pulls_url base n i].
Proof.
  unfold page_requests, Commits.pulls_url. cbn [flat_map].
  rewrite prefix_app. cbn. reflexivity.
Qed.

Lemma page_requests_commits (b : string) :
  page_requests base [EvHttpGet (Commits.commits_url base b)] = [].
Proof.
  unfold page_requests, Commits.commits_url. cbn [flat_map].
  rewrite prefix_app. cbn. reflexivity.
Qed.

Lemma check_response_healthy {A} (res : Response) (v : A) (s : state Repo) :
  healthy res -> check_response res (inr v) s = (Ret v, s).
Proof.
  intros (H1 & H2 & H3). unfold check_response. rewrite H1, H3.
  destruct (Z.gtb_spec (StatusCode res) 299); [lia |]. reflexivity.
Qed.

Lemma get_pull_requests_healthy (i : Z) (s : state Repo) :
  repository_url (vars s) = base ->
  exists s',
    Commits.get_pull_requests w 30 i s = (Ret (page w base i), s') /\
    same_outside s s' /\
    page_requests base (trace s')
    = page_requests base (trace s) ++ [Commits.pulls_url base 30 i].
Proof.
  intros Hbase. unfold Commits.get_pull_requests, http_get, page.
  destruct (proj1 Hanswers i) as (Hh & prs & Hprs).
  unfold bind at 1. unfold get_vars at 1. rewrite Hbase.
  unfold bind at 1. unfold bind at 1. unfold emit at 1. unfold ret at 1.
  unfold bind at 1. rewrite Hprs. rewrite check_response_healthy by exact Hh.
  unfold bind at 1. unfold emit at 1. unfold ret at 1.
  eexists. split; [reflexivity | split].
  - unfold same_outside, git_events. cbn [vars repo trace].
    rewrite !filter_app. cbn. now rewrite !app_nil_r.
  - cbn [trace]. rewrite !page_requests_app, page_requests_pulls.
    cbn. now rewrite app_nil_r.
Qed.

Lemma get_commits_healthy (b : string) (s : state Repo) :
  repository_url (vars s) = base ->
  exists s',
    Commits.get_commits w b s = (Ret (head_commit w base b), s') /\
    same_outside s s' /\
    page_requests base (trace s') = page_requests base (trace s).
Proof.
  intros Hbase. unfold Commits.get_commits, http_get, head_commit.
  destruct (proj2 Hanswers b) as (Hh & cs & Hcs).
  unfold bind at 1. unfold get_vars at 1. rewrite Hbase.
  unfold bind at 1. unfold bind at 1. unfold emit at 1. unfold ret at 1.
  unfold bind at 1. rewrite Hcs. rewrite check_response_healthy by exact Hh.
  eexists. split; [destruct cs; reflexivity | split].
  - unfold same_outside, git_events. cbn [vars repo trace].
    rewrite !filter_app. cbn. now rewrite !app_nil_r.
  - cbn [trace]. rewrite !page_requests_app, page_requests_commits.
    now rewrite app_nil_r.
Qed.

Lemma labels_loop_healthy (element : Issue) (vc : list string) :
  forall labels (s : state Repo),
    repository_url (vars s) = base ->
    exists s',
      Commits.labels_loop w labels element vc s
      = (Ret (vc ++ resolved_with w base labels element), s') /\
      same_outside s s' /\
      page_requests base (trace s') = page_requests base (trace s).
Proof.
  induction labels as [| label rest IH]; intros s Hbase;
    cbn [Commits.labels_loop].
  - exists s. unfold resolved_with. cbn. rewrite app_nil_r.
    repeat split; reflexivity.
  - unfold resolved_with, has_vopr_label. cbn [existsb].
    destruct (String.eqb (Name label) "vopr"); cbn [orb].
    + unfold head_branch.
      destruct (Cut (HeadLabel (IssueHead element)) ":") as [[before branch] found].
      destruct (found && negb (String.eqb branch "")).
      * destruct (get_commits_healthy branch s Hbase) as (s' & Hrun & Hsame & Hreq).
        unfold bind at 1. rewrite Hrun.
        exists s'. destruct (String.eqb (head_commit w base branch) "");
          cbn [negb]; rewrite ?app_nil_r; auto.
      * exists s. rewrite app_nil_r. repeat split; reflexivity.
    + apply IH. exact Hbase.
Qed.

Lemma resolved_length (e : Issue) : (List.length (resolved w base e) <= 1)%nat.
Proof.
  unfold resolved, resolved_with.
  destruct (has_vopr_label _); [| cbn; lia].
  destruct (head_branch e); [| cbn; lia].
  destruct (String.eqb _ _); cbn; lia.
Qed.

Lemma elements_loop_healthy (prs : list Issue) :
  forall vc (s : state Repo),
    repository_url (vars s) = base ->
    let want := int_sub (num_voprs (vars s)) 1 in
    len vc < want ->
    exists s',
      Commits.elements_loop w prs vc s
      = (Ret (vc ++ firstn (Z.to_nat (want - len vc))
                           (flat_map (resolved w base) prs)), s') /\
      same_outside s s' /\
      page_requests base (trace s') = page_requests base (trace s).
Proof.
  induction prs as [| e rest IH]; intros vc s Hbase want Hlt;
    cbn [Commits.elements_loop flat_map].
  - exists s. rewrite firstn_nil, app_nil_r. repeat split; reflexivity.
  - destruct (labels_loop_healthy e vc (Labels e) s Hbase)
      as (s1 & Hrun & Hsame & Hreq).
    fold (resolved w base e) in Hrun.
    unfold bind at 1. rewrite Hrun.
    unfold bind at 1. unfold get_vars at 1.
    assert (Hv : vars s1 = vars s) by apply Hsame. rewrite Hv. fold want.
    pose proof (resolved_length e) as Hlen.
    destruct (resolved w base e) as [| c [| c' l]] eqn:He;
      cbn [List.length] in Hlen; [| | lia].
    + rewrite app_nil_r. cbn [app].
      destruct (Z.eqb_spec (len vc) want); [lia |].
      destruct (IH vc s1) as (s2 & Hrun2 & Hsame2 & Hreq2);
        [now rewrite Hv | rewrite Hv; exact Hlt |].
      rewrite Hv in Hrun2. fold want in Hrun2.
      exists s2. split; [exact Hrun2 | split].
      * eapply same_outside_trans; [exact Hsame | exact Hsame2].
      * congruence.
    + assert (Hl1 : len (vc ++ [c]) = len vc + 1).
      { unfold len. rewrite length_app. cbn [List.length]. lia. }
      replace (Z.to_nat (want - len vc)) with (S (Z.to_nat (want - len vc - 1)))
        by lia.
      cbn [app firstn].
      destruct (Z.eqb_spec (len (vc ++ [c])) want) as [Heq | Hne].
      * exists s1. replace (Z.to_nat (want - len vc - 1)) with 0%nat by lia.
        cbn [firstn]. auto.
      * destruct (IH (vc ++ [c]) s1) as (s2 & Hrun2 & Hsame2 & Hreq2);
          [now rewrite Hv | rewrite Hv; fold want; lia |].
        rewrite Hv in Hrun2. fold want in Hrun2.
        rewrite Hl1 in Hrun2. rewrite <- app_assoc in Hrun2. cbn [app] in Hrun2.
        replace (want - (len vc + 1)) with (want - len vc - 1) in Hrun2 by lia.
        exists s2. split; [exact Hrun2 | split].
        -- eapply same_outside_trans; [exact Hsame | exact Hsame2].
        -- congruence.
Qed.

Lemma collected_S (j : nat) :
  collected w base (S j)
  = collected w base j ++ flat_map (resolved w base) (page w base (Z.of_nat (S j))).
Proof.
  unfold collected, pages_upto. rewrite seq_S, !flat_map_app.
  cbn [flat_map Nat.add]. now rewrite app_nil_r.
Qed.

Lemma firstn_collected_S (j : nat) (want : Z) :
  len (collected w base j) < want ->
  collected w base j
    ++ firstn (Z.to_nat (want - len (collected w base j)))
              (flat_map (resolved w base) (page w base (Z.of_nat (S j))))
  = firstn (Z.to_nat want) (collected w base (S j)).
Proof.
  intros Hlt. rewrite collected_S, firstn_app. unfold len in *.
  rewrite (firstn_all2 (n := Z.to_nat want)) by lia. do 2 f_equal. lia.
Qed.

Lemma pages_loop_done (fuel : nat) (i : Z) (vc : list string) (s : state Repo) :
  int_sub (num_voprs (vars s)) 1 <= len vc ->
  Commits.pages_loop w fuel 30 i vc s = (Ret vc, s).
Proof.
  intros H. destruct fuel; cbn [Commits.pages_loop];
    unfold bind at 1; unfold get_vars at 1;
    destruct (Z.ltb_spec (len vc) (int_sub (num_voprs (vars s)) 1));
    try lia; reflexivity.
Qed.

Lemma pages_loop_healthy (p : nat) (want : Z) :
  Z.of_nat p <= int_max ->
  stops_at w base want p ->
  forall d j fuel (s : state Repo),
    (S j + d = p)%nat ->
    (S d <= fuel)%nat ->
    repository_url (vars s) = base ->
    int_sub (num_voprs (vars s)) 1 = want ->
    len (collected w base j) < want ->
    (forall k, (j < k < p)%nat -> ~ stops_at w base want k) ->
    exists s',
      Commits.pages_loop w fuel 30 (Z.of_nat (S j)) (collected w base j) s
      = (Ret (firstn (Z.to_nat want) (collected w base p)), s') /\
      same_outside s s' /\
      page_requests base (trace s')
      = page_requests base (trace s)
          ++ map (fun i => Commits.pulls_url base 30 (Z.of_nat i)) (seq (S j) (S d)).
Proof.
  intros Hp Hstop.
  induction d as [| d IH]; intros j fuel s Hj Hfuel Hbase Hwant Hlt Hgo;
    (destruct fuel as [| fuel]; [lia |]);
    cbn [Commits.pages_loop]; unfold bind at 1; unfold get_vars at 1;
    rewrite Hwant;
    (destruct (Z.ltb_spec (len (collected w base j)) want); [| lia]);
    destruct (get_pull_requests_healthy (Z.of_nat (S j)) s Hbase)
      as (s1 & Hrun1 & Hsame1 & Hreq1);
    unfold bind at 1; rewrite Hrun1;
    assert (Hv1 : vars s1 = vars s) by apply Hsame1;
    (destruct (elements_loop_healthy (page w base (Z.of_nat (S j)))
                (collected w base j) s1) as (s2 & Hrun2 & Hsame2 & Hreq2);
     [now rewrite Hv1 | rewrite Hv1, Hwant; exact Hlt |]);
    rewrite Hv1, Hwant in Hrun2; rewrite firstn_collected_S in Hrun2 by exact Hlt;
    unfold bind at 1; rewrite Hrun2;
    assert (Hv2 : vars s2 = vars s) by (rewrite <- Hv1; apply Hsame2);
    assert (Hsame : same_outside s s2)
      by (eapply same_outside_trans; [exact Hsame1 | exact Hsame2]).
  - (* the last page *)
    assert (Hpj : p = S j) by lia. clear Hj. subst p.
    assert (Hreq : page_requests base (trace s2)
                   = page_requests base (trace s)
                       ++ map (fun i => Commits.pulls_url base 30 (Z.of_nat i))
                              (seq (S j) 1)).
    { cbn [seq map]. congruence. }
    destruct (Z.ltb_spec (len (page w base (Z.of_nat (S j)))) 30) as [Hshort | Hfull].
    + exists s2. split; [reflexivity | split; [exact Hsame | exact Hreq]].
    + destruct Hstop as [Hcount | Hshort]; [| lia].
      rewrite pages_loop_done.
      * exists s2. split; [reflexivity | split; [exact Hsame | exact Hreq]].
      * rewrite Hv2, Hwant. unfold len in *. rewrite length_firstn. lia.
  - (* a page before the last *)
    assert (Hnot : ~ stops_at w base want (S j)) by (apply Hgo; lia).
    unfold stops_at in Hnot.
    destruct (Z.ltb_spec (len (page w base (Z.of_nat (S j)))) 30) as [Hshort | Hfull];
      [elim Hnot; now right |].
    assert (Hlt' : len (collected w base (S j)) < want) by lia.
    rewrite firstn_all2 by (unfold len in Hlt'; lia).
    unfold int_add. rewrite int_wrap_id by (unfold is_int, int_min; lia).
    replace (Z.of_nat (S j) + 1) with (Z.of_nat (S (S j))) by lia.
    destruct (IH (S j) fuel s2) as (s3 & Hrun3 & Hsame3 & Hreq3);
      [lia | lia | now rewrite Hv2 | now rewrite Hv2 | exact Hlt'
       | intros k Hk; apply Hgo; lia |].
    exists s3. split; [exact Hrun3 | split].
    + eapply same_outside_trans; [exact Hsame | exact Hsame3].
    + rewrite Hreq3, Hreq2, Hreq1, <- app_assoc. reflexivity.
Qed.

End Enumeration.


End OrganizerProperties.

(** *** The sample deployment *)

Section OrganizerSamples.

Import Organizer OrganizerSpec.

Lemma sample_tracker_answers (main : list Commit) :
  tracker_answers (sample_world "3" "2" (sample_tracker main)) sample_url.
Proof.
  split; intros x; cbn [http_Get sample_world]; unfold sample_tracker;
    repeat (break_match; cbn [answer]); split;
    try (repeat split; cbn; lia); eexists; reflexivity.
Qed.

(** C7 (counterexample). NUM_VOPRS is set to a text that is no integer: the
    organizer logs the error and panics; it does not end through exit code
    1. *)
Lemma set_environment_variables_counterexample :
  set_environment_variables
    (sample_world "abc" "1" (sample_tracker main_sha)) (initial "main"%string)
  = (Panicked (PanicNumError (ErrSyntax "abc")),
     {| vars := {| debug_mode := false;
                   tigerbeetle_directory := "/home/voprrunner/tigerbeetle";
                   repository_url := sample_url;
                   num_voprs := 0; current_vopr := 0 |};
        trace := [EvLog "error: " "unable to convert num_voprs to a an integer value"];
        repo := "main"%string |}) /\
  fst (set_environment_variables
         (sample_world "abc" "1" (sample_tracker main_sha)) (initial "main"%string))
  <> Exited 1.
Proof. split; [reflexivity | discriminate]. Qed.

(** C6. [checkout_branch] runs [git fetch --all], [git checkout <branch>] and
    [git branch --show-current] in this order, and compares what the last
    command printed, as it is, with the requested name.  git prints the name
    of the current branch as a line, and nothing when HEAD is detached at a
    commit.  So the comparison fails for the very checkout it is to verify:
    after a fetch and a checkout that succeed, [checkout_branch] returns the
    error "Checkout failed", for a branch as for a commit id, while the
    requested revision is checked out.  In the sample deployment this is what
    VOPR 1 gets for main and VOPR 2 for the commit of a pull request. *)
Theorem checkout_branch_rejects_its_checkout :
  (forall (Repo : Type) (w : World Repo) (branch dir : string) (s : state Repo),
     let fetched := git_fetch w dir (repo s) in
     let checked := git_checkout w branch dir (snd fetched) in
     fst fetched = None -> fst checked = None ->
     git_show_current w dir (snd checked) = ((branch ++ newline)%string, None) \/
     (branch <> ""%string /\
      git_show_current w dir (snd checked) = (""%string, None)) ->
     checkout_branch w branch dir s
     = (Ret (Some "Checkout failed"%string),
        {| vars := vars s; trace := trace s ++ checkout_commands branch dir;
           repo := snd checked |})) /\
  checkout_branch (sample_world "3" "1" (sample_tracker main_sha)) "main"
    "/home/voprrunner/tigerbeetle1" (started 3 1)
  = (Ret (Some "Checkout failed"%string),
     {| vars := vars (started 3 1);
        trace := checkout_commands "main" "/home/voprrunner/tigerbeetle1";
        repo := "main"%string |}) /\
  checkout_branch (sample_world "3" "2" (sample_tracker main_sha)) sha_a
    "/home/voprrunner/tigerbeetle2" (started 3 2)
  = (Ret (Some "Checkout failed"%string),
     {| vars := vars (started 3 2);
        trace := checkout_commands sha_a "/home/voprrunner/tigerbeetle2";
        repo := sha_a |}).
Proof.
  split; [| split; reflexivity].
  intros Repo w branch dir s fetched checked Hfetch Hcheck Hshown.
  assert (Hne : forall printed,
            printed = (branch ++ newline)%string \/
            (branch <> ""%string /\ printed = ""%string) ->
            String.eqb printed branch = false).
  { intros printed [-> | [Hb ->]]; apply String.eqb_neq.
    - apply append_neq. discriminate.
    - congruence. }
  destruct Hshown as [Hshown | [Hb Hshown]];
    rewrite (checkout_branch_checked_out w branch dir _ s Hfetch Hcheck Hshown);
    rewrite Hne; auto.
Qed.

(** C5 (counterexample). The tracker has no commit for main: with 3 VOPRs
    and two resolved commits the assignment has 2 entries, not 3, and its
    first entry is a pull-request commit.  And with main resolved and 5
    VOPRs, the two commits fill consecutive slots (a, a, b, b), where dealing
    them out in turn would give a, b, a, b. *)
Lemma get_vopr_assignments_counterexample :
  fst (Commits.get_commits (sample_world "3" "1" (sample_tracker [])) "main"
         (started 3 1)) = Ret ""%string /\
  fst (Commits.get_vopr_assignments (sample_world "3" "1" (sample_tracker []))
         2 [sha_a; sha_b] (started 3 1)) = Ret [sha_a; sha_b] /\
  List.length [sha_a; sha_b] <> Z.to_nat 3 /\
  fst (Commits.get_vopr_assignments (sample_world "5" "1" (sample_tracker main_sha))
         2 [sha_a; sha_b] (started 5 1))
  = Ret [sha_main; sha_a; sha_a; sha_b; sha_b] /\
  round_robin [sha_a; sha_b] 4 = [sha_a; sha_b; sha_a; sha_b].
Proof. repeat split; try reflexivity. discriminate. Qed.

(** Five VOPRs, two resolved commits, main resolved. *)
Lemma get_vopr_assignments_distributes_witness :
  fst (Commits.get_vopr_assignments (sample_world "5" "1" (sample_tracker main_sha))
         2 [sha_a; sha_b] (started 5 1))
  = Ret [sha_main; sha_a; sha_a; sha_b; sha_b] /\
  Branches.get_vopr_assignments 2 [sha_a; sha_b] (started 5 1)
  = (Ret ["main"%string; sha_a; sha_a; sha_b; sha_b], started 5 1).
Proof.
  pose proof (get_vopr_assignments_distributes
                (sample_world "5" "1" (sample_tracker main_sha)) 2
                [sha_a; sha_b] (started 5 1)
                (snd (Commits.get_commits
                        (sample_world "5" "1" (sample_tracker main_sha)) "main"
                        (started 5 1)))
                sha_main) as H.
  cbv zeta in H.
  destruct H as (H1 & H2 & _).
  - cbn. unfold int_max. lia.
  - discriminate.
  - cbn. unfold int_max. lia.
  - cbn. lia.
  - reflexivity.
  - discriminate.
  - split; [rewrite H1; reflexivity | exact H2].
Defined.

(** C9 (counterexample). No pull request is labelled and the tracker has no
    commit for main: with 2 VOPRs the commit-resolving revision assigns
    nothing, not the mainline revision to every VOPR. *)
Lemma get_vopr_assignments_empty_counterexample :
  fst (Commits.get_vopr_assignments (sample_world "2" "1" (sample_tracker []))
         0 [] (started 2 1)) = Ret [] /\
  @nil string <> repeat sha_main (Z.to_nat 2).
Proof. split; [reflexivity | discriminate]. Qed.


(** VOPR 2 of 3 checks out the first pull-request commit into its
    directory. *)
Lemma main_index_guarded_witness :
  fst (Commits.main (sample_world "3" "2" (sample_tracker main_sha)) 2
         (initial "main"%string)) = Ret tt /\
  repo (snd (Commits.main (sample_world "3" "2" (sample_tracker main_sha)) 2
               (initial "main"%string))) = sha_a /\
  git_events (trace (snd (Commits.main
                            (sample_world "3" "2" (sample_tracker main_sha)) 2
                            (initial "main"%string))))
  = checkout_commands sha_a "/home/voprrunner/tigerbeetle2" /\
  fst (Commits.main (sample_world "3" "2" (sample_tracker main_sha)) 2
         (initial "main"%string)) <> Panicked PanicIndexOutOfRange.
Proof.
  split; [reflexivity | split; [reflexivity | split; [reflexivity |]]].
  apply (main_index_guarded (sample_world "3" "2" (sample_tracker main_sha)) 2
           (initial "main"%string)).
  now left.
Defined.

End OrganizerSamples.

(** ** The worker driver: the command line, [main] and the reports *)

Section VoprMainProperties.

Import Vopr VoprSpec VoprMain VoprMainSpec.

(** Unfold the monad and the primitives of the worker. *)
Ltac zig_unfold :=
  cbv [bind ret exit panic stuck Vopr.emit Vopr.print Vopr.fatal
       Vopr.assert Vopr.unwrap].

(** *** Strings *)

Lemma length_append (a b : string) :
  String.length (a ++ b)%string = (String.length a + String.length b)%nat.
Proof. induction a as [| c a IH]; simpl; [reflexivity | now rewrite IH]. Qed.

Lemma substring_all (b : string) : substring 0 (String.length b) b = b.
Proof. induction b as [| c b IH]; simpl; [reflexivity | now rewrite IH]. Qed.

Lemma substring_append_skip (a b : string) :
  substring (String.length a) (String.length b) (a ++ b)%string = b.
Proof. induction a as [| c a IH]; simpl; [apply substring_all | exact IH]. Qed.

Lemma substring_append_rest (a b : string) :
  substring (String.length a) (String.length (a ++ b)%string - String.length a)
            (a ++ b)%string = b.
Proof.
  rewrite length_append.
  replace (String.length a + String.length b - String.length a)%nat
    with (String.length b) by lia.
  apply substring_append_skip.
Qed.

Lemma substring_split (s : string) :
  forall n, (n <= String.length s)%nat ->
  s = (substring 0 n s ++ substring n (String.length s - n) s)%string.
Proof.
  induction s as [| c s IH]; intros n Hn; simpl in Hn.
  - assert (n = 0%nat) by lia. now subst.
  - destruct n as [| n].
    + cbn [substring append String.length Nat.sub].
      now rewrite substring_all.
    + cbn [substring append String.length Nat.sub]. f_equal. apply IH. lia.
Qed.

(** *** [parse_flag] *)

(** X1. [parse_flag] gives back what follows [flag=]: for an argument
    [flag=value] with a value of at least one character it returns the value
    and prints nothing.  Whatever the argument, a value it returns is not
    empty and follows an [=] right after the first [flag.len] characters;
    otherwise the worker ends with exit code 1 after one line on stderr, or,
    when the argument is shorter than the flag, with the panic of a slice out
    of bounds. *)
Theorem parse_flag_value (flag arg : string) (s : list event) :
  (forall value, value <> ""%string -> arg = (flag ++ "=" ++ value)%string ->
     parse_flag flag arg s = (Ret value, s)) /\
  (forall out s', parse_flag flag arg s = (out, s') ->
     match out with
     | Ret value =>
         value <> ""%string /\ s' = s /\
         arg = (substring 0 (String.length flag) arg ++ "=" ++ value)%string
     | Exited code =>
         code = 1 /\ (String.length flag <= String.length arg)%nat /\
         exists message, s' = s ++ [EvStderr message]
     | Panicked p =>
         p = PanicOutOfBounds /\ s' = s /\
         (String.length arg < String.length flag)%nat
     | Stuck => False
     end).
Proof.
  split.
  - intros value Hvalue ->.
    unfold parse_flag, slice_from, at_index. zig_unfold.
    rewrite substring_append_rest.
    replace (String.length flag <=? String.length (flag ++ "=" ++ value)%string)%nat
      with true by (symmetry; apply Nat.leb_le; rewrite length_append; lia).
    destruct value as [| c value]; [congruence |].
    cbn [append String.length Nat.ltb Nat.leb get Nat.sub substring].
    change (Ascii.eqb "=" "=") with true. cbn [negb].
    now rewrite substring_all.
  - intros out s'. unfold parse_flag, slice_from, at_index. zig_unfold.
    destruct (Nat.leb_spec (String.length flag) (String.length arg)) as [Hle | Hlt];
      [| intros [= <- <-]; auto].
    pose proof (substring_split arg _ Hle) as Hsplit.
    set (value := substring (String.length flag)
                            (String.length arg - String.length flag) arg) in *.
    destruct (Nat.ltb_spec (String.length value) 2) as [Hshort | Hlong].
    + intros [= <- <-]. eauto.
    + destruct value as [| c value]; [simpl in Hlong; lia |].
      cbn [get]. destruct (Ascii.eqb_spec c "=") as [-> | Hc]; cbn [negb].
      * cbn [String.length Nat.leb Nat.sub]. rewrite Nat.sub_0_r.
        cbn [substring]. rewrite substring_all.
        intros [= <- <-]. split; [| split; [reflexivity | exact Hsplit]].
        intros ->. simpl in Hlong. lia.
      * intros [= <- <-]. eauto.
Qed.

(** *** The child processes of [run_simulator] *)

Lemma spawns_app (a b : list event) : spawns (a ++ b) = spawns a ++ spawns b.
Proof. unfold spawns. apply flat_map_app. Qed.

Lemma quiet_app (a b : list event) : quiet a -> quiet b -> quiet (a ++ b).
Proof. unfold quiet. intros Ha Hb. now rewrite forallb_app, Ha, Hb. Qed.

(** How [run_child_process] can end, and what it has done by then. *)
Lemma run_child_process_cases (w : World) (argv : list string) (s : list event) :
  (child_init w argv = false /\
   run_child_process w argv s
   = (Exited 1,
      s ++ [EvStderr "error: unable to initialize simulator as a child process. Error: {}"])) \/
  (child_init w argv = true /\ spawnAndWait w argv = None /\
   run_child_process w argv s
   = (Exited 1,
      s ++ [EvSpawn argv;
            EvStderr "error: unable to run the simulator as a child process. Error: {}"])) \/
  (child_init w argv = true /\
   exists code, spawnAndWait w argv = Some (TermExited code) /\
   run_child_process w argv s
   = (Ret code, s ++ [EvSpawn argv; EvPrint "exit with code: {}"])) \/
  (child_init w argv = true /\
   exists term, spawnAndWait w argv = Some term /\
   (forall code, term <> TermExited code) /\
   run_child_process w argv s
   = (Exited 1,
      s ++ [EvSpawn argv;
            EvStderr "error: the simulator exited without an exit code. Term: {}"])).
Proof.
  unfold run_child_process. zig_unfold.
  destruct (child_init w argv); [| now left].
  right. destruct (spawnAndWait w argv) as [[code | n | n | n] |] eqn:Hterm;
    cbn; rewrite <- ?app_assoc; cbn [app].
  - right. left. eauto.
  - right. right. split; [reflexivity |]. eexists. repeat split. discriminate.
  - right. right. split; [reflexivity |]. eexists. repeat split. discriminate.
  - right. right. split; [reflexivity |]. eexists. repeat split. discriminate.
  - left. auto.
Qed.

(** A run in Debug or ReleaseSafe mode starts with the child process. *)
Lemma run_simulator_S (w : World) (fuel : nat) (seed : Z) (mode : Mode)
    (send_address : option Address) (s : list event) :
  mode = Debug \/ mode = ReleaseSafe ->
  exists k : Z -> Zig (option Bug),
    run_simulator w (S fuel) seed mode send_address s
    = bind (run_child_process w (argv_of mode seed)) k s.
Proof. intros [-> | ->]; eexists; reflexivity. Qed.

(** X2. A simulator that gives no exit code ends the worker: when the child
    process cannot be set up or started, or ends without an exit code (it was
    ended by a signal, stopped, or is in an unknown state), [run_simulator]
    prints one line to stderr and ends the worker with exit code 1.  The seed
    is not run again and nothing is reported: the only event before the line
    is the start of that one child. *)
Theorem simulator_without_exit_code_is_fatal (w : World) (fuel : nat)
    (seed : Z) (mode : Mode) (send_address : option Address) (s : list event) :
  mode = Debug \/ mode = ReleaseSafe ->
  child_fails w mode seed ->
  exists pre message,
    run_simulator w (S fuel) seed mode send_address s
    = (Exited 1, s ++ pre ++ [EvStderr message]) /\
    (pre = [] \/ pre = [EvSpawn (argv_of mode seed)]).
Proof.
  intros Hmode Hfails.
  destruct (run_simulator_S w fuel seed mode send_address s Hmode) as [k ->].
  unfold bind at 1.
  destruct (run_child_process_cases w (argv_of mode seed) s)
    as [[Hi ->] | [(Hi & Hs & ->) | [(Hi & code & Hs & _) | (Hi & term & Hs & Ht & ->)]]].
  - exists []. eexists. cbn [app]. auto.
  - exists [EvSpawn (argv_of mode seed)]. eexists. cbn [app]. auto.
  - destruct Hfails as [Hf | [Hf | (term & Hf & Ht)]]; [congruence .. |].
    rewrite Hs in Hf. injection Hf as <-. now elim (Ht code).
  - exists [EvSpawn (argv_of mode seed)]. eexists. cbn [app]. auto.
Qed.

(** *** What a run starts and reports *)

(** Close the two facts about a list of events that is known. *)
Ltac events_ok :=
  split;
  [first [left; reflexivity | right; left; reflexivity
         | right; right; split; reflexivity | right; reflexivity]
  | first [discriminate | intros _; reflexivity]].

Lemma create_report_spawns (w : World) (b : Bug) (seed : Z) (s : list event) :
  forall out s', create_report w b seed s = (out, s') ->
  exists post, s' = s ++ post /\ spawns post = [].
Proof.
  unfold create_report, slice. zig_unfold. intros out s'.
  repeat (break_match; simpl); intros [= <- <-];
    eexists; (split; [rewrite <- ?app_assoc; reflexivity | reflexivity]).
Qed.

Lemma send_report_spawns (w : World) (hub : Address) (b : Bug) (seed : Z)
    (s : list event) :
  forall out s', send_report w hub b seed s = (out, s') ->
  exists post, s' = s ++ post /\ spawns post = [].
Proof.
  intros out s'. unfold send_report. unfold bind at 1.
  destruct (create_report w b seed s) as [r s1] eqn:Hc.
  destruct (create_report_spawns w b seed s r s1 Hc) as (post1 & -> & H1).
  destruct r; try (intros [= <- <-]; eauto; fail).
  unfold mem_copy. zig_unfold.
  repeat (break_match; simpl); intros [= <- <-];
    eexists; (split; [rewrite <- ?app_assoc; reflexivity |]);
    rewrite ?spawns_app, H1; reflexivity.
Qed.

(** A diagnostic run starts at most its own child process. *)
Lemma run_simulator_debug_events (w : World) (fuel : nat) (seed : Z)
    (send_address : option Address) (s : list event) :
  forall out s', run_simulator w fuel seed Debug send_address s = (out, s') ->
  exists post,
    s' = s ++ post /\
    (spawns post = [] \/ spawns post = [argv_of Debug seed]) /\
    (send_address = None -> quiet post).
Proof.
  intros out s'. destruct fuel as [| fuel].
  { intros [= <- <-]. exists []. rewrite app_nil_r.
    split; [reflexivity | split; [now left | reflexivity]]. }
  destruct (run_child_process_cases w (argv_of Debug seed) s)
    as [[Hi Hc] | [(Hi & Hs & Hc) | [(Hi & code & Hs & Hc) | (Hi & term & Hs & Ht & Hc)]]].
  1, 2, 4: destruct (run_simulator_S w fuel seed Debug send_address s) as [k ->];
    [now left |]; unfold bind; rewrite Hc; intros [= <- <-];
    eexists; (split; [reflexivity |]); events_ok.
  pose proof (run_simulator_unfold w fuel seed Debug send_address s code
                (or_introl eq_refl) (conj Hi Hs)) as Hrun.
  cbv zeta in Hrun. rewrite Hrun. clear Hrun.
  destruct (exit_disposition code) as [| bug |].
  - intros [= <- <-]. eexists. split; [reflexivity |]. events_ok.
  - cbn [Mode_eqb]. destruct send_address as [hub |].
    + unfold bind at 1.
      destruct (send_report w hub bug seed _) as [r s2] eqn:Hsend.
      destruct (send_report_spawns _ _ _ _ _ _ _ Hsend) as (post & -> & Hp).
      intros H. assert (s' = (s ++ [EvSpawn (argv_of Debug seed);
                                     EvPrint "exit with code: {}"]) ++ post)
        by (destruct r; now injection H as _ <-).
      subst s'. rewrite <- app_assoc. eexists. split; [reflexivity |].
      split; [| discriminate]. right. rewrite spawns_app, Hp. reflexivity.
    + intros [= <- <-]. eexists. split; [reflexivity |]. events_ok.
  - intros [= <- <-]. rewrite <- app_assoc. eexists. split; [reflexivity |].
    events_ok.
Qed.

(** A run starts its own child process and, for a fast run that found a
    bug, the diagnostic one of the same seed; without a hub address it
    reads no git log and opens no connection. *)
Lemma run_simulator_events (w : World) (fuel : nat) (seed : Z) (mode : Mode)
    (send_address : option Address) (s : list event) :
  forall out s', run_simulator w fuel seed mode send_address s = (out, s') ->
  exists post,
    s' = s ++ post /\
    (spawns post = [] \/ spawns post = [argv_of mode seed] \/
     (mode = ReleaseSafe /\
      spawns post = [argv_of ReleaseSafe seed; argv_of Debug seed])) /\
    (send_address = None -> quiet post).
Proof.
  intros out s'.
  destruct mode.
  - intros H. destruct (run_simulator_debug_events _ _ _ _ _ _ _ H)
      as (post & -> & [Hp | Hp] & Hq); exists post; auto.
  - destruct fuel as [| fuel].
    { intros [= <- <-]. exists []. rewrite app_nil_r.
      split; [reflexivity | split; [now left | reflexivity]]. }
    destruct (run_child_process_cases w (argv_of ReleaseSafe seed) s)
      as [[Hi Hc] | [(Hi & Hs & Hc) | [(Hi & code & Hs & Hc) | (Hi & term & Hs & Ht & Hc)]]].
    1, 2, 4: destruct (run_simulator_S w fuel seed ReleaseSafe send_address s) as [k ->];
      [now right |]; unfold bind; rewrite Hc; intros [= <- <-];
      eexists; (split; [reflexivity |]); events_ok.
    pose proof (run_simulator_unfold w fuel seed ReleaseSafe send_address s code
                  (or_intror eq_refl) (conj Hi Hs)) as Hrun.
    cbv zeta in Hrun. rewrite Hrun. clear Hrun.
    destruct (exit_disposition code) as [| bug |].
    + intros [= <- <-]. eexists. split; [reflexivity |]. events_ok.
    + cbn [Mode_eqb]. zig_unfold.
      rewrite <- !app_assoc. cbn [app].
      destruct (run_simulator w fuel seed Debug send_address _) as [r s2] eqn:Hrerun.
      destruct (run_simulator_debug_events _ _ _ _ _ _ _ Hrerun)
        as (post & -> & Hp & Hq).
      intros H.
      assert (Hs' : s' = s ++ [EvSpawn (argv_of ReleaseSafe seed);
                               EvPrint "exit with code: {}";
                               EvPrint "simulator exited with exit code {}.";
                               EvPrint "rerunning seed {} in Debug mode."] ++ post).
      { rewrite <- app_assoc in H. cbn [app] in H.
        destruct r as [[bug' |] | | |]; [destruct (Bug_eqb bug bug') | ..];
          now injection H as _ <-. }
      eexists. split; [exact Hs' |]. rewrite spawns_app. cbn [spawns flat_map app].
      split.
      * destruct Hp as [-> | ->]; [right; left | right; right]; auto.
      * intros Hnone. exact (Hq Hnone).
    + intros [= <- <-]. rewrite <- app_assoc. eexists. split; [reflexivity |].
      events_ok.
  - destruct fuel; intros [= <- <-]; exists []; rewrite app_nil_r;
      (split; [reflexivity | split; [now left | reflexivity]]).
  - destruct fuel; intros [= <- <-]; exists []; rewrite app_nil_r;
      (split; [reflexivity | split; [now left | reflexivity]]).
Qed.

(** X3. A run of the simulator starts at most two child processes: its own
    and, after a fast (ReleaseSafe) run, one diagnostic (Debug) run of the
    same seed; a diagnostic run starts only its own.  This holds however the
    children and the hub behave and however the run ends. *)
Theorem run_simulator_starts_at_most_two (w : World) (fuel : nat) (seed : Z)
    (mode : Mode) (send_address : option Address) (s : list event) :
  exists post,
    snd (run_simulator w fuel seed mode send_address s) = s ++ post /\
    (spawns post = [] \/ spawns post = [argv_of mode seed] \/
     (mode = ReleaseSafe /\
      spawns post = [argv_of ReleaseSafe seed; argv_of Debug seed])).
Proof.
  destruct (run_simulator w fuel seed mode send_address s) as [out s'] eqn:Hrun.
  destruct (run_simulator_events _ _ _ _ _ _ _ _ Hrun) as (post & -> & Hp & _).
  exists post. now split.
Qed.

(** *** The commit of a report *)

Lemma charToDigit_hex_digit (d : Z) :
  0 <= d < 16 -> charToDigit (hex_digit d) = Some d.
Proof.
  intros Hd.
  assert (H : d = 0 \/ d = 1 \/ d = 2 \/ d = 3 \/ d = 4 \/ d = 5 \/ d = 6 \/ d = 7 \/
              d = 8 \/ d = 9 \/ d = 10 \/ d = 11 \/ d = 12 \/ d = 13 \/ d = 14 \/
              d = 15) by lia.
  repeat (destruct H as [-> | H]; [reflexivity |]). subst d. reflexivity.
Qed.

Lemma nibbles (b : Z) :
  is_byte b -> Z.lor (Z.shiftl (b / 16) 4) (b mod 16) = b.
Proof.
  intros Hb. unfold is_byte in Hb.
  rewrite Z.shiftl_mul_pow2 by lia.
  assert (Hland : Z.land (b / 16 * 2 ^ 4) (b mod 16) = 0).
  { apply Z.bits_inj'. intros n Hn. rewrite Z.land_spec, Z.bits_0.
    destruct (Z.ltb_spec n 4) as [Hlt | Hge].
    - rewrite Z.mul_pow2_bits_low by lia. reflexivity.
    - change 16 with (2 ^ 4) at 2. rewrite Z.mod_pow2_bits_high by lia.
      apply andb_false_r. }
  rewrite <- Z.lxor_lor, <- Z.add_nocarry_lxor by exact Hland.
  pose proof (Z.div_mod b 16). change (2 ^ 4) with 16. lia.
Qed.

Lemma hexToBytes_hex_of_bytes (l : list Z) :
  Forall is_byte l -> hexToBytes (hex_of_bytes l) = Some l.
Proof.
  induction 1 as [| b l Hb Hl IH]; [reflexivity |].
  cbn [hex_of_bytes hexToBytes]. unfold is_byte in Hb.
  rewrite !charToDigit_hex_digit, IH, nibbles; auto.
  - apply Z.mod_pos_bound. lia.
  - split; [apply Z.div_pos; lia | apply Z.div_lt_upper_bound; lia].
Qed.

Lemma hex_of_bytes_length (l : list Z) :
  String.length (hex_of_bytes l) = (2 * List.length l)%nat.
Proof. induction l as [| b l IH]; cbn [hex_of_bytes String.length List.length]; lia. Qed.

Lemma substring_append_take (a b : string) :
  substring 0 (String.length a) (a ++ b)%string = a.
Proof. induction a as [| c a IH]; simpl; [now destruct b | now rewrite IH]. Qed.

(** X4. [create_report] reads the commit off the first line of [git log -1]:
    when the output starts with [commit ] and the 40 hex digits of 20 bytes,
    the report holds these 20 bytes, next to the wire code of the bug and the
    seed. *)
Theorem create_report_reads_commit (w : World) (b : Bug) (seed : Z)
    (s : list event) (commit : list Z) (rest : string) :
  Forall is_byte commit ->
  List.length commit = 20%nat ->
  git_log_stdout w = Some ("commit " ++ hex_of_bytes commit ++ rest)%string ->
  create_report w b seed s
  = (Ret {| bug := bug_code b; Vopr.seed := seed; Vopr.commit := commit |},
     s ++ [EvPrint "Collecting VOPR bug and seed, and the current git commit hash.";
           EvGitLog; EvPrint "git commit that was retrieved: {s}"]).
Proof.
  intros Hbytes Hlen Hlog.
  assert (Hsub : substring 7 40 ("commit " ++ hex_of_bytes commit ++ rest)%string
                 = hex_of_bytes commit).
  { cbn [append substring].
    replace 40%nat with (String.length (hex_of_bytes commit))
      by (rewrite hex_of_bytes_length; lia).
    apply substring_append_take. }
  unfold create_report, slice. zig_unfold. rewrite Hlog.
  replace (47 <=? String.length ("commit " ++ hex_of_bytes commit ++ rest)%string)%nat
    with true
    by (symmetry; apply Nat.leb_le; rewrite !length_append, hex_of_bytes_length;
        cbn [String.length]; lia).
  change (47 - 7)%nat with 40%nat. rewrite Hsub.
  rewrite hexToBytes_hex_of_bytes by exact Hbytes.
  rewrite <- !app_assoc. now destruct b.
Qed.

(** X5. Without a commit id there is no report: when [git log -1] fails,
    gives less than 47 bytes or gives no 40 hex digits after [commit ],
    [send_report] ends the worker, by exit code 1 or, for the short output, by
    the panic of a slice out of bounds, and it has opened no connection to the
    hub. *)
Theorem send_report_needs_the_commit (w : World) (hub : Address) (b : Bug)
    (seed : Z) (s : list event) :
  no_commit_id w ->
  exists out post,
    send_report w hub b seed s = (out, s ++ post) /\
    terminates_fatally out /\
    connects post = [] /\
    (out = Panicked PanicOutOfBounds <->
     exists git_log, git_log_stdout w = Some git_log /\
                     (String.length git_log < 47)%nat).
Proof.
  unfold no_commit_id, send_report, create_report, slice, terminates_fatally.
  zig_unfold.
  destruct (git_log_stdout w) as [git_log |].
  - destruct (Nat.leb_spec 47 (String.length git_log)) as [Hlong | Hshort].
    + intros [Hlt | Hhex]; [lia |]. cbn [Nat.sub]. rewrite Hhex.
      do 2 eexists. split; [rewrite <- !app_assoc; reflexivity |].
      split; [now right | split; [reflexivity |]].
      split; [discriminate | intros (log & [= <-] & Hlt); lia].
    + intros _. do 2 eexists. split; [rewrite <- !app_assoc; reflexivity |].
      split; [left; eauto | split; [reflexivity |]].
      split; [eauto | reflexivity].
  - intros _. do 2 eexists. split; [rewrite <- !app_assoc; reflexivity |].
    split; [now right | split; [reflexivity |]].
    split; [discriminate | now intros (log & [=] & _)].
Qed.

(** *** Reports on the wire *)

Lemma be_bytes_inj (x y : Z) :
  0 <= x < 2 ^ 64 -> 0 <= y < 2 ^ 64 -> be_bytes x = be_bytes y -> x = y.
Proof.
  intros Hx Hy H. unfold be_bytes in H. cbn [seq map] in H.
  injection H as H7 H6 H5 H4 H3 H2 H1 H0.
  repeat match goal with
         | H : context [7 - Z.of_nat ?n] |- _ =>
             let v := eval vm_compute in (7 - Z.of_nat n) in
             change (7 - Z.of_nat n) with v in H
         end.
  assert (Hd : forall z k, 0 <= k ->
            z / 256 ^ k = 256 * (z / 256 ^ (k + 1)) + (z / 256 ^ k) mod 256).
  { intros z k Hk. rewrite Z.pow_add_r, Z.pow_1_r by lia.
    rewrite <- Z.div_div by lia.
    apply Z.div_mod. lia. }
  assert (Htop : forall z, 0 <= z < 2 ^ 64 -> z / 256 ^ 8 = 0)
    by (intros z Hz; apply Z.div_small; change (256 ^ 8) with (2 ^ 64); lia).
  pose proof (Hd x 0 ltac:(lia)) as X0. pose proof (Hd y 0 ltac:(lia)) as Y0.
  pose proof (Hd x 1 ltac:(lia)) as X1. pose proof (Hd y 1 ltac:(lia)) as Y1.
  pose proof (Hd x 2 ltac:(lia)) as X2. pose proof (Hd y 2 ltac:(lia)) as Y2.
  pose proof (Hd x 3 ltac:(lia)) as X3. pose proof (Hd y 3 ltac:(lia)) as Y3.
  pose proof (Hd x 4 ltac:(lia)) as X4. pose proof (Hd y 4 ltac:(lia)) as Y4.
  pose proof (Hd x 5 ltac:(lia)) as X5. pose proof (Hd y 5 ltac:(lia)) as Y5.
  pose proof (Hd x 6 ltac:(lia)) as X6. pose proof (Hd y 6 ltac:(lia)) as Y6.
  pose proof (Hd x 7 ltac:(lia)) as X7. pose proof (Hd y 7 ltac:(lia)) as Y7.
  pose proof (Htop x Hx) as X8. pose proof (Htop y Hy) as Y8.
  cbn [Z.add Pos.add Pos.succ] in *.
  rewrite !Z.pow_0_r, !Z.div_1_r in *.
  lia.
Qed.

(** X6. The bytes on the wire tell the reports apart: two reports, of any two
    workers, whose seeds are 64-bit values are written as the same message
    only when they are of the same kind of bug, the same seed and the same
    commit. *)
Theorem wire_message_determines_report (w w' : World) (hub hub' : Address)
    (b b' : Bug) (seed seed' : Z) (s s' post post' : list event)
    (out out' : result panic_value unit) (message : list Z) :
  0 <= seed < 2 ^ 64 ->
  0 <= seed' < 2 ^ 64 ->
  send_report w hub b seed s = (out, s ++ post) ->
  send_report w' hub' b' seed' s' = (out', s' ++ post') ->
  In message (writes post) ->
  In message (writes post') ->
  b = b' /\ seed = seed' /\
  exists git_log git_log',
    git_log_stdout w = Some git_log /\ git_log_stdout w' = Some git_log' /\
    hexToBytes (substring 7 40 git_log) = hexToBytes (substring 7 40 git_log').
Proof.
  intros Hseed Hseed' Hsend Hsend' Hin Hin'.
  pose proof (send_report_writes_after _ _ _ _ _ _ _ Hsend) as Hall.
  pose proof (send_report_writes_after _ _ _ _ _ _ _ Hsend') as Hall'.
  rewrite Forall_forall in Hall, Hall'.
  destruct (Hall _ Hin) as (log & commit & Hlog & Hhex & Hlen & ->).
  destruct (Hall' _ Hin') as (log' & commit' & Hlog' & Hhex' & Hlen' & Heq).
  assert (Hcode : bug_code b = bug_code b') by exact (f_equal (hd 0) Heq).
  assert (Hbe : be_bytes seed = be_bytes seed')
    by exact (f_equal (fun m => firstn 8 (tl m)) Heq).
  assert (Hcommit : commit = commit')
    by exact (f_equal (fun m => skipn 8 (tl m)) Heq).
  split; [now destruct b, b' |].
  split; [now apply be_bytes_inj |].
  exists log, log'. subst commit'. split; [exact Hlog |].
  split; [exact Hlog' | congruence].
Qed.

(** *** [main] over random seeds *)

Section Main.

Variable w : World.
Variable parse_args : Zig (string + Flags).
Variable random_int : nat -> Z.

Lemma quiet_runs_app (a b : list Z) :
  quiet_runs (a ++ b) = quiet_runs a ++ quiet_runs b.
Proof. unfold quiet_runs. apply flat_map_app. Qed.

(** Rounds whose seeds pass. *)
Lemma simulations_loop_passes (depth : nat) (args : Flags) (k : nat) :
  Z.of_nat k <= simulations args ->
  (forall j, (j < k)%nat -> child_exits w ReleaseSafe (random_int j) 0) ->
  forall m j fuel s,
    (j + m = k)%nat -> (m <= fuel)%nat ->
    simulations_loop w random_int (S depth) fuel args (Z.of_nat j) s
    = simulations_loop w random_int (S depth) (fuel - m) args (Z.of_nat k)
        (s ++ quiet_runs (map random_int (seq j m))).
Proof.
  intros Hk Hpass. induction m as [| m IH]; intros j fuel s Hj Hfuel.
  - cbn [seq map quiet_runs flat_map]. rewrite app_nil_r, Nat.sub_0_r.
    now replace j with k by lia.
  - destruct fuel as [| fuel]; [lia |].
    cbn [simulations_loop].
    replace (Z.of_nat j <? simulations args) with true
      by (symmetry; apply Z.ltb_lt; lia).
    rewrite Nat2Z.id. unfold bind at 1.
    pose proof (run_simulator_unfold w depth (random_int j) ReleaseSafe
                  (send_address args) s 0 (or_intror eq_refl)
                  (Hpass j ltac:(lia))) as Hrun.
    cbv zeta in Hrun. cbn [exit_disposition Z.eqb] in Hrun. rewrite Hrun.
    replace (Z.of_nat j + 1) with (Z.of_nat (S j)) by lia.
    rewrite IH by lia.
    cbn [seq map Nat.sub]. change (random_int j :: map random_int (seq (S j) m))
      with ([random_int j] ++ map random_int (seq (S j) m)).
    rewrite quiet_runs_app, app_assoc. reflexivity.
Qed.

(** X7. Without a seed and outside Debug mode, [main] draws seed after seed
    and runs each in ReleaseSafe mode, up to [simulations] of them, and stops
    at the first one whose run does not pass.  While the first [k] seeds pass
    (their simulators exit with 0), nothing else happens than their [k] child
    processes; when these were all, [main] returns; otherwise [main] ends as
    the run of seed [k] ends, returning when that run returns a bug, and draws
    no further seed. *)
Theorem main_stops_at_first_failing_seed (depth fuel : nat) (args : Flags)
    (s s1 : list event) (k : nat) :
  parse_args s = (Ret (inr args), s1) ->
  VoprMain.seed args = None ->
  build_mode args <> Debug ->
  Z.of_nat k <= simulations args ->
  (forall j, (j < k)%nat -> child_exits w ReleaseSafe (random_int j) 0) ->
  let s2 := s1 ++ quiet_runs (map random_int (seq 0 k)) in
  (Z.of_nat k = simulations args -> (k <= fuel)%nat ->
   main w parse_args random_int (S depth) fuel s = (Ret tt, s2)) /\
  (Z.of_nat k < simulations args -> (k < fuel)%nat ->
   forall out s',
     run_simulator w (S depth) (random_int k) ReleaseSafe (send_address args) s2
     = (out, s') ->
     out <> Ret None ->
     main w parse_args random_int (S depth) fuel s = (dropped out, s')).
Proof.
  intros Hparse Hseed Hmode Hk Hpass s2.
  assert (Hmain : forall fuel, (k <= fuel)%nat ->
            main w parse_args random_int (S depth) fuel s
            = simulations_loop w random_int (S depth) (fuel - k) args
                (Z.of_nat k) s2).
  { intros fuel' Hfuel. unfold main. unfold bind at 1. rewrite Hparse, Hseed.
    replace (Mode_eqb (build_mode args) Debug) with false
      by (revert Hmode; destruct (build_mode args); [congruence | reflexivity ..]).
    apply (simulations_loop_passes depth args k Hk Hpass k 0%nat); lia. }
  split.
  - intros Hall Hfuel. rewrite Hmain by exact Hfuel.
    destruct (fuel - k)%nat; cbn [simulations_loop];
      now replace (Z.of_nat k <? simulations args) with false
        by (symmetry; apply Z.ltb_ge; lia).
  - intros Hmore Hfuel out s' Hrun Hout. rewrite Hmain by lia.
    destruct (fuel - k)%nat as [| fuel'] eqn:Hleft; [lia |].
    cbn [simulations_loop].
    replace (Z.of_nat k <? simulations args) with true
      by (symmetry; apply Z.ltb_lt; lia).
    rewrite Nat2Z.id. unfold bind at 1. rewrite Hrun.
    destruct out as [[bug |] | code | p |]; try reflexivity. congruence.
Qed.

(** What the loop adds to the events when no hub address is set. *)
Lemma simulations_loop_quiet (depth : nat) (args : Flags) :
  send_address args = None ->
  forall fuel i s out s',
    simulations_loop w random_int depth fuel args i s = (out, s') ->
    exists post, s' = s ++ post /\ quiet post.
Proof.
  intros Hnone. induction fuel as [| fuel IH]; intros i s out s';
    cbn [simulations_loop]; destruct (i <? simulations args);
    try (intros [= <- <-]; exists []; now rewrite app_nil_r).
  unfold bind at 1.
  destruct (run_simulator w depth (random_int (Z.to_nat i)) ReleaseSafe
              (send_address args) s) as [r s1] eqn:Hrun.
  destruct (run_simulator_events _ _ _ _ _ _ _ _ Hrun) as (post1 & -> & _ & Hq).
  specialize (Hq Hnone).
  destruct r as [[bug |] | code | p |];
    try (intros [= <- <-]; exists post1; now split).
  intros Hloop. destruct (IH _ _ _ _ Hloop) as (post2 & -> & Hq2).
  exists (post1 ++ post2). split; [now rewrite app_assoc | now apply quiet_app].
Qed.

(** X8. Sending is opt-in: when the flags that [parse_args] returns hold no
    hub address, nothing that [main] does after parsing reads the git log,
    opens a connection, or writes to or reads from one, however the simulators
    end. *)
Theorem main_reports_only_with_send (depth fuel : nat) (s s1 : list event)
    (parsed : result panic_value (string + Flags)) :
  parse_args s = (parsed, s1) ->
  (forall args, parsed = Ret (inr args) -> send_address args = None) ->
  exists post,
    snd (main w parse_args random_int depth fuel s) = s1 ++ post /\
    quiet post.
Proof.
  intros Hparse Hnone. unfold main. unfold bind at 1. rewrite Hparse.
  destruct parsed as [[err | args] | code | p |];
    try (exists []; now rewrite app_nil_r).
  { eexists. split; [reflexivity | reflexivity]. }
  specialize (Hnone args eq_refl).
  assert (Hrun : forall seed mode text,
            exists post,
              snd ((print text ;;;
                    _ <- run_simulator w depth seed mode (send_address args) ;;
                    ret tt)%eff s1) = s1 ++ post /\ quiet post).
  { intros seed mode text. unfold bind at 1. unfold print, Vopr.emit at 1.
    unfold bind at 1.
    destruct (run_simulator w depth seed mode (send_address args) _)
      as [r s2] eqn:Hrun.
    destruct (run_simulator_events _ _ _ _ _ _ _ _ Hrun) as (post & -> & _ & Hq).
    exists ([EvPrint text] ++ post). split.
    - rewrite app_assoc. now destruct r.
    - apply quiet_app; [reflexivity | auto]. }
  destruct (VoprMain.seed args) as [seed |].
  - destruct (negb (Mode_eqb (build_mode args) Debug)); apply Hrun.
  - destruct (Mode_eqb (build_mode args) Debug).
    + eexists. split; [reflexivity | reflexivity].
    + destruct (simulations_loop w random_int depth fuel args 0 s1)
        as [r s2] eqn:Hloop.
      exact (simulations_loop_quiet depth args Hnone _ _ _ _ _ Hloop).
Qed.

End Main.

End VoprMainProperties.

(** *** Concrete runs of the worker *)

Section VoprMainSamples.

Import Vopr VoprSpec VoprMain VoprMainSpec.

(** The simulator is ended by a signal in the fast run. *)
Lemma simulator_without_exit_code_is_fatal_witness :
  child_fails killed_world ReleaseSafe sample_seed /\
  exists pre message,
    run_simulator killed_world 1 sample_seed ReleaseSafe
      (Some default_send_address) []
    = (Exited 1, [] ++ pre ++ [EvStderr message]) /\
    (pre = [] \/ pre = [EvSpawn (argv_of ReleaseSafe sample_seed)]).
Proof.
  assert (Hfails : child_fails killed_world ReleaseSafe sample_seed).
  { right. right. eexists. split; [reflexivity | discriminate]. }
  split; [exact Hfails |].
  exact (simulator_without_exit_code_is_fatal killed_world 0 sample_seed
           ReleaseSafe (Some default_send_address) [] (or_intror eq_refl) Hfails).
Defined.

(** The checkout is at commit 0a0b...1d. *)
Lemma create_report_reads_commit_witness :
  create_report (sample_world 129 129 true) correctness sample_seed []
  = (Ret sample_report,
     [] ++ [EvPrint "Collecting VOPR bug and seed, and the current git commit hash.";
            EvGitLog; EvPrint "git commit that was retrieved: {s}"]).
Proof.
  apply (create_report_reads_commit (sample_world 129 129 true) correctness
           sample_seed [] (commit sample_report) ""%string).
  - repeat constructor; unfold is_byte; lia.
  - reflexivity.
  - reflexivity.
Defined.

(** Outside a git checkout. *)
Lemma send_report_needs_the_commit_witness :
  no_commit_id killed_world /\
  exists out post,
    send_report killed_world default_send_address crash sample_seed []
    = (out, [] ++ post) /\
    terminates_fatally out /\ connects post = [].
Proof.
  split; [exact I |].
  destruct (send_report_needs_the_commit killed_world default_send_address crash
              sample_seed [] I) as (out & post & Hrun & Hfatal & Hnone & _).
  exists out, post. auto.
Defined.

(** The one message of a report of the sample worker. *)
Lemma wire_message_determines_report_witness :
  correctness = correctness /\ sample_seed = sample_seed /\
  exists git_log git_log',
    git_log_stdout (sample_world 129 129 true) = Some git_log /\
    git_log_stdout (sample_world 129 129 true) = Some git_log' /\
    hexToBytes (substring 7 40 git_log) = hexToBytes (substring 7 40 git_log').
Proof.
  apply (wire_message_determines_report
           (sample_world 129 129 true) (sample_world 129 129 true)
           default_send_address default_send_address correctness correctness
           sample_seed sample_seed [] []
           (snd (send_report (sample_world 129 129 true) default_send_address
                   correctness sample_seed []))
           (snd (send_report (sample_world 129 129 true) default_send_address
                   correctness sample_seed []))
           (Ret tt) (Ret tt)
           (payload sample_report)).
  - unfold sample_seed. lia.
  - unfold sample_seed. lia.
  - reflexivity.
  - reflexivity.
  - vm_compute. left. reflexivity.
  - vm_compute. left. reflexivity.
Defined.

(** Seed 7 passes, the next seed fails in both modes. *)
Lemma main_stops_at_first_failing_seed_witness :
  main flaky_world sample_parse_args sample_random 2 2 []
  = (Ret tt,
     quiet_runs [7]
       ++ rerun_prefix sample_seed
       ++ [EvSpawn (argv_of Debug sample_seed); EvPrint "exit with code: {}"]).
Proof.
  refine (proj2 (main_stops_at_first_failing_seed flaky_world sample_parse_args
                   sample_random 1 2 sample_flags [] [] 1
                   eq_refl eq_refl _ _ _)
            _ _ (Ret (Some correctness)) _ eq_refl _).
  - discriminate.
  - cbn. lia.
  - intros j Hj. assert (j = 0%nat) by lia. subst j. split; reflexivity.
  - cbn. lia.
  - lia.
  - discriminate.
Defined.

(** No hub address on the command line. *)
Lemma main_reports_only_with_send_witness :
  exists post,
    snd (main flaky_world sample_parse_args sample_random 2 2 []) = [] ++ post /\
    quiet post.
Proof.
  apply (main_reports_only_with_send flaky_world sample_parse_args sample_random
           2 2 [] [] (Ret (inr sample_flags)) eq_refl).
  intros args [= <-]. reflexivity.
Defined.

End VoprMainSamples.

(** ** The organizer: from the environment to the checkout *)

Section OrganizerRuns.

Import Organizer OrganizerSpec OrganizerRunSpec.

Context {Repo : Type} (w : World Repo).

(** Unfold the monad and the primitives of the organizer. *)
Ltac go_unfold :=
  cbv [bind ret exit panic stuck emit get_vars set_vars log_error log_debug
       log_info log_message].

(** *** The configuration after a start *)

Lemma TrimRight_spec (cutset s : string) :
  exists tail,
    s = (TrimRight s cutset ++ tail)%string /\
    only_from cutset tail = true /\
    ends_in cutset (TrimRight s cutset) = false.
Proof.
  induction s as [| c rest (tail & Hrest & Honly & Hends)].
  - exists ""%string. now cbn.
  - cbn [TrimRight].
    destruct (String.eqb_spec (TrimRight rest cutset) "") as [Hempty | Hnot].
    + rewrite Hempty in Hrest. cbn [append] in Hrest. subst tail.
      destruct (in_cutset c cutset) eqn:Hc; cbn [andb].
      * exists (String c rest). cbn [append only_from ends_in].
        rewrite Hc, Honly. auto.
      * exists rest. rewrite Hempty. cbn [append ends_in]. auto.
    + cbn [andb]. exists tail. cbn [append]. rewrite <- Hrest.
      split; [reflexivity | split; [exact Honly |]].
      cbn [ends_in]. destruct (TrimRight rest cutset); [congruence | exact Hends].
Qed.

(** X9. When [set_environment_variables] returns, the configuration is the
    one of the environment: the directory is TIGERBEETLE_DIRECTORY without its
    trailing slashes and backslashes (every one of them, so that it does not
    end in one), the URL is REPOSITORY_URL, and NUM_VOPRS and CURRENT_VOPR are
    the integers written in their variables, both at least 1.  The debug flag
    and the repositories are as before, and nothing is logged unless the debug
    flag is set, in which case the four values are. *)
Theorem set_environment_variables_configures (s s' : state Repo) :
  set_environment_variables w s = (Ret tt, s') ->
  exists dir tail url num cur,
    LookupEnv w "TIGERBEETLE_DIRECTORY" = Some (dir ++ tail)%string /\
    (dir ++ tail)%string <> ""%string /\
    only_from "/\" tail = true /\ ends_in "/\" dir = false /\
    LookupEnv w "REPOSITORY_URL" = Some url /\ url <> ""%string /\
    LookupEnv w "NUM_VOPRS" = Some num /\
    LookupEnv w "CURRENT_VOPR" = Some cur /\
    exists n c,
      Atoi num = inr n /\ 1 <= n <= int_max /\
      Atoi cur = inr c /\ 1 <= c <= int_max /\
      vars s' = {| debug_mode := debug_mode (vars s);
                   tigerbeetle_directory := dir; repository_url := url;
                   num_voprs := n; current_vopr := c |} /\
      repo s' = repo s /\
      trace s' = trace s ++ (if debug_mode (vars s) then debug_lines (vars s')
                             else []).
Proof.
  unfold set_environment_variables.
  destruct (LookupEnv w "TIGERBEETLE_DIRECTORY") as [dir |]; [| discriminate].
  destruct (LookupEnv w "REPOSITORY_URL") as [url |];
    [| go_unfold; repeat (break_match; cbn); discriminate].
  destruct (LookupEnv w "NUM_VOPRS") as [num |];
    [| go_unfold; repeat (break_match; cbn); discriminate].
  destruct (LookupEnv w "CURRENT_VOPR") as [cur |];
    [| go_unfold; repeat (break_match; cbn); discriminate].
  destruct (Atoi num) as [e | n] eqn:Hn;
    [go_unfold; repeat (break_match; cbn); discriminate |].
  destruct (Atoi cur) as [e | c] eqn:Hc;
    [go_unfold; repeat (break_match; cbn); discriminate |].
  pose proof (Atoi_is_int _ _ Hn) as Hni. pose proof (Atoi_is_int _ _ Hc) as Hci.
  unfold is_int, int_min, int_max in *.
  destruct (Z.leb_spec n 0);
    [go_unfold; repeat (break_match; cbn); discriminate |].
  destruct (Z.leb_spec c 0);
    [go_unfold; repeat (break_match; cbn); discriminate |].
  destruct (String.eqb_spec dir "") as [-> | Hdir];
    [go_unfold; repeat (break_match; cbn); discriminate |].
  destruct (String.eqb_spec url "") as [-> | Hurl];
    [go_unfold; repeat (break_match; cbn); discriminate |].
  destruct (String.eqb_spec num "") as [-> | Hnum]; [discriminate Hn |].
  destruct (String.eqb_spec cur "") as [-> | Hcur]; [discriminate Hc |].
  destruct (TrimRight_spec "/\" dir) as (tail & Hsplit & Honly & Hends).
  intros Hrun.
  exists (TrimRight dir "/\"), tail, url, num, cur.
  rewrite <- Hsplit.
  repeat (split; [first [reflexivity | assumption] |]).
  exists n, c.
  repeat (split; [first [reflexivity | assumption | lia] |]).
  revert Hrun. go_unfold. cbn [negb vars trace repo debug_mode
                               set_tigerbeetle_directory set_repository_url
                               set_num_voprs set_current_vopr].
  destruct (debug_mode (vars s)) eqn:Hdbg; repeat (cbn; rewrite ?Hdbg);
    intros [= <-];
    unfold debug_lines, set_current_vopr, set_num_voprs, set_repository_url,
      set_tigerbeetle_directory;
    cbn; rewrite ?Hdbg, <- ?app_assoc, ?app_nil_r; auto.
Qed.

(** *** Requests to the tracker *)

Lemma http_requests_app (a b : list event) :
  http_requests (a ++ b) = http_requests a ++ http_requests b.
Proof. unfold http_requests. apply flat_map_app. Qed.

(** What the checks on an answer make of it. *)
Lemma check_response_cases {A} (res : Response) (decoded : Response -> string + A)
    (s : state Repo) :
  forall out s', check_response res (decoded res) s = (out, s') ->
  vars s' = vars s /\ repo s' = repo s /\
  match out with
  | Ret a => healthy res /\ decoded res = inr a /\ s' = s
  | Panicked p =>
      ~ (healthy res /\ exists a, decoded res = inr a) /\
      (p = PanicNilDereference <->
       get_error res = None /\ StatusCode res > 299 /\ read_error res = None) /\
      exists message, trace s' = trace s ++ [EvLog "error: " message]
  | _ => False
  end.
Proof.
  intros out s'. unfold check_response, healthy. go_unfold.
  destruct (get_error res) as [e |].
  { intros [= <- <-]. cbn [vars repo trace].
    split; [reflexivity | split; [reflexivity | split; [| split]]].
    - intros [(H & _) _]. discriminate H.
    - split; [discriminate | intros (H & _); discriminate H].
    - eexists. reflexivity. }
  destruct (Z.gtb_spec (StatusCode res) 299) as [Hbad | Hok].
  { destruct (read_error res) as [e |]; intros [= <- <-]; cbn [vars repo trace];
      (split; [reflexivity | split; [reflexivity | split; [| split]]]);
      try (eexists; reflexivity); try (intros [(_ & H & _) _]; lia).
    - split; [discriminate | intros (_ & _ & H); discriminate H].
    - split; [intros _; repeat split; auto; lia | reflexivity]. }
  destruct (read_error res) as [e |].
  { intros [= <- <-]. cbn [vars repo trace].
    split; [reflexivity | split; [reflexivity | split; [| split]]].
    - intros [(_ & _ & H) _]. discriminate H.
    - split; [discriminate | intros (_ & _ & H); discriminate H].
    - eexists. reflexivity. }
  destruct (decoded res) as [e | a] eqn:Hd; intros [= <- <-]; cbn [vars repo trace].
  - split; [reflexivity | split; [reflexivity | split; [| split]]].
    + intros [_ [a H]]. discriminate H.
    + split; [discriminate | intros (_ & H & _); lia].
    + eexists. reflexivity.
  - repeat split; auto.
Qed.

(** X10. A request to the tracker is made once and never again: each of the
    fetching functions sends exactly one GET, returns only what an answer
    without error and with a status code up to 299 decodes to, and otherwise
    logs one error line and panics; the panic is the one of a nil error
    exactly when the status code is above 299 and the body was read.  The
    configuration and the repositories are left alone. *)
Theorem tracker_requests_are_made_once (s : state Repo) :
  (forall num_posts page_number out s',
     Commits.get_pull_requests w num_posts page_number s = (out, s') ->
     one_request w (Commits.pulls_url (repository_url (vars s)) num_posts page_number)
       body_issues (fun prs => prs)
       (fun prs => [EvPrint ("Num PRs: " ++ itoa (len prs))%string]) s out s') /\
  (forall branch_name out s',
     Commits.get_commits w branch_name s = (out, s') ->
     one_request w (Commits.commits_url (repository_url (vars s)) branch_name)
       body_commits (fun commits => match commits with
                                    | c :: _ => Sha c
                                    | [] => ""%string
                                    end)
       (fun _ => []) s out s') /\
  (forall out s',
     Branches.get_pull_requests w s = (out, s') ->
     one_request w (repository_url (vars s)) body_issues (fun prs => prs)
       (fun _ => []) s out s').
Proof.
  split; [| split].
  - intros num_posts page_number out s'.
    unfold Commits.get_pull_requests, http_get, one_request.
    unfold bind at 1. unfold get_vars at 1.
    unfold bind at 1. unfold bind at 1. unfold emit at 1. unfold ret at 1.
    set (url := Commits.pulls_url _ _ _).
    set (s1 := {| vars := vars s; trace := _; repo := repo s |}).
    unfold bind at 1.
    destruct (check_response (http_Get w url) (body_issues (http_Get w url)) s1)
      as [r s2] eqn:Hc.
    destruct (check_response_cases _ _ _ _ _ Hc) as (Hv & Hr & Hout).
    destruct r as [prs | code | p |]; try contradiction.
    + destruct Hout as (Hh & Hd & ->).
      unfold bind at 1. unfold emit at 1. unfold ret at 1.
      intros [= <- <-]. cbn [trace vars repo s1].
      rewrite !http_requests_app. cbn [http_requests flat_map app].
      rewrite app_nil_r, <- app_assoc.
      repeat split; try apply Hh. exists prs. auto.
    + destruct Hout as (Hnot & Hnil & message & Ht).
      intros [= <- <-]. rewrite Ht, Hv, Hr. cbn [trace vars repo s1].
      rewrite !http_requests_app. cbn [http_requests flat_map app].
      rewrite app_nil_r, <- app_assoc.
      split; [reflexivity | split; [reflexivity | split; [reflexivity |]]].
      split; [exact Hnot | split; [exact Hnil | exists message; reflexivity]].
  - intros branch_name out s'.
    unfold Commits.get_commits, http_get, one_request.
    unfold bind at 1. unfold get_vars at 1.
    unfold bind at 1. unfold bind at 1. unfold emit at 1. unfold ret at 1.
    set (url := Commits.commits_url _ _).
    set (s1 := {| vars := vars s; trace := _; repo := repo s |}).
    unfold bind at 1.
    destruct (check_response (http_Get w url) (body_commits (http_Get w url)) s1)
      as [r s2] eqn:Hc.
    destruct (check_response_cases _ _ _ _ _ Hc) as (Hv & Hr & Hout).
    destruct r as [commits | code | p |]; try contradiction.
    + destruct Hout as (Hh & Hd & ->).
      assert (Hret : forall r : string,
                (Ret r, s1) = (out, s') ->
                one_request w url body_commits
                  (fun commits => match commits with
                                  | c :: _ => Sha c
                                  | [] => ""%string
                                  end) (fun _ => []) s out s'
                \/ r <> match commits with
                        | c :: _ => Sha c
                        | [] => ""%string
                        end).
      { intros r [= <- <-]. destruct (string_dec r match commits with
                                                   | c :: _ => Sha c
                                                   | [] => ""%string
                                                   end) as [-> | Hne];
          [left | now right].
        unfold one_request. cbn [trace vars repo s1].
        rewrite !http_requests_app. cbn [http_requests flat_map app].
        repeat split; try apply Hh. exists commits. auto. }
      destruct commits as [| c rest]; intros H;
        destruct (Hret _ H) as [Hone | Hne]; try exact Hone; now elim Hne.
    + destruct Hout as (Hnot & Hnil & message & Ht).
      intros [= <- <-]. rewrite Ht, Hv, Hr. cbn [trace vars repo s1].
      rewrite !http_requests_app. cbn [http_requests flat_map app].
      rewrite app_nil_r, <- app_assoc.
      split; [reflexivity | split; [reflexivity | split; [reflexivity |]]].
      split; [exact Hnot | split; [exact Hnil | exists message; reflexivity]].
  - intros out s'.
    unfold Branches.get_pull_requests, http_get, one_request.
    unfold bind at 1. unfold get_vars at 1.
    unfold bind at 1. unfold bind at 1. unfold emit at 1. unfold ret at 1.
    set (url := repository_url (vars s)).
    set (s1 := {| vars := vars s; trace := _; repo := repo s |}).
    intros Hc.
    destruct (check_response_cases _ body_issues _ _ _ Hc) as (Hv & Hr & Hout).
    destruct out as [prs | code | p |]; try contradiction.
    + destruct Hout as (Hh & Hd & ->). cbn [trace vars repo s1].
      rewrite !http_requests_app. cbn [http_requests flat_map app].
      repeat split; try apply Hh. exists prs. auto.
    + destruct Hout as (Hnot & Hnil & message & Ht).
      rewrite Ht, Hv, Hr. cbn [trace vars repo s1].
      rewrite !http_requests_app. cbn [http_requests flat_map app].
      rewrite app_nil_r, <- app_assoc.
      split; [reflexivity | split; [reflexivity | split; [reflexivity |]]].
      split; [exact Hnot | split; [exact Hnil | exists message; reflexivity]].
Qed.

(** *** The branches of the labelled pull requests *)

Lemma Branches_labels_loop_spec (e : Issue) (vb : list string) :
  forall labels,
    Branches.labels_loop labels e vb
    = vb ++ (if has_vopr_label labels then
               match head_branch e with
               | Some b => [b]
               | None => []
               end
             else []).
Proof.
  unfold has_vopr_label.
  induction labels as [| label rest IH]; cbn [Branches.labels_loop existsb].
  - now rewrite app_nil_r.
  - destruct (String.eqb (Name label) "vopr"); cbn [orb]; [| exact IH].
    unfold head_branch.
    destruct (Cut (HeadLabel (IssueHead e)) ":") as [[before branch] found].
    destruct (found && negb (String.eqb branch "")); [reflexivity |].
    now rewrite app_nil_r.
Qed.

Lemma labelled_branch_length (e : Issue) :
  (List.length (labelled_branch e) <= 1)%nat.
Proof.
  unfold labelled_branch. destruct (has_vopr_label _); [| cbn; lia].
  destruct (head_branch e); cbn; lia.
Qed.

Lemma Branches_elements_loop_spec (n : Z) (prs : list Issue) :
  forall vb, len vb < n ->
    Branches.elements_loop n prs vb
    = vb ++ firstn (Z.to_nat (n - len vb)) (flat_map labelled_branch prs).
Proof.
  induction prs as [| e rest IH]; intros vb Hlt;
    cbn [Branches.elements_loop flat_map].
  - now rewrite firstn_nil, app_nil_r.
  - rewrite Branches_labels_loop_spec. fold (labelled_branch e).
    pose proof (labelled_branch_length e) as Hlen.
    destruct (labelled_branch e) as [| b [| b' l]]; cbn [List.length] in Hlen;
      [| | lia].
    + rewrite app_nil_r. cbn [app].
      destruct (Z.eqb_spec (len vb) n); [lia |]. now apply IH.
    + assert (Hl1 : len (vb ++ [b]) = len vb + 1).
      { unfold len. rewrite length_app. cbn [List.length]. lia. }
      replace (Z.to_nat (n - len vb)) with (S (Z.to_nat (n - len vb - 1))) by lia.
      cbn [app firstn].
      destruct (Z.eqb_spec (len (vb ++ [b])) n) as [Heq | Hne].
      * replace (Z.to_nat (n - len vb - 1)) with 0%nat by lia. reflexivity.
      * rewrite IH by lia. rewrite Hl1, <- app_assoc. cbn [app].
        now replace (n - (len vb + 1)) with (n - len vb - 1) by lia.
Qed.

Lemma firstn_In' {A} (n : nat) (l : list A) (x : A) :
  In x (firstn n l) -> In x l.
Proof.
  intros H. rewrite <- (firstn_skipn n l). apply in_or_app. now left.
Qed.

Lemma labelled_branch_named (e : Issue) :
  forall b, In b (labelled_branch e) -> b <> ""%string.
Proof.
  intros b. unfold labelled_branch, head_branch.
  destruct (has_vopr_label (Labels e)); [| contradiction].
  destruct (Cut (HeadLabel (IssueHead e)) ":") as [[before branch] found].
  destruct found; cbn [andb]; [| contradiction].
  destruct (String.eqb_spec branch ""); cbn [negb]; [contradiction |].
  now intros [<- | []].
Qed.

Lemma get_branch_names_first (prs : list Issue) (s : state Repo) :
  1 <= num_voprs (vars s) ->
  Branches.get_branch_names prs s
  = (Ret (firstn (Z.to_nat (num_voprs (vars s))) (flat_map labelled_branch prs)),
     s).
Proof.
  intros Hn. unfold Branches.get_branch_names. go_unfold.
  rewrite Branches_elements_loop_spec by (cbn; lia).
  cbn [app len List.length Z.of_nat]. now rewrite Z.sub_0_r.
Qed.

(** X11. [get_branch_names] returns the branches of the first [num_voprs]
    pull requests that carry the label "vopr" and whose head label names a
    branch, in the order of the list: never more than [num_voprs] of them,
    every one named after the colon of its head label, and none for a pull
    request without the label. *)
Theorem get_branch_names_takes_first (prs : list Issue) (s : state Repo) :
  1 <= num_voprs (vars s) ->
  exists branches,
    Branches.get_branch_names prs s = (Ret branches, s) /\
    branches = firstn (Z.to_nat (num_voprs (vars s)))
                      (flat_map labelled_branch prs) /\
    len branches <= num_voprs (vars s) /\
    named branches /\
    forall b, In b branches ->
      exists e, In e prs /\ has_vopr_label (Labels e) = true /\
                head_branch e = Some b.
Proof.
  intros Hn. eexists. split; [now apply get_branch_names_first |].
  split; [reflexivity | split; [| split]].
  - unfold len. rewrite length_firstn. lia.
  - apply Forall_forall. intros b Hb. apply firstn_In' in Hb.
    apply in_flat_map in Hb. destruct Hb as (e & _ & Hb).
    apply (labelled_branch_named e). exact Hb.
  - intros b Hb. apply firstn_In' in Hb.
    apply in_flat_map in Hb. destruct Hb as (e & He & Hb).
    exists e. split; [exact He |]. unfold labelled_branch in Hb.
    destruct (has_vopr_label (Labels e)); [| contradiction].
    destruct (head_branch e) as [b' |]; [| contradiction].
    destruct Hb as [<- | []]. auto.
Qed.

(** *** Head labels *)

Lemma index_colon (owner rest : string) :
  in_cutset ":" owner = false ->
  String.index 0 ":" (owner ++ String ":" rest)%string = Some (String.length owner).
Proof.
  induction owner as [| c owner IH]; intros Hno.
  - cbn [append String.index prefix String.length].
    destruct (ascii_dec ":" ":"); [now destruct rest | congruence].
  - cbn [in_cutset] in Hno. apply orb_false_elim in Hno. destruct Hno as [Hc Hno].
    cbn [append String.index prefix String.length].
    destruct (ascii_dec ":" c) as [<- | _]; [discriminate Hc |].
    now rewrite (IH Hno).
Qed.

Lemma index_no_colon (label : string) :
  in_cutset ":" label = false -> String.index 0 ":" label = None.
Proof.
  induction label as [| c label IH]; intros Hno; [reflexivity |].
  cbn [in_cutset] in Hno. apply orb_false_elim in Hno. destruct Hno as [Hc Hno].
  cbn [String.index prefix].
  destruct (ascii_dec ":" c) as [<- | _]; [discriminate Hc |].
  now rewrite (IH Hno).
Qed.

Lemma string_append_assoc (a b c : string) :
  ((a ++ b) ++ c)%string = (a ++ b ++ c)%string.
Proof. induction a as [| x a IH]; simpl; [reflexivity | now rewrite IH]. Qed.

Lemma Cut_owner_branch (owner branch : string) :
  in_cutset ":" owner = false ->
  Cut (owner ++ ":" ++ branch)%string ":" = (owner, branch, true).
Proof.
  intros Hno. unfold Cut. cbn [append]. rewrite index_colon by exact Hno.
  rewrite substring_append_take.
  change (String ":" branch) with (":" ++ branch)%string.
  rewrite <- string_append_assoc.
  replace (String.length owner + String.length ":")%nat
    with (String.length (owner ++ ":")%string)
    by (rewrite length_append; reflexivity).
  replace (String.length ((owner ++ ":") ++ branch)%string - String.length owner
           - String.length ":")%nat
    with (String.length branch)
    by (rewrite !length_append; cbn [String.length]; lia).
  now rewrite substring_append_skip.
Qed.

Lemma Commits_labels_loop_spec (e : Issue) (vc : list string) (s : state Repo) :
  forall labels,
    Commits.labels_loop w labels e vc s
    = if has_vopr_label labels then
        match head_branch e with
        | Some branch_name =>
            (commit <- Commits.get_commits w branch_name ;;
             if negb (String.eqb commit "") then ret (vc ++ [commit])
             else ret vc)%eff s
        | None => (Ret vc, s)
        end
      else (Ret vc, s).
Proof.
  unfold has_vopr_label.
  induction labels as [| label rest IH]; cbn [Commits.labels_loop existsb].
  - reflexivity.
  - destruct (String.eqb (Name label) "vopr"); cbn [orb]; [| exact IH].
    unfold head_branch.
    destruct (Cut (HeadLabel (IssueHead e)) ":") as [[before branch] found].
    now destruct (found && negb (String.eqb branch "")).
Qed.

(** X12. Head labels have the format [owner:branch_name]: for a pull request
    that carries the label "vopr", the branch that is collected (or whose head
    commit is asked for) is what follows the first colon of its head label,
    when that is not empty.  A pull request without the label, with a head
    label without a colon, or with nothing after the colon contributes nothing
    and causes no request. *)
Theorem head_label_names_the_branch (e : Issue) (labels : list Label)
    (vb : list string) (s : state Repo) :
  (forall owner branch,
     in_cutset ":" owner = false ->
     HeadLabel (IssueHead e) = (owner ++ ":" ++ branch)%string ->
     Branches.labels_loop labels e vb
     = (if has_vopr_label labels && negb (String.eqb branch "")
        then vb ++ [branch] else vb) /\
     Commits.labels_loop w labels e vb s
     = (if has_vopr_label labels && negb (String.eqb branch "")
        then (commit <- Commits.get_commits w branch ;;
              if negb (String.eqb commit "") then ret (vb ++ [commit])
              else ret vb)%eff s
        else (Ret vb, s))) /\
  (in_cutset ":" (HeadLabel (IssueHead e)) = false ->
   Branches.labels_loop labels e vb = vb /\
   Commits.labels_loop w labels e vb s = (Ret vb, s)).
Proof.
  rewrite Branches_labels_loop_spec, Commits_labels_loop_spec.
  unfold head_branch. split.
  - intros owner branch Hno ->. rewrite Cut_owner_branch by exact Hno.
    cbn [andb]. destruct (has_vopr_label labels); cbn [andb];
      [| now rewrite app_nil_r].
    destruct (negb (String.eqb branch "")); [auto | now rewrite app_nil_r].
  - intros Hno. unfold Cut. rewrite index_no_colon by exact Hno. cbn [andb].
    destruct (has_vopr_label labels); now rewrite app_nil_r.
Qed.

(** *** What is collected and assigned *)

Lemma named_app (a b : list string) : named a -> named b -> named (a ++ b).
Proof. unfold named. intros Ha Hb. apply Forall_app. now split. Qed.

Lemma labels_loop_named (e : Issue) (vc : list string) (s : state Repo) :
  forall labels vc' s',
    Commits.labels_loop w labels e vc s = (Ret vc', s') ->
    named vc -> named vc'.
Proof.
  intros labels vc' s'. rewrite Commits_labels_loop_spec.
  destruct (has_vopr_label labels); [| now intros [= <- <-]].
  destruct (head_branch e) as [branch |]; [| now intros [= <- <-]].
  unfold bind.
  destruct (Commits.get_commits w branch s) as [[commit | | |] s1];
    try discriminate.
  destruct (String.eqb_spec commit "") as [-> | Hne]; cbn [negb];
    intros [= <- <-]; [auto |].
  intros Hvc. apply named_app; [exact Hvc |]. now constructor.
Qed.

Lemma elements_loop_named (prs : list Issue) :
  forall vc (s : state Repo) vc' s',
    Commits.elements_loop w prs vc s = (Ret vc', s') ->
    named vc -> named vc'.
Proof.
  induction prs as [| e rest IH]; intros vc s vc' s';
    cbn [Commits.elements_loop].
  - now intros [= <- <-].
  - unfold bind at 1.
    destruct (Commits.labels_loop w (Labels e) e vc s) as [r s1] eqn:Hl.
    destruct r as [vc1 | | |]; try discriminate.
    pose proof (labels_loop_named _ _ _ _ _ _ Hl) as H1.
    unfold bind at 1. unfold get_vars at 1.
    destruct (len vc1 =? int_sub (num_voprs (vars s1)) 1).
    + intros [= <- <-]. exact H1.
    + intros Hrest Hvc. exact (IH _ _ _ _ Hrest (H1 Hvc)).
Qed.

Lemma pages_loop_named (num_posts : Z) :
  forall fuel i vc (s : state Repo) vc' s',
    Commits.pages_loop w fuel num_posts i vc s = (Ret vc', s') ->
    named vc -> named vc'.
Proof.
  induction fuel as [| fuel IH]; intros i vc s vc' s';
    cbn [Commits.pages_loop]; unfold bind at 1; unfold get_vars at 1;
    destruct (len vc <? int_sub (num_voprs (vars s)) 1);
    try (now intros [= <- <-]); try discriminate.
  unfold bind at 1.
  destruct (Commits.get_pull_requests w num_posts i s) as [[prs | | |] s1];
    try discriminate.
  unfold bind at 1.
  destruct (Commits.elements_loop w prs vc s1) as [r s2] eqn:He.
  destruct r as [vc1 | | |]; try discriminate.
  pose proof (elements_loop_named _ _ _ _ _ He) as H1.
  destruct (len prs <? num_posts).
  - intros [= <- <-]. exact H1.
  - intros Hrest Hvc. exact (IH _ _ _ _ _ Hrest (H1 Hvc)).
Qed.

(** X13. Whatever the tracker answers, [get_commit_hashes] collects at most
    [num_voprs - 1] commits and no empty commit id, and it runs no git command
    and leaves the configuration as it is. *)
Theorem get_commit_hashes_bounded (fuel : nat) (s : state Repo) :
  1 <= num_voprs (vars s) <= int_max ->
  forall out s',
    Commits.get_commit_hashes w fuel s = (out, s') ->
    same_outside s s' /\
    forall vc, out = Ret vc -> len vc <= num_voprs (vars s) - 1 /\ named vc.
Proof.
  intros Hn out s' Hrun. unfold Commits.get_commit_hashes in Hrun.
  destruct (pages_loop_outcome _ _ _ _ _ _ _ _ Hrun) as (Hsame & _ & Hlen).
  split; [exact Hsame |]. intros vc ->. split.
  - specialize (Hlen vc eq_refl). cbn [len List.length Z.of_nat] in Hlen.
    unfold int_sub in Hlen.
    rewrite int_wrap_id in Hlen by (unfold is_int, int_min, int_max in *; lia).
    lia.
  - apply (pages_loop_named _ _ _ _ _ _ _ Hrun). constructor.
Qed.

Lemma index_In {A} (l : list A) (i : Z) (s s' : state Repo) (c : A) :
  index l i s = (Ret c, s') -> In c l.
Proof.
  unfold index. destruct (_ && _); [| discriminate].
  destruct (nth_error l (Z.to_nat i)) eqn:Hnth; [| discriminate].
  intros [= <- <-]. eapply nth_error_In. exact Hnth.
Qed.

Lemma repeats_loop_members (vc : list string) (idx : Z) (s : state Repo) :
  forall count acc i acc' i' s',
    repeats_loop count vc idx acc i s = (Ret (acc', i'), s') ->
    forall x, In x acc' -> In x acc \/ In x vc.
Proof.
  induction count as [| count IH]; intros acc i acc' i' s'; cbn [repeats_loop].
  - intros [= <- <- <-]. auto.
  - unfold bind at 1. destruct (index vc idx s) as [r s1] eqn:Hi.
    destruct r as [c | | |]; try discriminate.
    destruct (index_outcome _ _ _ _ _ Hi) as [-> _].
    apply index_In in Hi. intros Hrest x Hx.
    destruct (IH _ _ _ _ _ Hrest x Hx) as [Hacc | Hvc]; [| now right].
    apply in_app_or in Hacc. destruct Hacc as [Hacc | [<- | []]]; auto.
Qed.

Lemma assign_loop_members (vc : list string) (repeats : Z) (s : state Repo) :
  forall fuel remainders i idx acc l s',
    assign_loop fuel vc repeats remainders i idx acc s = (Ret l, s') ->
    forall x, In x l -> In x acc \/ In x vc.
Proof.
  induction fuel as [| fuel IH]; intros remainders i idx acc l s';
    cbn [assign_loop]; unfold bind at 1; unfold get_vars at 1;
    destruct (i <? num_voprs (vars s));
    try (intros [= <- <-]; now auto); try discriminate.
  unfold bind at 1.
  destruct (repeats_loop (Z.to_nat repeats) vc idx acc i s) as [r s1] eqn:Hr.
  destruct r as [[acc1 i1] | | |]; try discriminate.
  destruct (repeats_loop_outcome _ _ _ _ _ _ _ _ Hr) as [-> _].
  pose proof (repeats_loop_members _ _ _ _ _ _ _ _ _ Hr) as H1.
  destruct (remainders >? 0).
  - unfold bind at 1. unfold bind at 1.
    destruct (index vc idx s) as [r s1] eqn:Hi.
    destruct r as [c | | |]; try discriminate.
    destruct (index_outcome _ _ _ _ _ Hi) as [-> _].
    apply index_In in Hi. unfold ret at 1.
    intros Hrest x Hx.
    destruct (IH _ _ _ _ _ _ Hrest x Hx) as [Hacc | Hvc]; [| now right].
    apply in_app_or in Hacc. destruct Hacc as [Hacc | [<- | []]]; auto.
  - unfold bind at 1. unfold ret at 1.
    intros Hrest x Hx.
    destruct (IH _ _ _ _ _ _ Hrest x Hx) as [Hacc | Hvc]; auto.
Qed.

Lemma assign_run_members (fuel : nat) (vc acc : list string) (n : Z)
    (s : state Repo) :
  forall l s',
    (repeats <- int_quo (int_sub n 1) (len vc) ;;
     remainders <- int_rem (int_sub n 1) (len vc) ;;
     assign_loop fuel vc repeats remainders 1 0 acc)%eff s = (Ret l, s') ->
    forall x, In x l -> In x acc \/ In x vc.
Proof.
  intros l s'. unfold int_quo, int_rem.
  destruct (len vc =? 0); [discriminate |].
  unfold bind at 1. unfold ret at 1. unfold bind at 1. unfold ret at 1.
  apply assign_loop_members.
Qed.

Lemma Commits_assignments_members (fuel : nat) (vc : list string)
    (s : state Repo) :
  forall l s',
    Commits.get_vopr_assignments w fuel vc s = (Ret l, s') ->
    forall x, In x l ->
      In x vc \/
      (x <> ""%string /\
       exists s1, Commits.get_commits w "main" s = (Ret x, s1)).
Proof.
  intros l s'. unfold Commits.get_vopr_assignments.
  unfold bind at 1. unfold get_vars at 1.
  destruct (len vc >? 0); unfold bind at 1;
    destruct (Commits.get_commits w "main" s) as [[main | | |] s1] eqn:Hmain;
    try discriminate.
  - intros Hrun x Hx.
    destruct (assign_run_members _ _ _ _ _ _ _ Hrun x Hx) as [Hacc | Hvc];
      [| now left].
    destruct (String.eqb_spec main "") as [-> | Hne]; cbn [negb app] in Hacc;
      [contradiction |].
    destruct Hacc as [<- | []]. right. eauto.
  - destruct (String.eqb_spec main "") as [-> | Hne]; cbn [negb app];
      intros [= <- <-] x Hx; [contradiction |].
    apply repeat_spec in Hx. subst x. right. eauto.
Qed.

Lemma Branches_assignments_members (fuel : nat) (vc : list string)
    (s : state Repo) :
  forall l s',
    Branches.get_vopr_assignments fuel vc s = (Ret l, s') ->
    forall x, In x l -> In x vc \/ x = "main"%string.
Proof.
  intros l s'. unfold Branches.get_vopr_assignments.
  unfold bind at 1. unfold get_vars at 1.
  destruct (len vc >? 0).
  - intros Hrun x Hx.
    destruct (assign_run_members _ _ _ _ _ _ _ Hrun x Hx) as [Hacc | Hvc];
      [| now left].
    destruct Hacc as [<- | []]. now right.
  - intros [= <- <-] x Hx. apply repeat_spec in Hx. now right.
Qed.

(** X14. Every assignment is a name that was asked for: in the
    commit-resolving revision one of the collected commits or the non-empty
    commit id that the tracker gives for main, in the branch-assigning
    revision one of the collected branches or "main".  This holds for every
    list, configuration and tracker, also where the number of assignments is
    not [num_voprs]. *)
Theorem assignments_come_from_the_lists (fuel : nat) (vc : list string)
    (s : state Repo) :
  (forall l s',
     Commits.get_vopr_assignments w fuel vc s = (Ret l, s') ->
     forall x, In x l ->
       In x vc \/
       (x <> ""%string /\
        exists s1, Commits.get_commits w "main" s = (Ret x, s1))) /\
  (forall l s',
     Branches.get_vopr_assignments fuel vc s = (Ret l, s') ->
     forall x, In x l -> In x vc \/ x = "main"%string).
Proof.
  split; [apply Commits_assignments_members | apply Branches_assignments_members].
Qed.

(** *** The assignments, and which one [main] checks out *)

Lemma len_pos (vc : list string) : vc <> [] -> 0 < len vc.
Proof. unfold len. destruct vc; [congruence | cbn [List.length]; lia]. Qed.

Lemma Branches_get_vopr_assignments_of (fuel : nat) (vc : list string)
    (s : state Repo) :
  1 <= num_voprs (vars s) <= int_max ->
  len vc <= int_max ->
  (List.length vc <= fuel)%nat ->
  Branches.get_vopr_assignments fuel vc s
  = (Ret (assignments_of "main" (num_voprs (vars s)) vc), s).
Proof.
  intros Hn Hk Hfuel. unfold Branches.get_vopr_assignments, assignments_of.
  unfold bind at 1. unfold get_vars at 1.
  destruct vc as [| c vc]; [reflexivity |].
  assert (Hpos : 0 < len (c :: vc)) by (apply len_pos; discriminate).
  destruct (Z.gtb_spec (len (c :: vc)) 0); [| lia]. cbn [app].
  pose proof (assign_from_start fuel (c :: vc) ["main"%string] s) as Hrun.
  cbv zeta in Hrun. apply Hrun; auto. discriminate.
Qed.

Lemma Commits_get_vopr_assignments_of (fuel : nat) (vc : list string)
    (s s1 : state Repo) (main : string) :
  1 <= num_voprs (vars s) <= int_max ->
  len vc <= int_max ->
  (List.length vc <= fuel)%nat ->
  Commits.get_commits w "main" s = (Ret main, s1) ->
  main <> ""%string ->
  Commits.get_vopr_assignments w fuel vc s
  = (Ret (assignments_of main (num_voprs (vars s)) vc), s1).
Proof.
  intros Hn Hk Hfuel Hmain Hne.
  destruct (get_commits_outcome _ _ _ _ _ Hmain) as ((Hvars & _) & _).
  unfold Commits.get_vopr_assignments, assignments_of.
  unfold bind at 1. unfold get_vars at 1.
  destruct (String.eqb_spec main "") as [| _]; [congruence |].
  destruct vc as [| c vc].
  - cbn [len List.length Z.of_nat Z.gtb Z.compare].
    unfold bind at 1. rewrite Hmain.
    destruct (String.eqb_spec main "") as [| _]; [congruence |]. reflexivity.
  - assert (Hpos : 0 < len (c :: vc)) by (apply len_pos; discriminate).
    destruct (Z.gtb_spec (len (c :: vc)) 0); [| lia].
    unfold bind at 1. rewrite Hmain.
    destruct (String.eqb_spec main "") as [| _]; [congruence |]. cbn [negb app].
    pose proof (assign_from_start fuel (c :: vc) [main] s1) as Hrun.
    cbv zeta in Hrun. rewrite Hvars in Hrun. apply Hrun; auto. discriminate.
Qed.

Lemma assignments_of_length (main : string) (n : Z) (vc : list string) :
  1 <= n <= int_max ->
  List.length (assignments_of main n vc) = Z.to_nat n.
Proof.
  intros Hn. unfold assignments_of. destruct vc as [| c vc].
  - apply repeat_length.
  - assert (Hpos : 0 < len (c :: vc)) by (apply len_pos; discriminate).
    destruct (assignment_counts n _ Hn Hpos) as (_ & _ & _ & E4 & E5).
    cbn [List.length]. rewrite distribute_length.
    unfold len in *. rewrite Nat.min_l by lia. lia.
Qed.

Lemma distribute_0 (vc : list string) :
  forall r, distribute vc 0 r = firstn r vc.
Proof.
  induction vc as [| c vc IH]; intros r; cbn [distribute].
  - now rewrite firstn_nil.
  - destruct r as [| r]; cbn [repeat app firstn pred].
    + rewrite IH. reflexivity.
    + now rewrite IH.
Qed.

Lemma distribute_1_0 (vc : list string) : distribute vc 1 0 = vc.
Proof.
  induction vc as [| c vc IH]; cbn [distribute repeat app pred];
    [reflexivity | now rewrite IH].
Qed.

Lemma assignments_of_enough (main : string) (n : Z) (vc : list string) :
  1 <= n -> n - 1 <= len vc ->
  assignments_of main n vc = main :: firstn (Z.to_nat (n - 1)) vc.
Proof.
  intros Hn Hk. unfold assignments_of. destruct vc as [| c vc].
  - cbn [len List.length Z.of_nat] in Hk. assert (n = 1) by lia. subst n.
    reflexivity.
  - assert (Hpos : 0 < len (c :: vc)) by (apply len_pos; discriminate).
    f_equal.
    destruct (Z.eq_dec (n - 1) (len (c :: vc))) as [Heq | Hlt].
    + rewrite Heq, Z.div_same, Z.mod_same by lia.
      change (Z.to_nat 1) with 1%nat. change (Z.to_nat 0) with 0%nat.
      rewrite distribute_1_0. unfold len. rewrite Nat2Z.id.
      now rewrite firstn_all.
    + rewrite Z.div_small, Z.mod_small by lia.
      change (Z.to_nat 0) with 0%nat. apply distribute_0.
Qed.

(** X15. When at least [num_voprs - 1] names were collected, every VOPR after
    the first runs a pull request of its own: the assignment is main (the
    non-empty commit id of main in the commit-resolving revision) and then the
    first [num_voprs - 1] collected names, in their order; what was collected
    beyond them is not assigned. *)
Theorem each_vopr_runs_its_own_pull_request (fuel : nat) (vc : list string)
    (s : state Repo) :
  let n := num_voprs (vars s) in
  1 <= n <= int_max ->
  n - 1 <= len vc <= int_max ->
  (List.length vc <= fuel)%nat ->
  Branches.get_vopr_assignments fuel vc s
  = (Ret ("main"%string :: firstn (Z.to_nat (n - 1)) vc), s) /\
  forall main s1,
    Commits.get_commits w "main" s = (Ret main, s1) ->
    main <> ""%string ->
    Commits.get_vopr_assignments w fuel vc s
    = (Ret (main :: firstn (Z.to_nat (n - 1)) vc), s1).
Proof.
  intros n Hn Hk Hfuel. split.
  - rewrite Branches_get_vopr_assignments_of by (auto; lia).
    fold n. now rewrite assignments_of_enough by lia.
  - intros main s1 Hmain Hne.
    rewrite (Commits_get_vopr_assignments_of fuel vc s s1 main) by (auto; lia).
    fold n. now rewrite assignments_of_enough by lia.
Qed.

(** X16. [main] of the branch-assigning revision, from the command line to
    the checkout.  With a command line that [flag.Parse] accepts, a usable
    environment and a tracker that answers the one request with the pull
    requests [prs], the branches are those of the first [num_voprs] labelled
    pull requests, there are exactly [num_voprs] assignments, and [main] ends
    by checking out assignment [current_vopr - 1] in the directory
    [tigerbeetle_directory] followed by the number of this VOPR; a VOPR whose
    number exceeds [num_voprs] runs no git command.  In both cases [main]
    returns, whatever the checkout gives. *)
Theorem Branches_main_checks_out_its_assignment (fuel : nat) (debug : bool)
    (s s1 : state Repo) (prs : list Issue) :
  command_line w = Flags debug ->
  set_environment_variables w (flag_parsed debug s) = (Ret tt, s1) ->
  let url := repository_url (vars s1) in
  let n := num_voprs (vars s1) in
  let c := current_vopr (vars s1) in
  let branches := firstn (Z.to_nat n) (flat_map labelled_branch prs) in
  let assignments := assignments_of "main" n branches in
  let s2 := {| vars := vars s1;
               trace := trace s1 ++ [EvHttpGet url; EvPrint (show_list assignments)];
               repo := repo s1 |} in
  healthy (http_Get w url) ->
  body_issues (http_Get w url) = inr prs ->
  (List.length branches <= fuel)%nat ->
  List.length assignments = Z.to_nat n /\
  hd_error assignments = Some "main"%string /\
  (c <= n ->
   exists branch,
     nth_error assignments (Z.to_nat (c - 1)) = Some branch /\
     Branches.main w fuel s
     = (Ret tt,
        snd (checkout_branch w branch
               (tigerbeetle_directory (vars s1) ++ itoa c)%string s2))) /\
  (n < c -> Branches.main w fuel s = (Ret tt, s2)).
Proof.
  intros Hflags Henv url n c branches assignments s2 Hh Hprs Hfuel.
  destruct (set_environment_variables_ret _ _ _ Henv) as (Hn & Hni & Hc & Hci & _).
  fold n in Hn, Hni. fold c in Hc, Hci.
  assert (Hn' : 1 <= n <= int_max) by (unfold is_int in Hni; lia).
  assert (Hlen : List.length assignments = Z.to_nat n)
    by (now apply assignments_of_length).
  assert (Hb : len branches <= int_max).
  { unfold len, branches. rewrite length_firstn. lia. }
  assert (Hmain : Branches.main w fuel s
                  = checkout_assigned w assignments s2).
  { unfold Branches.main. rewrite main_start, Hflags.
    unfold bind at 1. rewrite Henv.
    unfold bind at 1. unfold Branches.get_pull_requests, http_get.
    unfold bind at 1. unfold get_vars at 1. fold url.
    unfold bind at 1. unfold bind at 1. unfold emit at 1. unfold ret at 1.
    rewrite Hprs, check_response_healthy by exact Hh.
    unfold bind at 1.
    rewrite get_branch_names_first by (cbn [vars]; fold n; lia).
    cbn [vars]. fold n branches.
    unfold bind at 1.
    rewrite Branches_get_vopr_assignments_of by (cbn [vars]; fold n; auto).
    cbn [vars]. fold n assignments.
    unfold bind at 1. unfold emit at 1. cbn [vars trace repo].
    rewrite <- app_assoc. reflexivity. }
  rewrite Hmain.
  destruct (checkout_assigned_cases w assignments s2 Hci) as [Hin Hout].
  cbn [vars s2] in Hin, Hout. fold c in Hin, Hout.
  split; [exact Hlen | split; [| split]].
  - unfold assignments, assignments_of. destruct branches; [| reflexivity].
    destruct (Z.to_nat n) eqn:E; [lia | reflexivity].
  - intros Hle. apply Hin. unfold len. lia.
  - intros Hgt. apply Hout. unfold len. lia.
Qed.


(** *** What [main] never checks out *)

Lemma checkout_branch_commands (branch dir : string) (s : state Repo) :
  exists k,
    git_events (trace (snd (checkout_branch w branch dir s)))
    = git_events (trace s) ++ firstn k (checkout_commands branch dir).
Proof.
  unfold checkout_branch, run_git_fetch, run_git_checkout, run_git_show_current,
    checkout_commands.
  go_unfold. cbn [repo trace vars].
  destruct (git_fetch w dir (repo s)) as [[e1 |] r1]; cbn [fst snd repo trace vars].
  { exists 1%nat. rewrite !git_events_app. cbn. now rewrite app_nil_r. }
  destruct (git_checkout w branch dir r1) as [[e2 |] r2];
    cbn [fst snd repo trace vars].
  { exists 2%nat. rewrite !git_events_app. cbn. now rewrite app_nil_r, <- app_assoc. }
  destruct (git_show_current w dir r2) as [current [e3 |]];
    cbn [fst snd repo trace vars].
  { exists 3%nat. rewrite !git_events_app. cbn. now rewrite app_nil_r, <- !app_assoc. }
  destruct (negb (String.eqb current branch)); cbn [fst snd repo trace vars];
    exists 3%nat; rewrite !git_events_app; cbn; now rewrite <- !app_assoc.
Qed.

(** A checkout of [branch] adds no checkout of another name. *)
Lemma checkout_branch_names (branch dir : string) (s : state Repo) :
  forall d name,
    In (EvGit d ["checkout"; name])
       (trace (snd (checkout_branch w branch dir s))) ->
    name = branch \/ In (EvGit d ["checkout"; name]) (git_events (trace s)).
Proof.
  intros d name Hin.
  assert (Hg : In (EvGit d ["checkout"; name])
                  (git_events (trace (snd (checkout_branch w branch dir s)))))
    by (apply filter_In; now split).
  destruct (checkout_branch_commands branch dir s) as [k Hk]. rewrite Hk in Hg.
  apply in_app_or in Hg. destruct Hg as [Hg | Hg]; [now right | left].
  apply firstn_In' in Hg. unfold checkout_commands in Hg.
  destruct Hg as [[=] | [[= _ H] | [[=] | []]]]. now symmetry.
Qed.

Lemma untouched_names (s s' : state Repo) (e : event) :
  untouched s s' -> is_git e = true -> In e (trace s') -> In e (trace s).
Proof.
  intros [_ Hg] He Hin.
  assert (H : In e (git_events (trace s'))) by (apply filter_In; now split).
  rewrite Hg in H. now apply filter_In in H.
Qed.

Lemma checkout_assigned_names (l : list string) (s : state Repo) :
  is_int (current_vopr (vars s)) ->
  named l ->
  forall d name,
    In (EvGit d ["checkout"; name]) (trace (snd (checkout_assigned w l s))) ->
    name <> ""%string \/ In (EvGit d ["checkout"; name]) (trace s).
Proof.
  intros Hci Hl d name.
  destruct (checkout_assigned_cases w l s Hci) as [Hin Hout].
  destruct (Z_le_dec 1 (current_vopr (vars s))) as [Hge | Hlt];
    [destruct (Z_le_dec (current_vopr (vars s)) (len l)) as [Hle | Hgt] |].
  - destruct (Hin (conj Hge Hle)) as (branch & Hnth & ->). cbn [snd].
    intros H. destruct (checkout_branch_names _ _ _ _ _ H) as [-> | Hold].
    + left. apply nth_error_In in Hnth. unfold named in Hl.
      rewrite Forall_forall in Hl. now apply Hl.
    + right. now apply filter_In in Hold.
  - rewrite Hout by lia. now right.
  - rewrite Hout by lia. now right.
Qed.

Lemma Commits_main_names (fuel : nat) (s : state Repo) :
  forall d name,
    In (EvGit d ["checkout"; name]) (trace (snd (Commits.main w fuel s))) ->
    name <> ""%string \/ In (EvGit d ["checkout"; name]) (trace s).
Proof.
  intros d name. unfold Commits.main. rewrite main_start.
  destruct (command_line w) as [debug | usage | message usage];
    [| cbn [snd trace]; intros H; right; apply in_app_or in H;
       destruct H as [H | H]; [exact H | cbn in H; intuition discriminate] ..].
  set (s0 := flag_parsed debug s).
  assert (H0 : untouched s s0) by (now split).
  unfold bind at 1.
  destruct (set_environment_variables w s0) as [r s1] eqn:Henv.
  destruct (set_environment_variables_untouched _ _ _ _ Henv) as (H1 & _).
  assert (Hu1 : untouched s s1) by exact (untouched_trans _ _ _ H0 H1).
  destruct r as [[] | | |];
    [| cbn [snd]; intros H; right; now apply (untouched_names s s1) ..].
  destruct (set_environment_variables_ret _ _ _ Henv) as (Hn & Hni & Hc & Hci & _).
  unfold bind at 1.
  destruct (Commits.get_commit_hashes w fuel s1) as [r s2] eqn:Hhashes.
  pose proof Hhashes as Hpages. unfold Commits.get_commit_hashes in Hpages.
  destruct (pages_loop_outcome _ _ _ _ _ _ _ _ Hpages) as (H2 & _ & Hlen).
  assert (Hu2 : untouched s s2).
  { eapply untouched_trans; [exact Hu1 |]. now apply same_outside_untouched. }
  destruct r as [vc | | |];
    [| cbn [snd]; intros H; right; now apply (untouched_names s s2) ..].
  assert (Hvc : named vc) by (apply (pages_loop_named _ _ _ _ _ _ _ Hpages); constructor).
  assert (Hv2 : vars s2 = vars s1) by apply H2.
  specialize (Hlen vc eq_refl). cbn [len List.length Z.of_nat] in Hlen.
  unfold int_sub in Hlen.
  rewrite int_wrap_id in Hlen by (unfold is_int, int_min, int_max in *; lia).
  rewrite <- Hv2 in Hn, Hni, Hc, Hci.
  assert (Hn2 : 1 <= num_voprs (vars s2) <= int_max)
    by (unfold is_int in Hni; lia).
  assert (Hk2 : len vc <= int_max).
  { rewrite Hv2 in Hn2. unfold is_int, int_min, int_max in *. lia. }
  unfold bind at 1.
  destruct (Commits.get_vopr_assignments w fuel vc s2) as [r s3] eqn:Hassign.
  destruct (Commits_get_vopr_assignments_in_bounds w fuel vc s2 Hn2 Hk2 _ _ Hassign)
    as (H3 & _).
  assert (Hu3 : untouched s s3).
  { eapply untouched_trans; [exact Hu2 |]. now apply same_outside_untouched. }
  destruct r as [l | | |];
    [| cbn [snd]; intros H; right; now apply (untouched_names s s3) ..].
  assert (Hl : named l).
  { apply Forall_forall. intros x Hx.
    destruct (Commits_assignments_members _ _ _ _ _ Hassign x Hx) as [Hin | [Hne _]];
      [| exact Hne].
    unfold named in Hvc. rewrite Forall_forall in Hvc. now apply Hvc. }
  unfold bind at 1. unfold emit at 1.
  set (s4 := {| vars := vars s3; trace := _; repo := repo s3 |}).
  assert (Hu4 : untouched s s4).
  { eapply untouched_trans; [exact Hu3 |]. apply same_outside_untouched.
    apply (emit_same_outside (EvPrint _)). reflexivity. }
  assert (Hv3 : vars s3 = vars s2) by apply H3.
  assert (Hci4 : is_int (current_vopr (vars s4))) by (cbn [vars s4]; now rewrite Hv3).
  intros H. destruct (checkout_assigned_names l s4 Hci4 Hl _ _ H) as [Hne | Hold];
    [now left | right]. now apply (untouched_names s s4).
Qed.

Lemma Branches_main_names (fuel : nat) (s : state Repo) :
  forall d name,
    In (EvGit d ["checkout"; name]) (trace (snd (Branches.main w fuel s))) ->
    name <> ""%string \/ In (EvGit d ["checkout"; name]) (trace s).
Proof.
  intros d name. unfold Branches.main. rewrite main_start.
  destruct (command_line w) as [debug | usage | message usage];
    [| cbn [snd trace]; intros H; right; apply in_app_or in H;
       destruct H as [H | H]; [exact H | cbn in H; intuition discriminate] ..].
  set (s0 := flag_parsed debug s).
  assert (H0 : untouched s s0) by (now split).
  unfold bind at 1.
  destruct (set_environment_variables w s0) as [r s1] eqn:Henv.
  destruct (set_environment_variables_untouched _ _ _ _ Henv) as (H1 & _).
  assert (Hu1 : untouched s s1) by exact (untouched_trans _ _ _ H0 H1).
  destruct r as [[] | | |];
    [| cbn [snd]; intros H; right; now apply (untouched_names s s1) ..].
  destruct (set_environment_variables_ret _ _ _ Henv) as (Hn & Hni & Hc & Hci & _).
  unfold bind at 1.
  destruct (Branches.get_pull_requests w s1) as [r s2] eqn:Hprs.
  destruct (Branches_get_pull_requests_outcome _ _ _ _ Hprs) as (H2 & _).
  assert (Hu2 : untouched s s2).
  { eapply untouched_trans; [exact Hu1 |]. now apply same_outside_untouched. }
  destruct r as [prs | | |];
    [| cbn [snd]; intros H; right; now apply (untouched_names s s2) ..].
  assert (Hv2 : vars s2 = vars s1) by apply H2.
  rewrite <- Hv2 in Hn, Hni, Hc, Hci.
  unfold bind at 1. rewrite get_branch_names_first by exact Hn.
  set (vb := firstn _ _).
  assert (Hvb : named vb).
  { apply Forall_forall. intros b Hb. apply firstn_In' in Hb.
    apply in_flat_map in Hb. destruct Hb as (e & _ & Hb).
    now apply (labelled_branch_named e). }
  assert (Hn2 : 1 <= num_voprs (vars s2) <= int_max)
    by (unfold is_int in Hni; lia).
  assert (Hk2 : len vb <= int_max).
  { unfold len, vb. rewrite length_firstn. lia. }
  unfold bind at 1.
  destruct (Branches.get_vopr_assignments fuel vb s2) as [r s3] eqn:Hassign.
  destruct (Branches_get_vopr_assignments_in_bounds fuel vb s2 Hn2 Hk2 _ _ Hassign)
    as (-> & _).
  destruct r as [l | | |];
    [| cbn [snd]; intros H; right; now apply (untouched_names s s2) ..].
  assert (Hl : named l).
  { apply Forall_forall. intros x Hx.
    destruct (Branches_assignments_members _ _ _ _ _ Hassign x Hx) as [Hin | ->];
      [| discriminate].
    unfold named in Hvb. rewrite Forall_forall in Hvb. now apply Hvb. }
  unfold bind at 1. unfold emit at 1.
  set (s4 := {| vars := vars s2; trace := _; repo := repo s2 |}).
  assert (Hu4 : untouched s s4).
  { eapply untouched_trans; [exact Hu2 |]. apply same_outside_untouched.
    apply (emit_same_outside (EvPrint _)). reflexivity. }
  assert (Hci4 : is_int (current_vopr (vars s4))) by exact Hci.
  intros H. destruct (checkout_assigned_names l s4 Hci4 Hl _ _ H) as [Hne | Hold];
    [now left | right]. now apply (untouched_names s s4).
Qed.

(** X18. [main] never asks git to check out an empty name: in either revision
    and whatever the environment, the tracker and git do, every [git checkout]
    that a run of [main] adds to the events names a non-empty branch or
    commit. *)
Theorem main_checks_out_no_empty_name (fuel : nat) (s : state Repo) :
  forall main, main = Commits.main w \/ main = Branches.main w ->
  forall dir name,
    In (EvGit dir ["checkout"; name]) (trace (snd (main fuel s))) ->
    name <> ""%string \/ In (EvGit dir ["checkout"; name]) (trace s).
Proof.
  intros main [-> | ->]; [apply Commits_main_names | apply Branches_main_names].
Qed.

End OrganizerRuns.

(** *** Concrete runs of the organizer *)

Section OrganizerRunSamples.

Import Organizer OrganizerSpec OrganizerRunSpec.

(** Three VOPRs, this one the second; the directory is given with a
    trailing slash. *)
Lemma set_environment_variables_configures_witness :
  exists dir tail url num cur,
    sample_env "3" "2" "TIGERBEETLE_DIRECTORY" = Some (dir ++ tail)%string /\
    (dir ++ tail)%string <> ""%string /\
    only_from "/\" tail = true /\ ends_in "/\" dir = false /\
    sample_env "3" "2" "REPOSITORY_URL" = Some url /\ url <> ""%string /\
    sample_env "3" "2" "NUM_VOPRS" = Some num /\
    sample_env "3" "2" "CURRENT_VOPR" = Some cur /\
    exists n c,
      Atoi num = inr n /\ 1 <= n <= int_max /\
      Atoi cur = inr c /\ 1 <= c <= int_max /\
      vars (started 3 2)
      = {| debug_mode := false; tigerbeetle_directory := dir;
           repository_url := url; num_voprs := n; current_vopr := c |} /\
      repo (started 3 2) = "main"%string /\
      trace (started 3 2) = [] ++ [].
Proof.
  exact (set_environment_variables_configures
           (sample_world "3" "2" (sample_tracker main_sha))
           (initial "main"%string) (started 3 2) eq_refl).
Defined.

(** Two of the three listed pull requests carry the label. *)
Lemma get_branch_names_takes_first_witness :
  exists branches,
    Branches.get_branch_names sample_pulls (started 3 2)
    = (Ret branches, started 3 2) /\
    branches = firstn 3 (flat_map labelled_branch sample_pulls) /\
    len branches <= 3 /\
    named branches /\
    forall b, In b branches ->
      exists e, In e sample_pulls /\ has_vopr_label (Labels e) = true /\
                head_branch e = Some b.
Proof.
  apply (get_branch_names_takes_first sample_pulls (started 3 2)).
  cbn. lia.
Defined.

(** Three VOPRs and the sample tracker. *)
Lemma get_commit_hashes_bounded_witness :
  same_outside (started 3 2)
    (snd (Commits.get_commit_hashes
            (sample_world "3" "2" (sample_tracker main_sha)) 1 (started 3 2))) /\
  forall vc,
    fst (Commits.get_commit_hashes
           (sample_world "3" "2" (sample_tracker main_sha)) 1 (started 3 2))
    = Ret vc ->
    len vc <= 3 - 1 /\ named vc.
Proof.
  apply (get_commit_hashes_bounded
           (sample_world "3" "2" (sample_tracker main_sha)) 1 (started 3 2)).
  - cbn. unfold int_max. lia.
  - apply surjective_pairing.
Defined.

(** Three VOPRs and two collected names. *)
Lemma each_vopr_runs_its_own_pull_request_witness :
  Branches.get_vopr_assignments 2 [sha_a; sha_b] (started 3 1)
  = (Ret ["main"%string; sha_a; sha_b], started 3 1) /\
  forall main s1,
    Commits.get_commits (sample_world "3" "1" (sample_tracker main_sha)) "main"
      (started 3 1) = (Ret main, s1) ->
    main <> ""%string ->
    Commits.get_vopr_assignments (sample_world "3" "1" (sample_tracker main_sha))
      2 [sha_a; sha_b] (started 3 1)
    = (Ret [main; sha_a; sha_b], s1).
Proof.
  apply (each_vopr_runs_its_own_pull_request
           (sample_world "3" "1" (sample_tracker main_sha)) 2 [sha_a; sha_b]
           (started 3 1)).
  - cbn. unfold int_max. lia.
  - cbn. unfold int_max. lia.
  - cbn. lia.
Defined.

(** VOPR 2 of 3 checks out the branch of the first labelled pull request. *)
Lemma Branches_main_checks_out_its_assignment_witness :
  command_line (sample_world "3" "2" branch_tracker) = Flags false /\
  exists branch,
    nth_error ["main"%string; "fix-a"%string; "fix-b"%string] 1 = Some branch /\
    repo (snd (Branches.main (sample_world "3" "2" branch_tracker) 2
                 (initial "main"%string))) = branch.
Proof.
  assert (Hh : healthy (branch_tracker sample_url))
    by (repeat split; cbn; lia).
  split; [reflexivity |].
  destruct (Branches_main_checks_out_its_assignment
              (sample_world "3" "2" branch_tracker) 2 false
              (initial "main"%string) (started 3 2) sample_pulls
              eq_refl eq_refl Hh eq_refl (le_n 2))
    as (_ & _ & Hin & _).
  destruct Hin as (branch & Hnth & Hrun); [cbn; lia |].
  exists branch. split; [exact Hnth |].
  rewrite Hrun. cbn in Hnth. injection Hnth as <-. reflexivity.
Defined.


(** The checkout of VOPR 2 of 3 names a commit. *)
Lemma main_checks_out_no_empty_name_witness :
  sha_a <> ""%string \/
  In (EvGit "/home/voprrunner/tigerbeetle2" ["checkout"; sha_a])
     (trace (initial "main"%string)).
Proof.
  apply (main_checks_out_no_empty_name
           (sample_world "3" "2" (sample_tracker main_sha)) 2
           (initial "main"%string)
           (Commits.main (sample_world "3" "2" (sample_tracker main_sha)))
           (or_introl eq_refl)).
  vm_compute. tauto.
Defined.

End OrganizerRunSamples.
